(** * Batch MP3 conversion scripts: a shallow embedding and its properties

    Two Python scripts are embedded here:
    - [biliAudioToMp3_.py] (module [Bili]): every [entry.json] descriptor found
      under the input roots names a title; the audio file next to it is
      transcoded to [<title>.mp3];
    - [mp4Tomp3.py] (module [Mp4]): every video file found under the input
      roots is demuxed to a temporary [.aac] file and transcoded to
      [<name>.mp3].

    The Python runtime the scripts rely on is modelled first: strings as lists
    of code points, [posixpath], a directory tree for the file system,
    [os.walk], exceptions and [try]/[except]/[finally] as an error-state monad
    over a [world], the external encoder and the progress callback as
    functions of their call history, the console as a stream that may refuse
    a line, and the thread pool as a scheduler that picks, step by step, which
    of the tasks the workers hold goes on. *)

From Stdlib Require Import String Ascii.
From Stdlib Require Import List NArith ZArith Bool Lia Permutation.
Import ListNotations.

Set Implicit Arguments.
Set Warnings "-register-all".

(** ** Python strings *)

(** A [str] is a sequence of Unicode code points. *)
Definition pystr := list N.

(** ASCII literals. *)
Definition py (s : string) : pystr :=
  map (fun a => N.of_nat (nat_of_ascii a)) (list_ascii_of_string s).

Fixpoint str_eqb (a b : pystr) : bool :=
  match a, b with
  | [], [] => true
  | x :: a', y :: b' => N.eqb x y && str_eqb a' b'
  | _, _ => false
  end.

(** [x in l] for a list (or set) of strings. *)
Definition str_in (x : pystr) (l : list pystr) : bool := existsb (str_eqb x) l.

Definition is_empty (s : pystr) : bool :=
  match s with [] => true | _ => false end.

Fixpoint startswith (s p : pystr) : bool :=
  match p with
  | [] => true
  | c :: p' =>
      match s with
      | [] => false
      | d :: s' => N.eqb d c && startswith s' p'
      end
  end.

Definition endswith (s p : pystr) : bool := startswith (rev s) (rev p).

(** [str.lower], as far as the scripts can tell. They compare lower-cased
    names with ASCII literals only ([in], [startswith], [endswith]). Three
    kinds of code points have a lower-case form with an ASCII character in
    it: the letters A-Z, the Kelvin sign U+212A (lower case [k]) and the
    dotted capital I U+0130 (lower case [i] followed by U+0307, the one
    code point whose lower-case form is longer than itself). Any other code
    point is left as it is here: its lower-case form has no ASCII character
    either, so no comparison with an ASCII literal comes out differently. *)
Definition lower_cp (c : N) : list N :=
  if (65 <=? c)%N && (c <=? 90)%N then [(c + 32)%N]
  else if (c =? 8490)%N then [107%N]
  else if (c =? 304)%N then [105%N; 775%N]
  else [c].

Definition lower (s : pystr) : pystr := flat_map lower_cp s.

(** [s.count(c)] for a one-character [c]. *)
Definition count_cp (c : N) (s : pystr) : Z :=
  Z.of_nat (length (filter (N.eqb c) s)).

(** [s.rfind(c)] for a one-character [c], counting from index [i]. *)
Fixpoint rfind_from (c : N) (s : pystr) (i : Z) : Z :=
  match s with
  | [] => (-1)%Z
  | x :: r =>
      let k := rfind_from c r (i + 1)%Z in
      if (0 <=? k)%Z then k else if N.eqb x c then i else (-1)%Z
  end.

Definition rfind (c : N) (s : pystr) : Z := rfind_from c s 0%Z.

(** [s[i:j]] for [0 <= i]. *)
Definition slice (i j : Z) (s : pystr) : pystr :=
  firstn (Z.to_nat (j - i)) (skipn (Z.to_nat i) s).

(** [s.rstrip(c)]. *)
Fixpoint lstrip_cp (c : N) (s : pystr) : pystr :=
  match s with
  | x :: r => if N.eqb x c then lstrip_cp c r else s
  | [] => []
  end.

Definition rstrip_cp (c : N) (s : pystr) : pystr := rev (lstrip_cp c (rev s)).

(** ** posixpath *)

Definition sep : N := 47.     (* "/" *)
Definition extsep : N := 46.  (* "." *)

(** [os.path.join(a, b)]. *)
Definition path_join (a b : pystr) : pystr :=
  if startswith b [sep] then b
  else if is_empty a || endswith a [sep] then a ++ b
  else a ++ [sep] ++ b.

(** [os.path.basename(p)]: [p[p.rfind(sep) + 1:]]. *)
Definition basename (p : pystr) : pystr :=
  skipn (Z.to_nat (rfind sep p + 1)) p.

(** [os.path.dirname(p)]. *)
Definition dirname (p : pystr) : pystr :=
  let head := firstn (Z.to_nat (rfind sep p + 1)) p in
  if negb (is_empty head) && negb (forallb (N.eqb sep) head)
  then rstrip_cp sep head else head.

(** [os.path.splitext(p)] ([genericpath._splitext]): the extension starts at
    the last dot of the last component, leading dots of that component
    excepted. *)
Definition splitext (p : pystr) : pystr * pystr :=
  let sepIndex := rfind sep p in
  let dotIndex := rfind extsep p in
  if (sepIndex <? dotIndex)%Z
     && existsb (fun c => negb (N.eqb c extsep)) (slice (sepIndex + 1) dotIndex p)
  then (firstn (Z.to_nat dotIndex) p, skipn (Z.to_nat dotIndex) p)
  else (p, []).

(** The components of a path: the pieces between separators, empty pieces
    dropped (so [/a//b/] and [a/b] name the same node: the working directory
    is the root). The file system below looks every component up as the name
    of an entry: it is a model of paths in normal form, without [.] and [..]
    components, as the directory dialogs of the scripts return them. *)
Fixpoint split_sep (s : pystr) : list pystr :=
  match s with
  | [] => [[]]
  | c :: r =>
      if N.eqb c sep then [] :: split_sep r
      else match split_sep r with
           | h :: t => (c :: h) :: t
           | [] => [[c]]
           end
  end.

Definition components (p : pystr) : list pystr :=
  filter (fun c => negb (is_empty c)) (split_sep p).

(** ** JSON values, exceptions, the file system *)

(** What [json.load] returns. *)
Inductive json :=
| JNull
| JBool (b : bool)
| JNum (z : Z)
| JStr (s : pystr)
| JArr (items : list json)
| JObj (fields : list (pystr * json)).

(** The exceptions the scripts can meet; all are subclasses of [Exception]. *)
Inductive exn :=
| FileNotFoundError
| FileExistsError
| NotADirectoryError
| IsADirectoryError
| PermissionError
| JSONDecodeError
| AttributeError
| TypeError
| ValueError
| RuntimeError (msg : pystr)
| OtherError (code : N).

Inductive result (A : Type) :=
| Ok (a : A)
| Raise (e : exn).
Arguments Ok {A} a.
Arguments Raise {A} e.

(** A regular file: its size, what [json.load] makes of its content ([None]
    when the content is no JSON text) and whether the system refuses to
    delete it (held open by another process, read-only directory). *)
Record fdata := {
  f_size : N;
  f_json : option json;
  f_locked : bool
}.

(** A directory lists its entries in the order [os.scandir] yields them. *)
Inductive node :=
| File (d : fdata)
| Dir (entries : list (pystr * node)).

Definition is_dir (n : node) : bool :=
  match n with Dir _ => true | File _ => false end.

Fixpoint assoc {A : Type} (k : pystr) (l : list (pystr * A)) : option A :=
  match l with
  | [] => None
  | (k', v) :: r => if str_eqb k k' then Some v else assoc k r
  end.

Fixpoint set_assoc {A : Type} (k : pystr) (v : A) (l : list (pystr * A))
  : list (pystr * A) :=
  match l with
  | [] => [(k, v)]
  | (k', v') :: r =>
      if str_eqb k k' then (k, v) :: r else (k', v') :: set_assoc k v r
  end.

Fixpoint del_assoc {A : Type} (k : pystr) (l : list (pystr * A))
  : list (pystr * A) :=
  match l with
  | [] => []
  | (k', v') :: r =>
      if str_eqb k k' then del_assoc k r else (k', v') :: del_assoc k r
  end.

Fixpoint fs_lookup (cs : list pystr) (n : node) : option node :=
  match cs with
  | [] => Some n
  | c :: cs' =>
      match n with
      | File _ => None
      | Dir es =>
          match assoc c es with
          | Some ch => fs_lookup cs' ch
          | None => None
          end
      end
  end.

(** The node a path names; the empty path names nothing. *)
Definition fs_stat (fs : node) (p : pystr) : option node :=
  if is_empty p then None else fs_lookup (components p) fs.

(** [os.path.exists(p)]. *)
Definition path_exists (fs : node) (p : pystr) : bool :=
  match fs_stat fs p with Some _ => true | None => false end.

(** The size [os.path.getsize] reports for a directory. *)
Definition dir_size : N := 4096.

(** [os.path.getsize(p)]. *)
Definition getsize (fs : node) (p : pystr) : result N :=
  match fs_stat fs p with
  | Some (File d) => Ok (f_size d)
  | Some (Dir _) => Ok dir_size
  | None => Raise FileNotFoundError
  end.

(** Creating the directories of a component list that are missing. *)
Fixpoint mkdirs (cs : list pystr) (n : node) : result node :=
  match cs with
  | [] =>
      match n with
      | Dir _ => Ok n
      | File _ => Raise FileExistsError
      end
  | c :: cs' =>
      match n with
      | File _ => Raise NotADirectoryError
      | Dir es =>
          match assoc c es with
          | Some ch =>
              match mkdirs cs' ch with
              | Ok ch' => Ok (Dir (set_assoc c ch' es))
              | Raise e => Raise e
              end
          | None =>
              match mkdirs cs' (Dir []) with
              | Ok ch' => Ok (Dir (es ++ [(c, ch')]))
              | Raise e => Raise e
              end
          end
      end
  end.

(** [os.makedirs(p, exist_ok=...)]. *)
Definition fs_makedirs (fs : node) (p : pystr) (exist_ok : bool) : result node :=
  if is_empty p then Raise FileNotFoundError
  else if negb exist_ok && path_exists fs p then Raise FileExistsError
  else mkdirs (components p) fs.

(** Deleting the file a component list names. *)
Fixpoint unlink (cs : list pystr) (n : node) : result node :=
  match cs with
  | [] => Raise IsADirectoryError
  | c :: cs' =>
      match n with
      | File _ => Raise NotADirectoryError
      | Dir es =>
          match assoc c es with
          | None => Raise FileNotFoundError
          | Some ch =>
              match cs' with
              | [] =>
                  match ch with
                  | Dir _ => Raise IsADirectoryError
                  | File d =>
                      if f_locked d then Raise PermissionError
                      else Ok (Dir (del_assoc c es))
                  end
              | _ :: _ =>
                  match unlink cs' ch with
                  | Ok ch' => Ok (Dir (set_assoc c ch' es))
                  | Raise e => Raise e
                  end
              end
          end
      end
  end.

(** [os.remove(p)]. *)
Definition fs_remove (fs : node) (p : pystr) : result node :=
  if is_empty p then Raise FileNotFoundError else unlink (components p) fs.

(** [json.load(open(p))]. *)
Definition fs_load_json (fs : node) (p : pystr) : result json :=
  match fs_stat fs p with
  | None => Raise FileNotFoundError
  | Some (Dir _) => Raise IsADirectoryError
  | Some (File d) =>
      match f_json d with
      | Some j => Ok j
      | None => Raise JSONDecodeError
      end
  end.

(** ** os.walk *)

Fixpoint dir_names (es : list (pystr * node)) : list pystr :=
  match es with
  | [] => []
  | (k, Dir _) :: r => k :: dir_names r
  | (_, File _) :: r => dir_names r
  end.

Fixpoint file_names (es : list (pystr * node)) : list pystr :=
  match es with
  | [] => []
  | (k, File _) :: r => k :: file_names r
  | (_, Dir _) :: r => file_names r
  end.

(** [os.walk(top)], top down, of the directory [n] that [top] names. The loop
    bodies of the scripts rewrite [dirs] in place to [[d for d in dirs if keep
    root d]] before the walk descends; [keep] is that filter. Each step yields
    [(root, dirs, files)]. *)
Fixpoint walk (keep : pystr -> pystr -> bool) (top : pystr) (n : node)
  : list (pystr * list pystr * list pystr) :=
  match n with
  | File _ => []
  | Dir es =>
      (top, dir_names es, file_names es) ::
      (fix descend (l : list (pystr * node)) :=
         match l with
         | [] => []
         | (k, ch) :: r =>
             (if is_dir ch && keep top k then walk keep (path_join top k) ch
              else []) ++ descend r
         end) es
  end.

(** [os.walk(p)] in the file system [fs]: nothing when [p] names no
    directory. *)
Definition os_walk (keep : pystr -> pystr -> bool) (fs : node) (p : pystr)
  : list (pystr * list pystr * list pystr) :=
  match fs_stat fs p with
  | Some n => walk keep p n
  | None => []
  end.

(** ** The world, and the monad of effects *)

(** The lines the scripts print. *)
Inductive event :=
| LogReadError (json_path : pystr) (e : exn)
| LogAudioNotFound (json_dir : pystr)
| LogProcessing (path : pystr)
| LogInvalidName (path : pystr)
| LogSkip (final_mp3 : pystr)
| LogExtracting (path : pystr)
| LogConverting (path : pystr)
| LogConverted (src dst : pystr)
| LogEncoderError (path stderr : pystr)
| LogError (path : pystr) (e : exn)
| LogRemoveFailed (temp : pystr) (e : exn)
| LogUnexpected (path : pystr) (e : exn)
| LogNothingFound
| LogTaskException (e : exn).

(** Everything a call can read or change: the file system, the console, the
    command lines given to the encoder so far, the arguments the progress
    callback received so far, the two [lru_cache] tables of
    [biliAudioToMp3_.py], and the [nonlocal] counters of the running
    [process_folders_parallel]. *)
Record world := {
  w_fs : node;
  w_log : list event;
  w_enc : list (list pystr);
  w_cb : list (option bool);
  w_titles : list (pystr * option pystr);
  w_audios : list (pystr * option pystr);
  w_success : Z;
  w_processed : Z
}.

Definition set_fs (fs : node) (w : world) : world :=
  {| w_fs := fs; w_log := w_log w; w_enc := w_enc w; w_cb := w_cb w;
     w_titles := w_titles w; w_audios := w_audios w;
     w_success := w_success w; w_processed := w_processed w |}.

Definition add_log (ev : event) (w : world) : world :=
  {| w_fs := w_fs w; w_log := w_log w ++ [ev]; w_enc := w_enc w; w_cb := w_cb w;
     w_titles := w_titles w; w_audios := w_audios w;
     w_success := w_success w; w_processed := w_processed w |}.

Definition add_enc (argv : list pystr) (w : world) : world :=
  {| w_fs := w_fs w; w_log := w_log w; w_enc := w_enc w ++ [argv]; w_cb := w_cb w;
     w_titles := w_titles w; w_audios := w_audios w;
     w_success := w_success w; w_processed := w_processed w |}.

Definition add_cb (arg : option bool) (w : world) : world :=
  {| w_fs := w_fs w; w_log := w_log w; w_enc := w_enc w; w_cb := w_cb w ++ [arg];
     w_titles := w_titles w; w_audios := w_audios w;
     w_success := w_success w; w_processed := w_processed w |}.

Definition set_titles (t : list (pystr * option pystr)) (w : world) : world :=
  {| w_fs := w_fs w; w_log := w_log w; w_enc := w_enc w; w_cb := w_cb w;
     w_titles := t; w_audios := w_audios w;
     w_success := w_success w; w_processed := w_processed w |}.

Definition set_audios (t : list (pystr * option pystr)) (w : world) : world :=
  {| w_fs := w_fs w; w_log := w_log w; w_enc := w_enc w; w_cb := w_cb w;
     w_titles := w_titles w; w_audios := t;
     w_success := w_success w; w_processed := w_processed w |}.

Definition set_counters (success processed : Z) (w : world) : world :=
  {| w_fs := w_fs w; w_log := w_log w; w_enc := w_enc w; w_cb := w_cb w;
     w_titles := w_titles w; w_audios := w_audios w;
     w_success := success; w_processed := processed |}.

(** A computation either returns a value or raises, and leaves a world. *)
Definition M (A : Type) : Type := world -> result A * world.

Definition ret {A : Type} (a : A) : M A := fun w => (Ok a, w).

Definition raise {A : Type} (e : exn) : M A := fun w => (Raise e, w).

Definition bind {A B : Type} (c : M A) (k : A -> M B) : M B :=
  fun w =>
    match c w with
    | (Ok a, w') => k a w'
    | (Raise e, w') => (Raise e, w')
    end.

Declare Scope py_scope.
Delimit Scope py_scope with py.
Notation "x <- c ;; k" := (bind c (fun x => k))
  (at level 61, c at next level, right associativity) : py_scope.
Notation "c ;; k" := (bind c (fun _ => k))
  (at level 61, right associativity) : py_scope.
Open Scope py_scope.

(** [try: c  except Exception as e: h e]. *)
Definition try_except {A : Type} (c : M A) (h : exn -> M A) : M A :=
  fun w =>
    match c w with
    | (Ok a, w') => (Ok a, w')
    | (Raise e, w') => h e w'
    end.

(** [try: c  finally: f]: [f] runs on every way out of [c]; the outcome of
    [c] stands unless [f] raises itself. *)
Definition try_finally {A : Type} (c : M A) (f : M unit) : M A :=
  fun w =>
    match c w with
    | (r, w1) =>
        match f w1 with
        | (Ok _, w2) => (r, w2)
        | (Raise e, w2) => (Raise e, w2)
        end
    end.

Definition lift {A : Type} (r : result A) : M A := fun w => (r, w).

(** The console. [print] raises when the stream does not take the line: its
    encoding lacks a character of a path or of a message, or the stream is
    closed. A console tells, from the lines printed so far and the next one,
    what [print] raises, if anything; a line that raised is not printed. *)
Definition console := list event -> event -> option exn.

(** [print(line)] on the console [out]. *)
Definition print_on (out : console) (ev : event) : M unit :=
  fun w =>
    match out (w_log w) ev with
    | None => (Ok tt, add_log ev w)
    | Some e => (Raise e, w)
    end.

(** A console that takes every line, and [print] on it. *)
Definition terminal : console := fun _ _ => None.

Definition print (ev : event) : M unit := print_on terminal ev.

Definition get_fs : M node := fun w => (Ok (w_fs w), w).

Definition exists_ (p : pystr) : M bool :=
  fun w => (Ok (path_exists (w_fs w) p), w).

Definition getsize_ (p : pystr) : M N := fun w => (getsize (w_fs w) p, w).

Definition makedirs (p : pystr) (exist_ok : bool) : M unit :=
  fun w =>
    match fs_makedirs (w_fs w) p exist_ok with
    | Ok fs' => (Ok tt, set_fs fs' w)
    | Raise e => (Raise e, w)
    end.

Definition remove (p : pystr) : M unit :=
  fun w =>
    match fs_remove (w_fs w) p with
    | Ok fs' => (Ok tt, set_fs fs' w)
    | Raise e => (Raise e, w)
    end.

(** ** The machine: encoder, processor count, scheduling *)

(** What lies outside the scripts.
    - [ffmpeg history argv fs]: a run of the encoder with command line [argv]
      after the runs in [history]; it leaves a file system and either cannot
      be started (an exception of [subprocess.run]) or exits with a return
      code and a text on its error stream.
    - [cpu_count]: [psutil.cpu_count(logical=True)], [None] when undetermined.
    - [pick k]: which of the tasks held by the workers takes the [k]-th step
      of the pool. *)
Record host := {
  ffmpeg : list (list pystr) -> list pystr -> node -> node * result (Z * pystr);
  cpu_count : option Z;
  pick : nat -> nat
}.

(** [subprocess.run(argv, capture_output=True, text=True)]. *)
Definition subprocess_run (h : host) (argv : list pystr) : M (Z * pystr) :=
  fun w =>
    match ffmpeg h (w_enc w) argv (w_fs w) with
    | (fs', r) => (r, add_enc argv (set_fs fs' w))
    end.

(** ** Progress callbacks *)

(** A callable of one argument ([True], [False] or [None]). *)
Definition pyfun := option bool -> M unit.

(** A callback supplied by the caller: given the arguments of its earlier
    calls and the present one it returns or raises. It touches nothing of the
    world but its own record of calls. *)
Definition callback := list (option bool) -> option bool -> option exn.

Definition sink (f : callback) : pyfun :=
  fun arg w =>
    match f (w_cb w) arg with
    | None => (Ok tt, add_cb arg w)
    | Some e => (Raise e, add_cb arg w)
    end.

(** [if progress_callback: progress_callback(flag)]. *)
Definition notify (progress_callback : option pyfun) (flag : bool) : M unit :=
  match progress_callback with
  | Some g => g (Some flag)
  | None => ret tt
  end.

(** ** concurrent.futures.ThreadPoolExecutor *)

Fixpoint remove_nth {A : Type} (i : nat) (l : list A) : list A :=
  match l with
  | [] => []
  | x :: r =>
      match i with
      | O => r
      | S i' => x :: remove_nth i' r
      end
  end.

Fixpoint set_nth {A : Type} (i : nat) (y : A) (l : list A) : list A :=
  match l with
  | [] => []
  | x :: r =>
      match i with
      | O => y :: r
      | S i' => x :: set_nth i' y r
      end
  end.

(** The tasks of the two schedulers run in two steps: the call of
    [process_single_file], outside the lock, and then the block under the
    lock with the [return]. A task is therefore a computation that leaves
    the computation still to be run, [task u : M (M bool)]; a task whose
    first step raises is over. A slot of the pool holds a task that was
    submitted and not started, or what is left of a task that was. *)
Inductive slot :=
| Queued (u : pystr)
| Held (u : pystr) (rest : M bool).

Definition unit_of (s : slot) : pystr :=
  match s with
  | Queued u => u
  | Held u _ => u
  end.

(** One step of the task in a slot: it leaves the slot changed, or the
    outcome of the task's future. *)
Definition step_slot (task : pystr -> M (M bool)) (s : slot) (w : world)
  : (slot + pystr * result bool) * world :=
  match s with
  | Queued u =>
      match task u w with
      | (Ok rest, w') => (inl (Held u rest), w')
      | (Raise e, w') => (inr (u, Raise e), w')
      end
  | Held u rest =>
      match rest w with
      | (r, w') => (inr (u, r), w')
      end
  end.

(** The tasks of [slots] were submitted in this order to a pool of [workers]
    threads. The workers hold the first [workers] tasks that are not over;
    the host picks which of them takes the next step, so the steps of the
    tasks held are interleaved in any order, while each step runs in one
    piece: the block under the lock because of the lock, the call of
    [process_single_file] by assumption (what two overlapping calls do to
    the same files is not modelled). The futures are
    listed in the order in which they complete, each with the unit it was
    submitted for. *)
Fixpoint run_pool (h : host) (workers : nat) (task : pystr -> M (M bool))
    (k fuel : nat) (slots : list slot) (w : world)
  : list (pystr * result bool) * world :=
  match fuel with
  | O => ([], w)
  | S fuel' =>
      match slots with
      | [] => ([], w)
      | s0 :: _ =>
          let i := Nat.modulo (pick h k) (Nat.min workers (length slots)) in
          match step_slot task (nth i slots s0) w with
          | (inl s', w1) =>
              run_pool h workers task (S k) fuel' (set_nth i s' slots) w1
          | (inr r, w1) =>
              match run_pool h workers task (S k) fuel' (remove_nth i slots) w1 with
              | (rs, w2) => (r :: rs, w2)
              end
          end
      end
  end.

(** [with ThreadPoolExecutor(max_workers=n) as executor: futures =
    [executor.submit(task, u) for u in units]]: the constructor refuses a
    size that is not positive; leaving the block waits for every task, which
    takes two steps at most. *)
Definition thread_pool (h : host) (max_workers : Z) (task : pystr -> M (M bool))
    (units : list pystr) : M (list (pystr * result bool)) :=
  fun w =>
    if (max_workers <=? 0)%Z then (Raise ValueError, w)
    else
      match run_pool h (Z.to_nat max_workers) task 0 (2 * length units)
                     (map Queued units) w with
      | (rs, w') => (Ok rs, w')
      end.

(** ** The cleaning of names

    [extract_title_name] (lines 80-85) and [get_video_name] (lines 35-40)
    clean a name with the same lines. *)

(** Backslash, slash, colon, star, question mark, double quote, angle
    brackets, bar. *)
Definition invalid_chars : list N := [92; 47; 58; 42; 63; 34; 60; 62; 124]%N.

Definition is_invalid (c : N) : bool := existsb (N.eqb c) invalid_chars.

(** [if len(name) > 150: name = name[:150]]. *)
Definition truncate (name : pystr) : pystr :=
  if Nat.ltb 150 (length name) then firstn 150 name else name.

(** [''.join(c for c in name if c not in invalid_chars)], then the cut. *)
Definition sanitize (name : pystr) : pystr :=
  truncate (filter (fun c => negb (is_invalid c)) name).

(** ** biliAudioToMp3_.py *)

Module Bili.

(** [find_entry_json_files(root_dir)]: hidden directories are not entered. *)
Definition find_entry_json_files (fs : node) (root_dir : pystr) : list pystr :=
  flat_map
    (fun step =>
       match step with
       | (root, _, files) =>
           if str_in (py "entry.json") files
           then [path_join root (py "entry.json")] else []
       end)
    (os_walk (fun _ d => negb (startswith d (py "."))) fs root_dir).

Definition audio_extensions : list pystr :=
  [py ".m4a"; py ".mp4"; py ".aac"; py ".flv"; py ".m4s"].

Definition common_audio_dirs : list pystr :=
  [py "audio"; py "sound"; py "voice"; py "music"].

(** [root.count(os.sep) - json_dir.count(os.sep) > 2]. *)
Definition too_deep (json_dir root : pystr) : bool :=
  (2 <? count_cp sep root - count_cp sep json_dir)%Z.

(** The first value a loop body returns, if any. *)
Fixpoint first_return {A B : Type} (body : A -> option B) (l : list A) : option B :=
  match l with
  | [] => None
  | x :: r =>
      match body x with
      | Some b => Some b
      | None => first_return body r
      end
  end.

(** [find_audio_file(json_dir)]. *)
Definition find_audio_file (fs : node) (json_dir : pystr) : option pystr :=
  match
    first_return
      (fun ext =>
         let audio_path := path_join json_dir (py "audio" ++ ext) in
         if path_exists fs audio_path then Some audio_path else None)
      audio_extensions
  with
  | Some audio_path => Some audio_path
  | None =>
      first_return
        (fun step =>
           match step with
           | (root, _, files) =>
               if too_deep json_dir root then None
               else
                 first_return
                   (fun file =>
                      let file_lower := lower file in
                      if existsb (endswith file_lower) audio_extensions then
                        if startswith file_lower (py "audio")
                        then Some (path_join root file)
                        else Some (path_join root file)
                      else None)
                   files
           end)
        (os_walk
           (fun root d =>
              negb (too_deep json_dir root)
              && (str_in (lower d) common_audio_dirs
                  || negb (startswith d (py "."))))
           fs json_dir)
  end.

(** [@lru_cache] [find_audio_file_cached(json_dir)]. *)
Definition find_audio_file_cached (json_dir : pystr) : M (option pystr) :=
  fun w =>
    match assoc json_dir (w_audios w) with
    | Some v => (Ok v, w)
    | None =>
        let v := find_audio_file (w_fs w) json_dir in
        (Ok v, set_audios (w_audios w ++ [(json_dir, v)]) w)
    end.

(** Iterating over a JSON value: the characters of a string, the items of a
    list, the keys of an object; anything else is not iterable. *)
Definition iterate (v : json) : result (list json) :=
  match v with
  | JStr s => Ok (map (fun c => JStr [c]) s)
  | JArr items => Ok items
  | JObj fields => Ok (map (fun kv => JStr (fst kv)) fields)
  | _ => Raise TypeError
  end.

(** [''.join(c for c in items if c not in invalid_chars)]: an item that is
    no string cannot be joined (or, unhashable, cannot be looked up). *)
Fixpoint join_valid (items : list json) : result pystr :=
  match items with
  | [] => Ok []
  | JStr c :: r =>
      match join_valid r with
      | Ok t => Ok (if str_in c (map (fun x => [x]) invalid_chars) then t else c ++ t)
      | Raise e => Raise e
      end
  | _ :: _ => Raise TypeError
  end.

(** The body of the [try] of [extract_title_name], after [json.load]. *)
Definition title_of (data : json) : result pystr :=
  match data with
  | JObj fields =>
      let part_name :=
        match assoc (py "title") fields with
        | Some v => v
        | None => JStr (py "untitled")
        end in
      match iterate part_name with
      | Ok items =>
          match join_valid items with
          | Ok part_name => Ok (truncate part_name)
          | Raise e => Raise e
          end
      | Raise e => Raise e
      end
  | _ => Raise AttributeError
  end.

(** [extract_title_name(json_path)], printing on the console [out]. *)
Definition extract_title_name_on (out : console) (json_path : pystr)
  : M (option pystr) :=
  try_except
    (data <- (fun w => (fs_load_json (w_fs w) json_path, w)) ;;
     part_name <- lift (title_of data) ;;
     ret (Some part_name))
    (fun e => print_on out (LogReadError json_path e) ;; ret None).

(** [@lru_cache] [extract_title_name_cached(json_path)]: a call that raises
    is not cached. *)
Definition extract_title_name_cached_on (out : console) (json_path : pystr)
  : M (option pystr) :=
  fun w =>
    match assoc json_path (w_titles w) with
    | Some v => (Ok v, w)
    | None =>
        match extract_title_name_on out json_path w with
        | (Ok v, w') => (Ok v, set_titles (w_titles w' ++ [(json_path, v)]) w')
        | (Raise e, w') => (Raise e, w')
        end
    end.

(** The encoder's command line. *)
Definition transcode_argv (audio_path final_mp3 : pystr) : list pystr :=
  [py "ffmpeg"; py "-hide_banner"; py "-loglevel"; py "error";
   py "-i"; audio_path; py "-c:a"; py "libmp3lame"; py "-q:a"; py "0";
   py "-y"; final_mp3].

(** [os.path.exists(p) and os.path.getsize(p) > 0]. *)
Definition exists_nonempty (p : pystr) : M bool :=
  ex <- exists_ p ;;
  if ex then (size <- getsize_ p ;; ret (0 <? size)%N) else ret false.

(** The body of the [try] of [process_single_file] (lines 94-144). *)
Definition process_body_on (out : console) (h : host)
    (json_path output_dir : pystr) (progress_callback : option pyfun) : M bool :=
  part_name <- extract_title_name_cached_on out json_path ;;
  match part_name with
  | Some (c :: s) =>
      let part_name := c :: s in
      let json_dir := dirname json_path in
      audio_path <- find_audio_file_cached json_dir ;;
      match audio_path with
      | Some (a :: p) =>
          let audio_path := a :: p in
          makedirs output_dir true ;;
          let final_mp3 := path_join output_dir (part_name ++ py ".mp3") in
          skip <- exists_nonempty final_mp3 ;;
          if skip then
            print_on out (LogSkip final_mp3) ;;
            notify progress_callback true ;;
            ret true
          else
            result <- subprocess_run h (transcode_argv audio_path final_mp3) ;;
            if (fst result =? 0)%Z then
              print_on out (LogConverted audio_path final_mp3) ;;
              notify progress_callback true ;;
              ret true
            else
              print_on out (LogEncoderError json_path (snd result)) ;;
              notify progress_callback false ;;
              ret false
      | _ =>
          print_on out (LogAudioNotFound json_dir) ;;
          notify progress_callback false ;;
          ret false
      end
  | _ =>
      notify progress_callback false ;;
      ret false
  end.

(** [process_single_file(json_path, output_dir, progress_callback)]: the
    handler prints and calls the callback outside any [try]. *)
Definition process_single_file_on (out : console) (h : host)
    (json_path output_dir : pystr) (progress_callback : option pyfun) : M bool :=
  try_except
    (process_body_on out h json_path output_dir progress_callback)
    (fun e =>
       print_on out (LogError json_path e) ;;
       notify progress_callback false ;;
       ret false).

(** The block under the lock of [task_wrapper], and its [return] (lines
    181-185). *)
Definition counted (result : bool) : M bool :=
  (fun w =>
     (Ok tt,
      set_counters (if result then w_success w + 1 else w_success w)%Z
                   (w_processed w + 1)%Z w)) ;;
  ret result.

(** [task_wrapper(json_path)], the closure of [process_folders_parallel]: the
    call of [process_single_file] (line 180) leaves the block under the
    lock. *)
Definition task_wrapper_on (out : console) (h : host) (output_dir : pystr)
    (progress_callback : option pyfun) (json_path : pystr) : M (M bool) :=
  result <- process_single_file_on out h json_path output_dir progress_callback ;;
  ret (counted result).

(** [for future in as_completed(futures): future.result()]: the exception of
    a task is raised again here. *)
Fixpoint reraise_first (rs : list (result bool)) : M unit :=
  match rs with
  | [] => ret tt
  | Ok _ :: r => reraise_first r
  | Raise e :: _ => raise e
  end.

(** The default of [max_workers] (lines 169-171). *)
Definition default_workers (h : host) (max_workers : option Z) : M Z :=
  match max_workers with
  | Some n => ret n
  | None =>
      match cpu_count h with
      | Some logical_cores => ret (logical_cores - 1)%Z
      | None => raise TypeError
      end
  end.

(** [process_folders_parallel(input_dirs, output_dir, progress_callback,
    max_workers)]. *)
Definition process_folders_parallel_on (out : console) (h : host)
    (input_dirs : list pystr) (output_dir : pystr)
    (progress_callback : option pyfun) (max_workers : option Z) : M (Z * Z) :=
  ex <- exists_ output_dir ;;
  (if ex then ret tt else makedirs output_dir false) ;;
  fs <- get_fs ;;
  let all_json_files := flat_map (find_entry_json_files fs) input_dirs in
  let total := Z.of_nat (length all_json_files) in
  if (total =? 0)%Z then
    print_on out LogNothingFound ;;
    ret (0, 0)%Z
  else
    max_workers <- default_workers h max_workers ;;
    (fun w => (Ok tt, set_counters 0 0 w)) ;;
    futures <- thread_pool h max_workers
                 (task_wrapper_on out h output_dir progress_callback)
                 all_json_files ;;
    reraise_first (map snd futures) ;;
    success <- (fun w => (Ok (w_success w), w)) ;;
    ret (total, success).

(** The functions of the script on a console that takes every line. *)
Definition extract_title_name : pystr -> M (option pystr) :=
  extract_title_name_on terminal.

Definition extract_title_name_cached : pystr -> M (option pystr) :=
  extract_title_name_cached_on terminal.

Definition process_body : host -> pystr -> pystr -> option pyfun -> M bool :=
  process_body_on terminal.

Definition process_single_file
  : host -> pystr -> pystr -> option pyfun -> M bool :=
  process_single_file_on terminal.

Definition task_wrapper
  : host -> pystr -> option pyfun -> pystr -> M (M bool) :=
  task_wrapper_on terminal.

Definition process_folders_parallel
  : host -> list pystr -> pystr -> option pyfun -> option Z -> M (Z * Z) :=
  process_folders_parallel_on terminal.

(** [ProgressWindow]: the counters behind the labels. The Tk widgets are left
    out, and with them the percentage of the bar and the speed, which are
    floating-point values; the labels for failures and for the remainder
    show [completed - success] and [total - completed]. *)
Record ProgressWindow := {
  total : Z;
  completed : Z;
  success : Z;
  running : bool
}.

(** [ProgressWindow(total_tasks)], for the first window of the process. *)
Definition new_window (total_tasks : Z) : ProgressWindow :=
  {| total := total_tasks; completed := 0; success := 0; running := true |}.

(** [update(success_flag)] (lines 266-290): [None] counts as a failure. The
    second component tells whether the call raised: the percentage divides by
    [total], after the counters are increased. *)
Definition update (self : ProgressWindow) (success_flag : option bool)
  : ProgressWindow * bool :=
  if negb (running self) then (self, false)
  else
    let completed' := (completed self + 1)%Z in
    let success' :=
      match success_flag with
      | Some true => (success self + 1)%Z
      | _ => success self
      end in
    if (total self =? 0)%Z then
      ({| total := total self; completed := completed'; success := success';
          running := true |}, true)
    else
      ({| total := total self; completed := completed'; success := success';
          running := if (total self <=? completed')%Z then false else true |},
       false).

(** [cancel()] and [close()]. *)
Definition close (self : ProgressWindow) : ProgressWindow :=
  {| total := total self; completed := completed self;
     success := success self; running := false |}.

(** The window after the calls [progress_window.update(e)] for the events of
    a batch: [main] passes [progress_window.update] as the callback. *)
Definition window_after (events : list (option bool)) (self : ProgressWindow)
  : ProgressWindow :=
  fold_left (fun win e => fst (update win e)) events self.

(** The pool size [main] asks for (lines 375-377): [min(8, os.cpu_count() or
    1)] on Windows, the default elsewhere. *)
Definition main_max_workers (windows : bool) (os_cpu_count : option Z)
  : option Z :=
  if windows then
    Some (Z.min 8 (match os_cpu_count with
                   | Some n => if (n =? 0)%Z then 1 else n
                   | None => 1
                   end))%Z
  else None.

End Bili.

(** ** mp4Tomp3.py *)

Module Mp4.

Definition VIDEO_EXTENSIONS : list pystr :=
  [py ".mp4"; py ".mkv"; py ".flv"; py ".avi"; py ".mov"; py ".wmv"; py ".m4s"].

(** [find_video_files(root_dir)]: hidden directories are not entered. *)
Definition find_video_files (fs : node) (root_dir : pystr) : list pystr :=
  flat_map
    (fun step =>
       match step with
       | (root, _, files) =>
           flat_map
             (fun file =>
                let ext := lower (snd (splitext file)) in
                if str_in ext VIDEO_EXTENSIONS then [path_join root file] else [])
             files
       end)
    (os_walk (fun _ d => negb (startswith d (py "."))) fs root_dir).

(** [get_video_name(video_path)]. *)
Definition get_video_name (video_path : pystr) : pystr :=
  let filename := basename video_path in
  let name := fst (splitext filename) in
  sanitize name.

(** The two command lines of the encoder: stream copy, then transcoding. *)
Definition extract_argv (video_path temp_aac : pystr) : list pystr :=
  [py "ffmpeg"; py "-hide_banner"; py "-loglevel"; py "error";
   py "-i"; video_path; py "-c:a"; py "copy"; py "-vn"; py "-y"; temp_aac].

Definition convert_argv (temp_aac final_mp3 : pystr) : list pystr :=
  [py "ffmpeg"; py "-hide_banner"; py "-loglevel"; py "error";
   py "-i"; temp_aac; py "-c:a"; py "libmp3lame"; py "-q:a"; py "0";
   py "-y"; final_mp3].

(** [os.path.exists(p) and os.path.getsize(p) > 0]. *)
Definition exists_nonempty (p : pystr) : M bool :=
  ex <- exists_ p ;;
  if ex then (size <- getsize_ p ;; ret (0 <? size)%N) else ret false.

(** The inner [try] (lines 68-101): demux, then transcode. *)
Definition demux_transcode_on (out : console) (h : host)
    (video_path final_mp3 temp_aac : pystr) (progress_callback : option pyfun)
  : M bool :=
  print_on out (LogExtracting video_path) ;;
  extract_result <- subprocess_run h (extract_argv video_path temp_aac) ;;
  (if negb (fst extract_result =? 0)%Z
   then raise (RuntimeError (py "AAC extraction failed: " ++ snd extract_result))
   else ret tt) ;;
  print_on out (LogConverting video_path) ;;
  convert_result <- subprocess_run h (convert_argv temp_aac final_mp3) ;;
  (if negb (fst convert_result =? 0)%Z
   then raise (RuntimeError (py "MP3 conversion failed: " ++ snd convert_result))
   else ret tt) ;;
  print_on out (LogConverted video_path final_mp3) ;;
  notify progress_callback true ;;
  ret true.

(** The inner [except] (lines 103-107). *)
Definition demux_failed_on (out : console) (video_path : pystr)
    (progress_callback : option pyfun) (e : exn) : M bool :=
  print_on out (LogError video_path e) ;;
  notify progress_callback false ;;
  ret false.

(** The [finally] (lines 109-114). *)
Definition remove_temp_on (out : console) (temp_aac : pystr) : M unit :=
  ex <- exists_ temp_aac ;;
  if ex then
    try_except (remove temp_aac)
               (fun e => print_on out (LogRemoveFailed temp_aac e))
  else ret tt.

(** The inner [try]/[except]/[finally] (lines 67-114). *)
Definition convert_via_temp_on (out : console) (h : host)
    (video_path final_mp3 temp_aac : pystr) (progress_callback : option pyfun)
  : M bool :=
  try_finally
    (try_except
       (demux_transcode_on out h video_path final_mp3 temp_aac progress_callback)
       (demux_failed_on out video_path progress_callback))
    (remove_temp_on out temp_aac).

Definition temp_of (final_mp3 : pystr) : pystr :=
  fst (splitext final_mp3) ++ py "_temp.aac".

(** The body of the outer [try] (lines 48-114). *)
Definition process_body_on (out : console) (h : host)
    (video_path output_dir : pystr) (progress_callback : option pyfun) : M bool :=
  print_on out (LogProcessing video_path) ;;
  let video_name := get_video_name video_path in
  if is_empty video_name then
    print_on out (LogInvalidName video_path) ;;
    notify progress_callback false ;;
    ret false
  else
    makedirs output_dir true ;;
    let final_mp3 := path_join output_dir (video_name ++ py ".mp3") in
    skip <- exists_nonempty final_mp3 ;;
    if skip then
      print_on out (LogSkip final_mp3) ;;
      notify progress_callback true ;;
      ret true
    else
      let temp_aac := temp_of final_mp3 in
      convert_via_temp_on out h video_path final_mp3 temp_aac progress_callback.

(** [process_single_file(video_path, output_dir, progress_callback)]: the
    handler prints and calls the callback outside any [try]. *)
Definition process_single_file_on (out : console) (h : host)
    (video_path output_dir : pystr) (progress_callback : option pyfun) : M bool :=
  try_except
    (process_body_on out h video_path output_dir progress_callback)
    (fun e =>
       print_on out (LogUnexpected video_path e) ;;
       notify progress_callback false ;;
       ret false).

(** [lambda success_flag: progress_callback(success_flag) if progress_callback
    else None]. *)
Definition relay (progress_callback : option pyfun) : pyfun :=
  fun success_flag =>
    match progress_callback with
    | Some g => g success_flag
    | None => ret tt
    end.

(** The block under the lock of [task_wrapper], and its [return] (lines
    152-159). *)
Definition counted (progress_callback : option pyfun) (result : bool) : M bool :=
  (fun w =>
     (Ok tt,
      set_counters (if result then w_success w + 1 else w_success w)%Z
                   (w_processed w + 1)%Z w)) ;;
  match progress_callback with
  | Some g => g None
  | None => ret tt
  end ;;
  ret result.

(** [task_wrapper(video_path)], the closure of [process_folders_parallel]:
    the call of [process_single_file] (lines 150-151) leaves the block under
    the lock. *)
Definition task_wrapper_on (out : console) (h : host) (output_dir : pystr)
    (progress_callback : option pyfun) (video_path : pystr) : M (M bool) :=
  result <- process_single_file_on out h video_path output_dir
              (Some (relay progress_callback)) ;;
  ret (counted progress_callback result).

(** [for future in as_completed(futures): try: future.result() except
    Exception as e: print(...)]. *)
Fixpoint report_failures_on (out : console) (rs : list (result bool)) : M unit :=
  match rs with
  | [] => ret tt
  | Ok _ :: r => report_failures_on out r
  | Raise e :: r => print_on out (LogTaskException e) ;; report_failures_on out r
  end.

(** The default of [max_workers] (lines 139-141). *)
Definition default_workers (h : host) (max_workers : option Z) : M Z :=
  match max_workers with
  | Some n => ret n
  | None =>
      match cpu_count h with
      | Some logical_cores => ret (Z.max 1 (logical_cores - 1))
      | None => raise TypeError
      end
  end.

(** [process_folders_parallel(input_dirs, output_dir, progress_callback,
    max_workers)]. *)
Definition process_folders_parallel_on (out : console) (h : host)
    (input_dirs : list pystr) (output_dir : pystr)
    (progress_callback : option pyfun) (max_workers : option Z) : M (Z * Z) :=
  ex <- exists_ output_dir ;;
  (if ex then ret tt else makedirs output_dir false) ;;
  fs <- get_fs ;;
  let all_video_files := flat_map (find_video_files fs) input_dirs in
  let total := Z.of_nat (length all_video_files) in
  if (total =? 0)%Z then
    print_on out LogNothingFound ;;
    ret (0, 0)%Z
  else
    max_workers <- default_workers h max_workers ;;
    (fun w => (Ok tt, set_counters 0 0 w)) ;;
    futures <- thread_pool h max_workers
                 (task_wrapper_on out h output_dir progress_callback)
                 all_video_files ;;
    report_failures_on out (map snd futures) ;;
    success <- (fun w => (Ok (w_success w), w)) ;;
    ret (total, success).

(** The functions of the script on a console that takes every line. *)
Definition demux_transcode
  : host -> pystr -> pystr -> pystr -> option pyfun -> M bool :=
  demux_transcode_on terminal.

Definition demux_failed : pystr -> option pyfun -> exn -> M bool :=
  demux_failed_on terminal.

Definition remove_temp : pystr -> M unit := remove_temp_on terminal.

Definition convert_via_temp
  : host -> pystr -> pystr -> pystr -> option pyfun -> M bool :=
  convert_via_temp_on terminal.

Definition process_body : host -> pystr -> pystr -> option pyfun -> M bool :=
  process_body_on terminal.

Definition process_single_file
  : host -> pystr -> pystr -> option pyfun -> M bool :=
  process_single_file_on terminal.

Definition task_wrapper
  : host -> pystr -> option pyfun -> pystr -> M (M bool) :=
  task_wrapper_on terminal.

Definition report_failures : list (result bool) -> M unit :=
  report_failures_on terminal.

Definition process_folders_parallel
  : host -> list pystr -> pystr -> option pyfun -> option Z -> M (Z * Z) :=
  process_folders_parallel_on terminal.

(** [ProgressWindow]: the counters behind the labels (the Tk widgets, the
    percentage and the speed, floating-point values, are left out). *)
Record ProgressWindow := {
  total : Z;
  completed : Z;
  success : Z;
  running : bool
}.

(** [ProgressWindow(total_tasks)], for the first window of the process. *)
Definition new_window (total_tasks : Z) : ProgressWindow :=
  {| total := total_tasks; completed := 0; success := 0; running := true |}.

(** [update(success_flag=None)] (lines 242-268): [None] only refreshes. The
    second component tells whether the call raised: the percentage divides by
    [total], after the counters are increased. *)
Definition update (self : ProgressWindow) (success_flag : option bool)
  : ProgressWindow * bool :=
  if negb (running self) then (self, false)
  else
    let success' :=
      match success_flag with
      | Some true => (success self + 1)%Z
      | _ => success self
      end in
    let completed' :=
      match success_flag with
      | Some _ => (completed self + 1)%Z
      | None => completed self
      end in
    if (total self =? 0)%Z then
      ({| total := total self; completed := completed'; success := success';
          running := true |}, true)
    else
      ({| total := total self; completed := completed'; success := success';
          running := if (total self <=? completed')%Z then false else true |},
       false).

(** The window after the events of a batch, with the callback that [main]
    passes (line 359): [lambda _: progress_window.update()]. *)
Definition window_after_main (events : list (option bool))
    (self : ProgressWindow) : ProgressWindow :=
  fold_left (fun win _ => fst (update win None)) events self.

(** The window after the events of a batch, had [progress_window.update]
    been passed itself. *)
Definition window_after (events : list (option bool)) (self : ProgressWindow)
  : ProgressWindow :=
  fold_left (fun win e => fst (update win e)) events self.

(** The pool size [main] asks for (lines 352-354):
    [psutil.cpu_count(logical=True) - 1] on Windows, the default elsewhere. *)
Definition main_max_workers (windows : bool) (h : host) : result (option Z) :=
  if windows then
    match cpu_count h with
    | Some n => Ok (Some (n - 1)%Z)
    | None => Raise TypeError
    end
  else Ok None.

End Mp4.

(** ** Vocabulary of the statements *)

(** A console that takes every line. *)
Definition accepting (out : console) : Prop :=
  forall history ev, out history ev = None.

(** A callback that returns on every call. *)
Definition quiet (f : callback) : Prop := forall history arg, f history arg = None.

(** A callable that returns on every call and at most records its argument:
    [calm true g] records it, [calm false g] leaves the world as it is. *)
Definition calm (recorded : bool) (g : pyfun) : Prop :=
  forall arg w, g arg w = (Ok tt, if recorded then add_cb arg w else w).

Definition calm_opt (recorded : bool) (cb : option pyfun) : Prop :=
  match cb with
  | Some g => calm recorded g
  | None => recorded = false
  end.

(** The callback record and the counters are as they were. *)
Definition same_obs (w w' : world) : Prop :=
  w_cb w' = w_cb w /\ w_success w' = w_success w /\
  w_processed w' = w_processed w.

Definition same_counters (w w' : world) : Prop :=
  w_success w' = w_success w /\ w_processed w' = w_processed w.

(** Between [w] and [w'] the callback received [flag], once, and nothing
    else. *)
Definition emits (recorded : bool) (w w' : world) (flag : bool) : Prop :=
  w_cb w' = (if recorded then w_cb w ++ [Some flag] else w_cb w) /\
  same_counters w w'.

(** A computation that reports its own result to the callback when it
    returns, and has reported nothing when it raises. *)
Definition once (recorded : bool) (c : M bool) : Prop :=
  forall w,
    match c w with
    | (Ok b, w') => emits recorded w w' b
    | (Raise _, w') => same_obs w w'
    end.

(** A computation that always returns, having reported its result. *)
Definition total_once (recorded : bool) (c : M bool) : Prop :=
  forall w, exists b w', c w = (Ok b, w') /\ emits recorded w w' b.

(** The handler of a unit prints the line [ev] and calls the callback with
    [False], both outside any [try]. In the world [w] one of the two raises
    [e]: the console refuses the line, or it takes it and the callback
    raises. *)
Definition handler_raises (out : console) (cb : option callback) (ev : event)
    (w : world) (e : exn) : Prop :=
  out (w_log w) ev = Some e \/
  (out (w_log w) ev = None /\
   exists f, cb = Some f /\ f (w_cb w) (Some false) = Some e).

(** A computation whose result, when it returns, is the last flag it passed
    to the callback, and the only one when the result is [True]; the
    callback record only grows. *)
Definition reports (c : M bool) : Prop :=
  forall w,
    match c w with
    | (Ok b, w') =>
        exists earlier,
          w_cb w' = w_cb w ++ earlier ++ [Some b] /\ (b = true -> earlier = [])
    | (Raise _, w') => exists events, w_cb w' = w_cb w ++ events
    end.

(** The runs of a pool of [workers] threads, whatever the host picks. Any of
    the first [workers] tasks that are not over takes the next step: a task
    that was not started makes its first step, which leaves it held or, if
    the step raises, over with that exception; a task that is held makes its
    second step and is over with what the step leaves. The futures are
    listed in the order in which the tasks are over. *)
Inductive executes (workers : nat) (task : pystr -> M (M bool))
  : list slot -> world -> list (pystr * result bool) -> world -> Prop :=
| ex_done w : executes workers task [] w [] w
| ex_start before u after w rest w1 rs w' :
    length before < workers ->
    task u w = (Ok rest, w1) ->
    executes workers task (before ++ Held u rest :: after) w1 rs w' ->
    executes workers task (before ++ Queued u :: after) w rs w'
| ex_refused before u after w e w1 rs w' :
    length before < workers ->
    task u w = (Raise e, w1) ->
    executes workers task (before ++ after) w1 rs w' ->
    executes workers task (before ++ Queued u :: after) w ((u, Raise e) :: rs) w'
| ex_finish before u rest after w r w1 rs w' :
    length before < workers ->
    rest w = (r, w1) ->
    executes workers task (before ++ after) w1 rs w' ->
    executes workers task (before ++ Held u rest :: after) w ((u, r) :: rs) w'.

(** The steps the tasks in [slots] have still to take, at most. *)
Definition steps_left (slots : list slot) : nat :=
  list_sum (map (fun s => match s with Queued _ => 2 | Held _ _ => 1 end) slots).

(** The flags among the events a callback received. *)
Definition flags_of (events : list (option bool)) : list bool :=
  flat_map (fun e => match e with Some b => [b] | None => [] end) events.

(** Every [None] of [events] answers a flag that came before it and was not
    answered yet; no more than [limit] flags wait for their answer at any
    time ([pending] of them at the start), and none at the end. *)
Fixpoint paired (limit pending : nat) (events : list (option bool)) : bool :=
  match events with
  | [] => Nat.eqb pending 0
  | Some _ :: r => Nat.ltb pending limit && paired limit (S pending) r
  | None :: r =>
      match pending with
      | O => false
      | S p => paired limit p r
      end
  end.

(** The number of [True] in a list of outcomes. *)
Fixpoint count_true (l : list bool) : Z :=
  match l with
  | [] => 0
  | b :: r => (if b then 1 else 0) + count_true r
  end%Z.

(** What the [try] block of [extract_title_name] computes for the descriptor
    at [json_path], and what the function returns. *)
Definition title_load (fs : node) (json_path : pystr) : result pystr :=
  match fs_load_json fs json_path with
  | Ok data => Bili.title_of data
  | Raise e => Raise e
  end.

Definition title_read (fs : node) (json_path : pystr) : option pystr :=
  match title_load fs json_path with
  | Ok part_name => Some part_name
  | Raise _ => None
  end.

(** The two [lru_cache] tables hold what the functions compute on the
    present file system. *)
Definition caches_agree (w : world) : Prop :=
  (forall p v, assoc p (w_titles w) = Some v -> v = title_read (w_fs w) p) /\
  (forall d v, assoc d (w_audios w) = Some v ->
               v = Bili.find_audio_file (w_fs w) d).

(** A name without separator. *)
Definition plain_name (name : pystr) : bool :=
  forallb (fun c => negb (N.eqb c sep)) name.

(** [p] names something of positive size. *)
Definition present_nonempty (fs : node) (p : pystr) : Prop :=
  path_exists fs p = true /\
  exists size, getsize fs p = Ok size /\ (0 < size)%N.

(** ** Sample inputs *)

Definition plain_file (size : N) : node :=
  File {| f_size := size; f_json := None; f_locked := false |}.

Definition locked_file (size : N) : node :=
  File {| f_size := size; f_json := None; f_locked := true |}.

Definition descriptor (data : json) : node :=
  File {| f_size := 64; f_json := Some data; f_locked := false |}.

Definition fresh_world (fs : node) : world :=
  {| w_fs := fs; w_log := []; w_enc := []; w_cb := [];
     w_titles := []; w_audios := []; w_success := 0; w_processed := 0 |}.

(** An encoder that succeeds and one that fails, both leaving the files as
    they are; machines with [cores] processors whose pool completes the tasks
    in the order of submission. *)
Definition encoder_ok : list (list pystr) -> list pystr -> node
                        -> node * result (Z * pystr) :=
  fun _ _ fs => (fs, Ok (0%Z, [])).

Definition encoder_fails : list (list pystr) -> list pystr -> node
                           -> node * result (Z * pystr) :=
  fun _ _ fs => (fs, Ok (1%Z, py "Invalid data found")).

Definition encoder_missing : list (list pystr) -> list pystr -> node
                             -> node * result (Z * pystr) :=
  fun _ _ fs => (fs, Raise FileNotFoundError).

Definition machine (enc : list (list pystr) -> list pystr -> node
                          -> node * result (Z * pystr))
    (cores : Z) : host :=
  {| ffmpeg := enc; cpu_count := Some cores; pick := fun _ => O |}.

(** A machine whose pool starts the second task before the first has taken
    the lock. *)
Definition eager_machine (enc : list (list pystr) -> list pystr -> node
                                -> node * result (Z * pystr))
    (cores : Z) : host :=
  {| ffmpeg := enc; cpu_count := Some cores;
     pick := fun k => match k with 1 => 1 | _ => 0 end |}.

Definition cb_quiet : callback := fun _ _ => None.

Definition cb_raising : callback := fun _ _ => Some (OtherError 1).

Definition cb_raising_on_true : callback :=
  fun _ arg =>
    match arg with
    | Some true => Some (OtherError 1)
    | _ => None
    end.

(** The paths and texts a line shows, besides the fixed words of its
    message; the two messages that have no argument are in Chinese, and begin
    with U+6CA1 and U+5904. *)
Definition shown (ev : event) : list pystr :=
  match ev with
  | LogReadError json_path _ => [json_path]
  | LogAudioNotFound json_dir => [json_dir]
  | LogProcessing path => [path]
  | LogInvalidName path => [path]
  | LogSkip final_mp3 => [final_mp3]
  | LogExtracting path => [path]
  | LogConverting path => [path]
  | LogConverted src dst => [src; dst]
  | LogEncoderError path stderr => [path; stderr]
  | LogError path _ => [path]
  | LogRemoveFailed temp _ => [temp]
  | LogUnexpected path _ => [path]
  | LogNothingFound => [[27809%N]]
  | LogTaskException _ => [[22788%N]]
  end.

(** A console whose encoding is ASCII: [print] raises [UnicodeEncodeError],
    a [ValueError], on a line with any other character. *)
Definition ascii_console : console :=
  fun _ ev =>
    if forallb (forallb (fun c => (c <? 128)%N)) (shown ev) then None
    else Some ValueError.

(** [/in/d] holds a descriptor, a video and, one level down, [audio.m4a];
    [/in/clip.mp4] is a video; [/out] is empty. *)
Definition sample_in : node :=
  Dir [(py "d",
        Dir [(py "entry.json",
              descriptor (JObj [(py "title", JStr (py "Ep 1: Intro?"))]));
             (py "song.mp4", plain_file 5);
             (py "sub", Dir [(py "audio.m4a", plain_file 7)])]);
       (py "clip.mp4", plain_file 9)].

Definition sample_fs : node :=
  Dir [(py "in", sample_in); (py "out", Dir [])].

(** The same inputs, both destinations already written. *)
Definition converted_fs : node :=
  Dir [(py "in", sample_in);
       (py "out", Dir [(py "Ep 1 Intro.mp3", plain_file 100);
                       (py "clip.mp3", plain_file 100);
                       (py "song.mp3", plain_file 100)])].

(** A descriptor with a title and a written destination, but no audio file
    anywhere near. *)
Definition no_audio_fs : node :=
  Dir [(py "in",
        Dir [(py "d",
              Dir [(py "entry.json",
                    descriptor (JObj [(py "title", JStr (py "Ep 1"))]))])]);
       (py "out", Dir [(py "Ep 1.mp3", plain_file 100)])].

(** A descriptor whose object has no title, next to its audio file. *)
Definition untitled_fs : node :=
  Dir [(py "in",
        Dir [(py "d",
              Dir [(py "entry.json", descriptor (JObj [(py "part", JStr (py "x"))]));
                   (py "audio.m4s", plain_file 7)])]);
       (py "out", Dir [])].

(** A descriptor that is no JSON text. *)
Definition broken_fs : node :=
  Dir [(py "in",
        Dir [(py "d",
              Dir [(py "entry.json", plain_file 3);
                   (py "audio.m4s", plain_file 7)])]);
       (py "out", Dir [])].

(** One video; the temporary file of its conversion is there and cannot be
    deleted. *)
Definition stuck_temp_fs : node :=
  Dir [(py "in", Dir [(py "clip.mp4", plain_file 9)]);
       (py "out", Dir [(py "clip_temp.aac", locked_file 4)])].

(** A file where the output directory should be. *)
Definition blocked_fs : node :=
  Dir [(py "in", sample_in); (py "out", plain_file 1)].

(** A video and a descriptor whose paths have an accented letter (U+00E9). *)
Definition accent_video : pystr := py "/in/" ++ [233%N] ++ py ".mp4".

Definition accent_descriptor : pystr := py "/in/" ++ [233%N] ++ py "/entry.json".

Definition accent_fs : node :=
  Dir [(py "in",
        Dir [([233%N] ++ py ".mp4", plain_file 9);
             ([233%N],
              Dir [(py "entry.json",
                    descriptor (JObj [(py "title", JStr (py "Ep 1"))]));
                   (py "audio.m4a", plain_file 7)])]);
       (py "out", Dir [])].

(** [if not os.path.exists(output_dir): os.makedirs(output_dir)], on the
    file system. *)
Definition ensure_dir (fs : node) (output_dir : pystr) : result node :=
  if path_exists fs output_dir then Ok fs else fs_makedirs fs output_dir false.

(** A video whose name is not empty and whose destination is written. *)
Definition mp4_done (fs : node) (output_dir video_path : pystr) : Prop :=
  is_empty (Mp4.get_video_name video_path) = false /\
  present_nonempty fs
    (path_join output_dir (Mp4.get_video_name video_path ++ py ".mp3")).

(** A descriptor with a plain title that is not empty, whose audio file is
    found and whose destination is written. *)
Definition bili_done (fs : node) (output_dir json_path : pystr) : Prop :=
  exists part_name audio_path,
    title_read fs json_path = Some part_name /\
    is_empty part_name = false /\
    plain_name part_name = true /\
    Bili.find_audio_file fs (dirname json_path) = Some audio_path /\
    is_empty audio_path = false /\
    present_nonempty fs (path_join output_dir (part_name ++ py ".mp3")).

(** [R] relates every world to the world a computation leaves. *)
Definition preserves (R : world -> world -> Prop) {A : Type} (c : M A) : Prop :=
  forall w, R w (snd (c w)).

Definition supplied (cb : option callback) : bool :=
  match cb with Some _ => true | None => false end.

(** What the callback record gains from the call of [process_single_file]
    for one unit. *)
Definition bili_events (recorded : bool) (b : bool) : list (option bool) :=
  if recorded then [Some b] else [].

(** The world after a unit that was skipped. *)
Definition skipped (r : bool) (final_mp3 : pystr) (w : world) : world :=
  if r then add_cb (Some true) (add_log (LogSkip final_mp3) w)
  else add_log (LogSkip final_mp3) w.


(** A descriptor whose title is made of reserved characters only, next to its
    audio file. *)
Definition reserved_title_fs : node :=
  Dir [(py "in",
        Dir [(py "d",
              Dir [(py "entry.json",
                    descriptor (JObj [(py "title", JStr (py "??"))]));
                   (py "audio.m4a", plain_file 7)])]);
       (py "out", Dir [])].

(** [os.path.exists(p) and os.path.getsize(p) > 0], on the file system. *)
Definition written (fs : node) (p : pystr) : bool :=
  path_exists fs p &&
  match getsize fs p with
  | Ok size => (0 <? size)%N
  | Raise _ => false
  end.

(** A callback that raises [e] on every call. *)
Definition always_raises (e : exn) (f : callback) : Prop :=
  forall history arg, f history arg = Some e.

(** A computation that does not return. *)
Definition never_returns {A : Type} (c : M A) : Prop :=
  forall w a, fst (c w) <> Ok a.

(** [ZeroDivisionError], among the other errors. *)
Definition ZeroDivisionError : exn := OtherError 0.

(** [progress_window.update] as [main] of [biliAudioToMp3_.py] passes it to
    the batch: the window is the one the earlier events have left. *)
Definition bili_window_callback (total_tasks : Z) : callback :=
  fun history arg =>
    if snd (Bili.update (Bili.window_after history (Bili.new_window total_tasks))
                        arg)
    then Some ZeroDivisionError else None.

(** [lambda _: progress_window.update()] as [main] of [mp4Tomp3.py] passes
    it. *)
Definition mp4_window_callback (total_tasks : Z) : callback :=
  fun history _ =>
    if snd (Mp4.update
              (Mp4.window_after_main history (Mp4.new_window total_tasks)) None)
    then Some ZeroDivisionError else None.

(** The number of [True] among the first [n] events. *)
Fixpoint count_flags (n : nat) (events : list (option bool)) : Z :=
  match n, events with
  | S n', Some true :: r => (1 + count_flags n' r)%Z
  | S n', _ :: r => count_flags n' r
  | _, _ => 0%Z
  end.

(** The names in [ks] lead down from [top], each one kept by the filter of
    the walk at the directory it is in. *)
Fixpoint descends (keep : pystr -> pystr -> bool) (top : pystr)
    (ks : list pystr) : Prop :=
  match ks with
  | [] => True
  | k :: ks' => keep top k = true /\ descends keep (path_join top k) ks'
  end.

(** The names [ks] lead from the directory [n] down to the node [last]: each
    is the name of an entry, itself a directory, of the directory before. *)
Fixpoint leads (n : node) (ks : list pystr) (last : node) : Prop :=
  match ks with
  | [] => last = n
  | k :: ks' =>
      exists es ch,
        n = Dir es /\ In (k, ch) es /\ is_dir ch = true /\ leads ch ks' last
  end.

(** The name of a directory entry: not empty, no separator in it. *)
Definition entry_name (k : pystr) : Prop :=
  is_empty k = false /\ plain_name k = true.

(** An audio file three directories down: [/a/b/c/x.m4a]. *)
Definition deep_fs : node :=
  Dir [(py "a", Dir [(py "b", Dir [(py "c", Dir [(py "x.m4a", plain_file 7)])])])].

(** The same tree one level lower: [/top/a/b/c/x.m4a]. *)
Definition deeper_fs : node := Dir [(py "top", deep_fs)].

(** A descriptor and a video in a hidden directory, and the same in a
    directory whose name only contains a dot. *)
Definition hidden_fs : node :=
  Dir [(py "in",
        Dir [(py ".git",
              Dir [(py "entry.json", descriptor (JObj [])); (py "a.mp4", plain_file 1)]);
             (py "v.1",
              Dir [(py "entry.json", descriptor (JObj [])); (py "b.MP4", plain_file 1)])])].

(** An absolute path in normal form: it starts at the root and none of its
    components is [.] or [..]. These are the paths the file system above
    resolves as the system does; the directory dialogs of the scripts return
    such paths. *)
Definition normal_path (p : pystr) : bool :=
  startswith p [sep]
  && forallb (fun c => negb (str_in c [py "."; py ".."])) (components p).
(** * Properties *)

(** ** Strings and paths *)

Lemma str_eqb_eq (a b : pystr) : str_eqb a b = true <-> a = b.
Proof.
  revert b; induction a as [|x a IH]; intros [|y b]; simpl; split;
    try congruence; try reflexivity.
  - intros H. apply andb_true_iff in H as [H1 H2].
    apply N.eqb_eq in H1. apply IH in H2. congruence.
  - intros H. injection H as -> ->. rewrite N.eqb_refl. simpl.
    apply IH. reflexivity.
Qed.

Lemma str_eqb_refl (a : pystr) : str_eqb a a = true.
Proof. apply str_eqb_eq. reflexivity. Qed.

Lemma split_sep_nonnil (s : pystr) : split_sep s <> [].
Proof.
  destruct s as [|c r]; simpl; [discriminate|].
  destruct (N.eqb c sep); [discriminate|].
  destruct (split_sep r); discriminate.
Qed.

Lemma split_sep_app (a b : pystr) :
  split_sep (a ++ sep :: b) = split_sep a ++ split_sep b.
Proof.
  induction a as [|c a IH]; simpl.
  - reflexivity.
  - destruct (N.eqb c sep) eqn:E.
    + simpl. now rewrite IH.
    + rewrite IH. destruct (split_sep a) as [|h t] eqn:Ea.
      * now apply split_sep_nonnil in Ea.
      * reflexivity.
Qed.

Lemma components_app_sep (a b : pystr) :
  components (a ++ sep :: b) = components a ++ components b.
Proof. unfold components. now rewrite split_sep_app, filter_app. Qed.

Lemma components_trailing_sep (a : pystr) :
  components (a ++ [sep]) = components a.
Proof.
  rewrite components_app_sep. unfold components at 2. simpl.
  apply app_nil_r.
Qed.

Lemma split_sep_no_sep (s : pystr) :
  forallb (fun c => negb (N.eqb c sep)) s = true -> split_sep s = [s].
Proof.
  induction s as [|c s IH]; simpl; [reflexivity|].
  intros H. apply andb_true_iff in H as [H1 H2].
  apply negb_true_iff in H1. rewrite H1, (IH H2). reflexivity.
Qed.

Lemma endswith_sep_inv (a : pystr) :
  endswith a [sep] = true -> exists a', a = a' ++ [sep].
Proof.
  unfold endswith. simpl. destruct (rev a) as [|d r] eqn:E; simpl;
    [discriminate|].
  replace (startswith r []) with true by (destruct r; reflexivity).
  rewrite andb_true_r. intros H. apply N.eqb_eq in H. subst d.
  exists (rev r). rewrite <- (rev_involutive a), E. reflexivity.
Qed.

(** The components of a joined path, when the second part is one plain
    name. *)
Lemma components_join (a name : pystr) :
  name <> [] ->
  forallb (fun c => negb (N.eqb c sep)) name = true ->
  components (path_join a name) = components a ++ [name].
Proof.
  intros Hne Hs. unfold path_join.
  assert (Hc : components name = [name]).
  { unfold components. rewrite (split_sep_no_sep _ Hs). simpl.
    destruct name; [congruence | reflexivity]. }
  destruct name as [|c name]; [congruence|].
  simpl in Hs. apply andb_true_iff in Hs as [Hc1 Hs].
  apply negb_true_iff in Hc1.
  simpl startswith. rewrite Hc1. simpl.
  destruct a as [|x a]; simpl is_empty; simpl orb.
  - simpl. exact Hc.
  - destruct (endswith (x :: a) [sep]) eqn:E.
    + apply endswith_sep_inv in E as [a' E]. rewrite E.
      rewrite <- app_assoc. simpl.
      rewrite components_app_sep, components_trailing_sep, Hc. reflexivity.
    + change ((x :: a) ++ [sep] ++ c :: name) with ((x :: a) ++ sep :: c :: name).
      rewrite components_app_sep, Hc. reflexivity.
Qed.

(** ** The cleaning of names *)

Lemma truncate_length (s : pystr) : length (truncate s) <= 150.
Proof.
  unfold truncate. destruct (Nat.ltb 150 (length s)) eqn:E.
  - rewrite length_firstn. lia.
  - apply Nat.ltb_ge in E. exact E.
Qed.

Lemma truncate_short (s : pystr) : length s <= 150 -> truncate s = s.
Proof.
  intros H. unfold truncate.
  destruct (Nat.ltb 150 (length s)) eqn:E; [|reflexivity].
  apply Nat.ltb_lt in E. lia.
Qed.

Lemma truncate_In (s : pystr) (c : N) : In c (truncate s) -> In c s.
Proof.
  unfold truncate. destruct (Nat.ltb 150 (length s)); [|tauto].
  intros H. rewrite <- (firstn_skipn 150 s). apply in_or_app. now left.
Qed.

Lemma is_invalid_spec (c : N) : is_invalid c = true <-> In c invalid_chars.
Proof.
  unfold is_invalid. rewrite existsb_exists. split.
  - intros [x [Hx E]]. apply N.eqb_eq in E. now subst.
  - intros H. exists c. split; [exact H | apply N.eqb_refl].
Qed.

Lemma filter_all {A : Type} (f : A -> bool) (l : list A) :
  (forall x, In x l -> f x = true) -> filter f l = l.
Proof.
  induction l as [|x l IH]; simpl; intros H; [reflexivity|].
  rewrite (H x (or_introl eq_refl)). f_equal. apply IH.
  intros y Hy. apply H. now right.
Qed.

Lemma sanitize_valid (name : pystr) (c : N) :
  In c (sanitize name) -> is_invalid c = false.
Proof.
  unfold sanitize. intros H. apply truncate_In in H.
  apply filter_In in H as [_ H]. now apply negb_true_iff in H.
Qed.

Lemma sanitize_idem (name : pystr) : sanitize (sanitize name) = sanitize name.
Proof.
  unfold sanitize at 1.
  rewrite filter_all.
  - apply truncate_short, truncate_length.
  - intros c Hc. apply negb_true_iff. eapply sanitize_valid. exact Hc.
Qed.

Lemma str_in_singleton (c : N) :
  str_in [c] (map (fun x => [x]) invalid_chars) = is_invalid c.
Proof.
  unfold str_in, is_invalid.
  induction invalid_chars as [|x l IH]; [reflexivity|].
  cbn [map existsb]. rewrite IH. f_equal.
  cbn [str_eqb]. apply andb_true_r.
Qed.

(** On a string, the join over the characters kept is a filter. *)
Lemma join_valid_chars (s : pystr) :
  Bili.join_valid (map (fun c => JStr [c]) s)
  = Ok (filter (fun c => negb (is_invalid c)) s).
Proof.
  induction s as [|c s IH]; [reflexivity|].
  change (Bili.join_valid (map (fun c => JStr [c]) (c :: s)))
    with (match Bili.join_valid (map (fun c => JStr [c]) s) with
          | Ok t =>
              Ok (if str_in [c] (map (fun x => [x]) invalid_chars)
                  then t else [c] ++ t)
          | Raise e => Raise e
          end).
  rewrite IH, str_in_singleton.
  change (filter (fun c => negb (is_invalid c)) (c :: s))
    with (if negb (is_invalid c)
          then c :: filter (fun c => negb (is_invalid c)) s
          else filter (fun c => negb (is_invalid c)) s).
  destruct (is_invalid c); reflexivity.
Qed.


(** ** Frames: what a computation leaves alone *)

Section Frame.

Variable out : console.
Variable R : world -> world -> Prop.
Hypothesis R_refl : forall w, R w w.
Hypothesis R_trans : forall a b c, R a b -> R b c -> R a c.

Local Abbreviation keeps := (preserves R).

Lemma preserves_ret {A : Type} (a : A) : keeps (ret a).
Proof. intros w. apply R_refl. Qed.

Lemma preserves_raise {A : Type} (e : exn) : keeps (@raise A e).
Proof. intros w. apply R_refl. Qed.

Lemma preserves_lift {A : Type} (r : result A) : keeps (lift r).
Proof. intros w. apply R_refl. Qed.

Lemma preserves_bind {A B : Type} (c : M A) (k : A -> M B) :
  keeps c -> (forall a, keeps (k a)) -> keeps (bind c k).
Proof.
  intros Hc Hk w. unfold bind. specialize (Hc w).
  destruct (c w) as [[a|e] w1]; simpl in *.
  - eapply R_trans; [exact Hc | apply Hk].
  - exact Hc.
Qed.

Lemma preserves_try_except {A : Type} (c : M A) (h : exn -> M A) :
  keeps c -> (forall e, keeps (h e)) -> keeps (try_except c h).
Proof.
  intros Hc Hh w. unfold try_except. specialize (Hc w).
  destruct (c w) as [[a|e] w1]; simpl in *.
  - exact Hc.
  - eapply R_trans; [exact Hc | apply Hh].
Qed.

Lemma preserves_try_finally {A : Type} (c : M A) (f : M unit) :
  keeps c -> keeps f -> keeps (try_finally c f).
Proof.
  intros Hc Hf w. unfold try_finally. specialize (Hc w).
  destruct (c w) as [r w1]. specialize (Hf w1).
  destruct (f w1) as [[u|e] w2]; simpl in *; eapply R_trans; eauto.
Qed.

Lemma preserves_if {A : Type} (b : bool) (c1 c2 : M A) :
  keeps c1 -> keeps c2 -> keeps (if b then c1 else c2).
Proof. destruct b; auto. Qed.

(** The steps of the scripts, for a relation that the console, the file
    system, the encoder's history and the caches do not enter. *)
Hypothesis R_log : forall ev w, R w (add_log ev w).
Hypothesis R_fs : forall fs w, R w (set_fs fs w).
Hypothesis R_enc : forall argv w, R w (add_enc argv w).
Hypothesis R_titles : forall t w, R w (set_titles t w).
Hypothesis R_audios : forall t w, R w (set_audios t w).

Lemma preserves_print (ev : event) : keeps (print_on out ev).
Proof.
  intros w. unfold print_on. destruct (out (w_log w) ev); simpl; auto.
Qed.

Lemma preserves_exists (p : pystr) : keeps (exists_ p).
Proof. intros w. apply R_refl. Qed.

Lemma preserves_getsize (p : pystr) : keeps (getsize_ p).
Proof. intros w. apply R_refl. Qed.

Lemma preserves_get_fs : keeps get_fs.
Proof. intros w. apply R_refl. Qed.

Lemma preserves_makedirs (p : pystr) (ok : bool) : keeps (makedirs p ok).
Proof.
  intros w. unfold makedirs.
  destruct (fs_makedirs (w_fs w) p ok); simpl; auto.
Qed.

Lemma preserves_remove (p : pystr) : keeps (remove p).
Proof.
  intros w. unfold remove. destruct (fs_remove (w_fs w) p); simpl; auto.
Qed.

Lemma preserves_subprocess_run (h : host) (argv : list pystr) :
  keeps (subprocess_run h argv).
Proof.
  intros w. unfold subprocess_run.
  destruct (ffmpeg h (w_enc w) argv (w_fs w)) as [fs' r]. simpl.
  eapply R_trans; [apply R_fs | apply R_enc].
Qed.

Lemma preserves_bili_exists_nonempty (p : pystr) :
  keeps (Bili.exists_nonempty p).
Proof.
  unfold Bili.exists_nonempty. apply preserves_bind.
  - apply preserves_exists.
  - intros [|]; [|apply preserves_ret].
    apply preserves_bind; [apply preserves_getsize|].
    intros; apply preserves_ret.
Qed.

Lemma preserves_mp4_exists_nonempty (p : pystr) :
  keeps (Mp4.exists_nonempty p).
Proof. exact (preserves_bili_exists_nonempty p). Qed.

Lemma preserves_extract_title_name (p : pystr) :
  keeps (Bili.extract_title_name_on out p).
Proof.
  unfold Bili.extract_title_name_on. apply preserves_try_except.
  - apply preserves_bind; [intros w; apply R_refl|].
    intros d. apply preserves_bind; [apply preserves_lift|].
    intros; apply preserves_ret.
  - intros e. apply preserves_bind; [apply preserves_print|].
    intros; apply preserves_ret.
Qed.

Lemma preserves_extract_title_name_cached (p : pystr) :
  keeps (Bili.extract_title_name_cached_on out p).
Proof.
  intros w. unfold Bili.extract_title_name_cached_on.
  destruct (assoc p (w_titles w)); [apply R_refl|].
  pose proof (preserves_extract_title_name p w) as H.
  destruct (Bili.extract_title_name_on out p w) as [[v|e] w1]; simpl in *.
  - eapply R_trans; [exact H | apply R_titles].
  - exact H.
Qed.

Lemma preserves_find_audio_file_cached (d : pystr) :
  keeps (Bili.find_audio_file_cached d).
Proof.
  intros w. unfold Bili.find_audio_file_cached.
  destruct (assoc d (w_audios w)); simpl; auto.
Qed.

Lemma preserves_remove_temp (p : pystr) : keeps (Mp4.remove_temp_on out p).
Proof.
  unfold Mp4.remove_temp_on. apply preserves_bind; [apply preserves_exists|].
  intros [|]; [|apply preserves_ret].
  apply preserves_try_except; [apply preserves_remove|].
  intros e. apply preserves_print.
Qed.

Lemma preserves_notify (cb : option pyfun) (flag : bool) :
  (forall g arg, cb = Some g -> keeps (g arg)) ->
  keeps (notify cb flag).
Proof.
  intros H. destruct cb as [g|]; simpl.
  - apply H. reflexivity.
  - apply preserves_ret.
Qed.

(** A whole unit, for a callback that keeps the relation too. *)
Variable cb : option pyfun.
Hypothesis R_cb : forall g arg, cb = Some g -> keeps (g arg).

Lemma preserves_report (flag : bool) (ev : event) :
  keeps (print_on out ev ;; notify cb flag ;; ret flag).
Proof.
  apply preserves_bind; [apply preserves_print|]. intros _.
  apply preserves_bind; [apply preserves_notify, R_cb|]. intros _.
  apply preserves_ret.
Qed.

Lemma preserves_bili_process_body (h : host) (json_path output_dir : pystr) :
  keeps (Bili.process_body_on out h json_path output_dir cb).
Proof.
  unfold Bili.process_body_on.
  apply preserves_bind; [apply preserves_extract_title_name_cached|].
  intros [[|c s]|];
    try (apply preserves_bind; [apply preserves_notify, R_cb|];
         intros _; apply preserves_ret).
  apply preserves_bind; [apply preserves_find_audio_file_cached|].
  intros [[|a p]|]; try apply preserves_report.
  apply preserves_bind; [apply preserves_makedirs|]. intros _.
  apply preserves_bind; [apply preserves_bili_exists_nonempty|].
  intros [|]; [apply preserves_report|].
  apply preserves_bind; [apply preserves_subprocess_run|]. intros r.
  apply preserves_if; apply preserves_report.
Qed.

Lemma preserves_bili_process_single_file (h : host)
    (json_path output_dir : pystr) :
  keeps (Bili.process_single_file_on out h json_path output_dir cb).
Proof.
  unfold Bili.process_single_file_on. apply preserves_try_except.
  - apply preserves_bili_process_body.
  - intros e. apply preserves_report.
Qed.

Lemma preserves_demux_transcode (h : host) (video_path final temp : pystr) :
  keeps (Mp4.demux_transcode_on out h video_path final temp cb).
Proof.
  unfold Mp4.demux_transcode_on.
  apply preserves_bind; [apply preserves_print|]. intros _.
  apply preserves_bind; [apply preserves_subprocess_run|]. intros r1.
  apply preserves_bind;
    [apply preserves_if; [apply preserves_raise | apply preserves_ret]|].
  intros _.
  apply preserves_bind; [apply preserves_print|]. intros _.
  apply preserves_bind; [apply preserves_subprocess_run|]. intros r2.
  apply preserves_bind;
    [apply preserves_if; [apply preserves_raise | apply preserves_ret]|].
  intros _. apply preserves_report.
Qed.

Lemma preserves_convert_via_temp (h : host) (video_path final temp : pystr) :
  keeps (Mp4.convert_via_temp_on out h video_path final temp cb).
Proof.
  unfold Mp4.convert_via_temp_on. apply preserves_try_finally.
  - apply preserves_try_except; [apply preserves_demux_transcode|].
    intros e. apply preserves_report.
  - apply preserves_remove_temp.
Qed.

Lemma preserves_mp4_process_body (h : host) (video_path output_dir : pystr) :
  keeps (Mp4.process_body_on out h video_path output_dir cb).
Proof.
  unfold Mp4.process_body_on.
  apply preserves_bind; [apply preserves_print|]. intros _.
  apply preserves_if; [apply preserves_report|].
  apply preserves_bind; [apply preserves_makedirs|]. intros _.
  apply preserves_bind; [apply preserves_mp4_exists_nonempty|].
  intros [|]; [apply preserves_report | apply preserves_convert_via_temp].
Qed.

Lemma preserves_mp4_process_single_file (h : host)
    (video_path output_dir : pystr) :
  keeps (Mp4.process_single_file_on out h video_path output_dir cb).
Proof.
  unfold Mp4.process_single_file_on. apply preserves_try_except.
  - apply preserves_mp4_process_body.
  - intros e. apply preserves_report.
Qed.

End Frame.

(** ** One report per unit *)

Lemma same_obs_refl (w : world) : same_obs w w.
Proof. repeat split. Qed.

Lemma same_obs_trans (a b c : world) :
  same_obs a b -> same_obs b c -> same_obs a c.
Proof. unfold same_obs. intuition congruence. Qed.

Lemma same_obs_log ev w : same_obs w (add_log ev w).
Proof. repeat split. Qed.

Lemma same_obs_fs fs w : same_obs w (set_fs fs w).
Proof. repeat split. Qed.

Lemma same_obs_enc argv w : same_obs w (add_enc argv w).
Proof. repeat split. Qed.

Lemma same_obs_titles t w : same_obs w (set_titles t w).
Proof. repeat split. Qed.

Lemma same_obs_audios t w : same_obs w (set_audios t w).
Proof. repeat split. Qed.

Ltac obs_side :=
  first [ exact same_obs_refl | exact same_obs_trans | exact same_obs_log
        | exact same_obs_fs | exact same_obs_enc | exact same_obs_titles
        | exact same_obs_audios ].

(** The steps that leave the callback record and the counters alone. *)
Ltac obs_frame :=
  lazymatch goal with
  | |- preserves _ (bind _ _) =>
      apply preserves_bind; [obs_side | obs_frame | intro; obs_frame]
  | |- preserves _ (if _ then _ else _) => apply preserves_if; obs_frame
  | |- preserves _ (ret _) => apply preserves_ret; obs_side
  | |- preserves _ (raise _) => apply preserves_raise; obs_side
  | |- preserves _ (lift _) => apply preserves_lift; obs_side
  | |- preserves _ (print_on _ _) => apply preserves_print; obs_side
  | |- preserves _ (makedirs _ _) => apply preserves_makedirs; obs_side
  | |- preserves _ (subprocess_run _ _) =>
      apply preserves_subprocess_run; obs_side
  | |- preserves _ (Bili.exists_nonempty _) =>
      apply preserves_bili_exists_nonempty; obs_side
  | |- preserves _ (Mp4.exists_nonempty _) =>
      apply preserves_mp4_exists_nonempty; obs_side
  | |- preserves _ (Bili.extract_title_name_cached_on _ _) =>
      apply preserves_extract_title_name_cached; obs_side
  | |- preserves _ (Bili.find_audio_file_cached _) =>
      apply preserves_find_audio_file_cached; obs_side
  | |- preserves _ (Mp4.remove_temp_on _ _) =>
      apply preserves_remove_temp; obs_side
  end.

Lemma emits_after (r : bool) (w w1 w2 : world) (b : bool) :
  same_obs w w1 -> emits r w1 w2 b -> emits r w w2 b.
Proof.
  unfold same_obs, emits, same_counters.
  intros (E1 & E2 & E3) (F1 & F2 & F3). rewrite F1, E1. intuition congruence.
Qed.

Lemma emits_before (r : bool) (w w1 w2 : world) (b : bool) :
  emits r w w1 b -> same_obs w1 w2 -> emits r w w2 b.
Proof.
  unfold same_obs, emits, same_counters.
  intros (F1 & F2 & F3) (E1 & E2 & E3). rewrite E1, F1. intuition congruence.
Qed.

Lemma notify_calm (r : bool) (cb : option pyfun) (flag : bool) (w : world) :
  calm_opt r cb ->
  notify cb flag w = (Ok tt, if r then add_cb (Some flag) w else w).
Proof.
  destruct cb as [g|]; simpl; intros H.
  - apply H.
  - subst r. reflexivity.
Qed.

Lemma terminal_accepting : accepting terminal.
Proof. intros history ev. reflexivity. Qed.

Lemma print_accepted (out : console) (ev : event) (w : world) :
  accepting out -> print_on out ev w = (Ok tt, add_log ev w).
Proof. intros H. unfold print_on. now rewrite H. Qed.

(** [print(...); if progress_callback: progress_callback(flag); return flag] *)
Lemma report_total (out : console) (r : bool) (cb : option pyfun) (flag : bool)
    (ev : event) :
  accepting out -> calm_opt r cb ->
  total_once r (print_on out ev ;; notify cb flag ;; ret flag).
Proof.
  intros Ho H w. unfold bind, ret. rewrite (print_accepted ev w Ho).
  rewrite (@notify_calm r cb flag (add_log ev w) H).
  eexists _, _. split; [reflexivity|].
  destruct r; repeat split.
Qed.

Lemma total_once_once (r : bool) (c : M bool) : total_once r c -> once r c.
Proof. intros H w. destruct (H w) as (b & w' & E & He). now rewrite E. Qed.

Lemma once_bind {A : Type} (r : bool) (c : M A) (k : A -> M bool) :
  preserves same_obs c -> (forall a, once r (k a)) -> once r (bind c k).
Proof.
  intros Hc Hk w. unfold bind. specialize (Hc w).
  destruct (c w) as [[a|e] w1]; simpl in Hc; [|exact Hc].
  specialize (Hk a w1). destruct (k a w1) as [[b|e] w2].
  - eapply emits_after; eassumption.
  - eapply same_obs_trans; eassumption.
Qed.

Lemma once_if (r b : bool) (c1 c2 : M bool) :
  once r c1 -> once r c2 -> once r (if b then c1 else c2).
Proof. destruct b; auto. Qed.

Lemma total_try_except (r : bool) (c : M bool) (h : exn -> M bool) :
  once r c -> (forall e, total_once r (h e)) -> total_once r (try_except c h).
Proof.
  intros Hc Hh w. unfold try_except. specialize (Hc w).
  destruct (c w) as [[b|e] w1].
  - eauto.
  - destruct (Hh e w1) as (b & w2 & E & He). rewrite E.
    eexists _, _. split; [reflexivity|]. eapply emits_after; eassumption.
Qed.

Lemma total_try_finally (r : bool) (c : M bool) (f : M unit) :
  total_once r c -> preserves same_obs f ->
  (forall w, exists w', f w = (Ok tt, w')) ->
  total_once r (try_finally c f).
Proof.
  intros Hc Hf Ht w. unfold try_finally.
  destruct (Hc w) as (b & w1 & E & He). rewrite E.
  specialize (Hf w1). destruct (Ht w1) as (w2 & E2). rewrite E2 in *.
  eexists _, _. split; [reflexivity|]. eapply emits_before; eassumption.
Qed.

Section Units.

Variable out : console.
Hypothesis out_ok : accepting out.
Variable r : bool.
Variable cb : option pyfun.
Hypothesis cb_calm : calm_opt r cb.

Lemma report_once (flag : bool) (ev : event) :
  once r (print_on out ev ;; notify cb flag ;; ret flag).
Proof. apply total_once_once, report_total; [exact out_ok | exact cb_calm]. Qed.

Lemma notify_once (flag : bool) : once r (notify cb flag ;; ret flag).
Proof.
  intros w. unfold bind, ret. rewrite (@notify_calm r cb flag w cb_calm).
  destruct r; repeat split.
Qed.

Lemma bili_body_once (h : host) (json_path output_dir : pystr) :
  once r (Bili.process_body_on out h json_path output_dir cb).
Proof.
  unfold Bili.process_body_on.
  apply once_bind; [obs_frame|].
  intros [[|c s]|]; try apply notify_once.
  apply once_bind; [obs_frame|].
  intros [[|a p]|]; try apply report_once.
  apply once_bind; [obs_frame|]. intros _.
  apply once_bind; [obs_frame|].
  intros [|]; [apply report_once|].
  apply once_bind; [obs_frame|]. intros res.
  apply once_if; apply report_once.
Qed.

(** With a callback that returns, [process_single_file] returns, and has
    passed the callback the flag it returns, once. *)
Lemma bili_unit_total (h : host) (json_path output_dir : pystr) :
  total_once r (Bili.process_single_file_on out h json_path output_dir cb).
Proof.
  unfold Bili.process_single_file_on. apply total_try_except.
  - apply bili_body_once.
  - intros e. apply report_total; [exact out_ok | exact cb_calm].
Qed.

Lemma demux_transcode_once (h : host) (video_path final temp : pystr) :
  once r (Mp4.demux_transcode_on out h video_path final temp cb).
Proof.
  unfold Mp4.demux_transcode_on.
  apply once_bind; [obs_frame|]. intros _.
  apply once_bind; [obs_frame|]. intros r1.
  apply once_bind; [obs_frame|]. intros _.
  apply once_bind; [obs_frame|]. intros _.
  apply once_bind; [obs_frame|]. intros r2.
  apply once_bind; [obs_frame|]. intros _.
  apply report_once.
Qed.

Lemma remove_temp_returns (temp : pystr) (w : world) :
  exists w', Mp4.remove_temp_on out temp w = (Ok tt, w').
Proof.
  unfold Mp4.remove_temp_on, bind, exists_, try_except, remove, ret.
  destruct (path_exists (w_fs w) temp); [|eauto].
  destruct (fs_remove (w_fs w) temp); [eauto|].
  rewrite (print_accepted _ _ out_ok). eauto.
Qed.

Lemma convert_via_temp_total (h : host) (video_path final temp : pystr) :
  total_once r (Mp4.convert_via_temp_on out h video_path final temp cb).
Proof.
  unfold Mp4.convert_via_temp_on. apply total_try_finally.
  - apply total_try_except; [apply demux_transcode_once|].
    intros e. apply report_total; [exact out_ok | exact cb_calm].
  - obs_frame.
  - apply remove_temp_returns.
Qed.

Lemma mp4_body_once (h : host) (video_path output_dir : pystr) :
  once r (Mp4.process_body_on out h video_path output_dir cb).
Proof.
  unfold Mp4.process_body_on.
  apply once_bind; [obs_frame|]. intros _.
  apply once_if; [apply report_once|].
  apply once_bind; [obs_frame|]. intros _.
  apply once_bind; [obs_frame|].
  intros [|]; [apply report_once|].
  apply total_once_once, convert_via_temp_total.
Qed.

Lemma mp4_unit_total (h : host) (video_path output_dir : pystr) :
  total_once r (Mp4.process_single_file_on out h video_path output_dir cb).
Proof.
  unfold Mp4.process_single_file_on. apply total_try_except.
  - apply mp4_body_once.
  - intros e. apply report_total; [exact out_ok | exact cb_calm].
Qed.

End Units.

(** ** Exceptions at the unit boundary (C2) and the reported flag (C10) *)

Lemma sink_calm (f : callback) : quiet f -> calm true (sink f).
Proof. intros H arg w. unfold sink. now rewrite H. Qed.

Lemma calm_opt_sink (cb : option callback) :
  (forall f, cb = Some f -> quiet f) ->
  calm_opt (supplied cb) (option_map sink cb).
Proof.
  destruct cb as [f|]; simpl; intros H; [|reflexivity].
  apply sink_calm, H. reflexivity.
Qed.

Lemma report_run (r : bool) (cb : option pyfun) (flag : bool) (ev : event)
    (w : world) :
  calm_opt r cb ->
  (print_on terminal ev ;; notify cb flag ;; ret flag) w
  = (Ok flag, if r then add_cb (Some flag) (add_log ev w) else add_log ev w).
Proof.
  intros H. unfold bind, print_on, terminal, ret. cbv beta iota.
  rewrite (@notify_calm r cb flag (add_log ev w) H). reflexivity.
Qed.

(** [print(...); if progress_callback: progress_callback(flag); return flag],
    for any console and any callback. *)
Lemma handler_run (out : console) (cb : option callback) (flag : bool)
    (ev : event) (w : world) :
  (print_on out ev ;; notify (option_map sink cb) flag ;; ret flag) w
  = match out (w_log w) ev with
    | Some e => (Raise e, w)
    | None =>
        match cb with
        | Some f =>
            (match f (w_cb w) (Some flag) with
             | None => Ok flag
             | Some e => Raise e
             end, add_cb (Some flag) (add_log ev w))
        | None => (Ok flag, add_log ev w)
        end
    end.
Proof.
  unfold bind, print_on, ret. destruct (out (w_log w) ev); [reflexivity|].
  destruct cb as [f|]; simpl; [|reflexivity].
  unfold sink. simpl. destruct (f (w_cb w) (Some flag)); reflexivity.
Qed.

Lemma handler_raises_iff (out : console) (cb : option callback) (ev : event)
    (w : world) (e : exn) :
  fst ((print_on out ev ;; notify (option_map sink cb) false ;; ret false) w)
  = Raise e
  <-> handler_raises out cb ev w e.
Proof.
  rewrite handler_run. unfold handler_raises.
  destruct (out (w_log w) ev) as [e1|]; simpl.
  - split.
    + intros H. left. congruence.
    + intros [H|[H _]]; congruence.
  - destruct cb as [f|]; simpl.
    + destruct (f (w_cb w) (Some false)) as [e1|] eqn:Ef; simpl; split.
      * intros H. right. split; [reflexivity|]. exists f. split; congruence.
      * intros [H|[_ (g & Hg & H)]]; [discriminate|].
        injection Hg as <-. congruence.
      * discriminate.
      * intros [H|[_ (g & Hg & H)]]; [discriminate|].
        injection Hg as <-. congruence.
    + split; [discriminate|].
      intros [H|[_ (g & Hg & _)]]; discriminate.
Qed.

(** Only the handler lets an exception out of [process_single_file]. *)
Lemma bili_escape (out : console) (h : host) (path output_dir : pystr)
    (cb : option callback) (w : world) (e : exn) :
  fst (Bili.process_single_file_on out h path output_dir (option_map sink cb) w)
  = Raise e
  <-> exists e0 w1,
        Bili.process_body_on out h path output_dir (option_map sink cb) w
        = (Raise e0, w1) /\
        handler_raises out cb (LogError path e0) w1 e.
Proof.
  unfold Bili.process_single_file_on, try_except.
  destruct (Bili.process_body_on out h path output_dir (option_map sink cb) w)
    as [[b|e0] w1].
  - split; [discriminate|]. intros (e1 & w2 & H & _). discriminate.
  - rewrite handler_raises_iff. split.
    + intros H. eauto.
    + intros (e1 & w2 & H & Hr). injection H as <- <-. exact Hr.
Qed.

Lemma mp4_escape (out : console) (h : host) (path output_dir : pystr)
    (cb : option callback) (w : world) (e : exn) :
  fst (Mp4.process_single_file_on out h path output_dir (option_map sink cb) w)
  = Raise e
  <-> exists e0 w1,
        Mp4.process_body_on out h path output_dir (option_map sink cb) w
        = (Raise e0, w1) /\
        handler_raises out cb (LogUnexpected path e0) w1 e.
Proof.
  unfold Mp4.process_single_file_on, try_except.
  destruct (Mp4.process_body_on out h path output_dir (option_map sink cb) w)
    as [[b|e0] w1].
  - split; [discriminate|]. intros (e1 & w2 & H & _). discriminate.
  - rewrite handler_raises_iff. split.
    + intros H. eauto.
    + intros (e1 & w2 & H & Hr). injection H as <- <-. exact Hr.
Qed.

Section Contained.

Variable out : console.
Hypothesis out_ok : accepting out.
Variable r : bool.
Variable cb : option pyfun.
Hypothesis cb_calm : calm_opt r cb.

Lemma report_returns (flag : bool) (ev : event) (w : world) :
  (print_on out ev ;; notify cb flag ;; ret flag) w
  = (Ok flag, if r then add_cb (Some flag) (add_log ev w) else add_log ev w).
Proof.
  unfold bind, ret. rewrite (print_accepted ev w out_ok).
  rewrite (@notify_calm r cb flag (add_log ev w) cb_calm). reflexivity.
Qed.

Lemma bili_body_raise_false (h : host) (json_path output_dir : pystr)
    (w : world) (e : exn) :
  fst (Bili.process_body_on out h json_path output_dir cb w) = Raise e ->
  fst (Bili.process_single_file_on out h json_path output_dir cb w) = Ok false.
Proof.
  intros H. unfold Bili.process_single_file_on, try_except.
  destruct (Bili.process_body_on out h json_path output_dir cb w)
    as [[b|e'] w1]; simpl in H; [discriminate|].
  now rewrite report_returns.
Qed.

Lemma mp4_body_raise_false (h : host) (video_path output_dir : pystr)
    (w : world) (e : exn) :
  fst (Mp4.process_body_on out h video_path output_dir cb w) = Raise e ->
  fst (Mp4.process_single_file_on out h video_path output_dir cb w) = Ok false.
Proof.
  intros H. unfold Mp4.process_single_file_on, try_except.
  destruct (Mp4.process_body_on out h video_path output_dir cb w)
    as [[b|e'] w1]; simpl in H; [discriminate|].
  now rewrite report_returns.
Qed.

Lemma mp4_demux_raise_false (h : host) (video_path final temp : pystr)
    (w : world) (e : exn) :
  fst (Mp4.demux_transcode_on out h video_path final temp cb w) = Raise e ->
  fst (Mp4.convert_via_temp_on out h video_path final temp cb w) = Ok false.
Proof.
  intros H. unfold Mp4.convert_via_temp_on, try_finally, try_except.
  destruct (Mp4.demux_transcode_on out h video_path final temp cb w)
    as [[b|e'] w1]; simpl in H; [discriminate|].
  unfold Mp4.demux_failed_on. rewrite report_returns.
  match goal with
  | |- context [Mp4.remove_temp_on out temp ?w0] =>
      destruct (@remove_temp_returns out out_ok temp w0) as (w2 & E); rewrite E
  end.
  reflexivity.
Qed.

End Contained.

(** C2, as the code has it. On a console that takes every line, and with no
    callback or with a callback that returns, [process_single_file] of either
    script returns a boolean: an exception raised inside its [try] block
    (name resolution, audio lookup, [os.makedirs], starting the encoder)
    makes it return [False], and so does an exception of the demux stage.
    For any console and any callback, the exceptions that leave
    [process_single_file] are exactly those of its handler: an exception has
    reached the handler, and the line the handler prints was refused by the
    console, or the callback raised when the handler called it with
    [False]. *)
Theorem unit_exceptions_become_failure :
  forall (out : console) (h : host) (path output_dir : pystr)
         (cb : option callback) (w : world),
    let bili :=
      Bili.process_single_file_on out h path output_dir (option_map sink cb) w in
    let mp4 :=
      Mp4.process_single_file_on out h path output_dir (option_map sink cb) w in
    let bili_body :=
      Bili.process_body_on out h path output_dir (option_map sink cb) w in
    let mp4_body :=
      Mp4.process_body_on out h path output_dir (option_map sink cb) w in
    (accepting out ->
     (forall f, cb = Some f -> quiet f) ->
     (exists b w', bili = (Ok b, w')) /\
     (exists b w', mp4 = (Ok b, w')) /\
     (forall e, fst bili_body = Raise e -> fst bili = Ok false) /\
     (forall e, fst mp4_body = Raise e -> fst mp4 = Ok false) /\
     (forall final temp e,
         fst (Mp4.demux_transcode_on out h path final temp
                (option_map sink cb) w) = Raise e ->
         fst (Mp4.convert_via_temp_on out h path final temp
                (option_map sink cb) w) = Ok false)) /\
    (forall e,
        fst bili = Raise e <->
        exists e0 w1,
          bili_body = (Raise e0, w1) /\
          handler_raises out cb (LogError path e0) w1 e) /\
    (forall e,
        fst mp4 = Raise e <->
        exists e0 w1,
          mp4_body = (Raise e0, w1) /\
          handler_raises out cb (LogUnexpected path e0) w1 e).
Proof.
  intros out h path output_dir cb w bili mp4 bili_body mp4_body.
  split; [|split].
  - intros Ho Hq. pose proof (calm_opt_sink Hq) as Hc.
    split; [|split; [|split; [|split]]].
    + destruct (@bili_unit_total out Ho _ _ Hc h path output_dir w)
        as (b & w' & E & _).
      eauto.
    + destruct (@mp4_unit_total out Ho _ _ Hc h path output_dir w)
        as (b & w' & E & _).
      eauto.
    + intros e. eapply bili_body_raise_false; eassumption.
    + intros e. eapply mp4_body_raise_false; eassumption.
    + intros final temp e. eapply mp4_demux_raise_false; eassumption.
  - intros e. apply bili_escape.
  - intros e. apply mp4_escape.
Qed.

Lemma cb_quiet_quiet : quiet cb_quiet.
Proof. intros history arg. reflexivity. Qed.

(** The output directory is a file: [os.makedirs] raises in both scripts, and
    both return [False]. *)
Lemma unit_exceptions_become_failure_witness :
  fst (Bili.process_body_on terminal (machine encoder_ok 4)
         (py "/in/d/entry.json") (py "/out") (Some (sink cb_quiet))
         (fresh_world blocked_fs))
  = Raise FileExistsError /\
  fst (Bili.process_single_file_on terminal (machine encoder_ok 4)
         (py "/in/d/entry.json") (py "/out") (Some (sink cb_quiet))
         (fresh_world blocked_fs))
  = Ok false /\
  fst (Mp4.process_body_on terminal (machine encoder_ok 4)
         (py "/in/d/entry.json") (py "/out") (Some (sink cb_quiet))
         (fresh_world blocked_fs))
  = Raise FileExistsError /\
  fst (Mp4.process_single_file_on terminal (machine encoder_ok 4)
         (py "/in/d/entry.json") (py "/out") (Some (sink cb_quiet))
         (fresh_world blocked_fs))
  = Ok false.
Proof.
  destruct (@unit_exceptions_become_failure terminal (machine encoder_ok 4)
              (py "/in/d/entry.json") (py "/out") (Some cb_quiet)
              (fresh_world blocked_fs))
    as (H & _ & _).
  destruct (H terminal_accepting) as (_ & _ & Hb & Hm & _).
  { intros f Hf. injection Hf as <-. exact cb_quiet_quiet. }
  assert (Eb : fst (Bili.process_body_on terminal (machine encoder_ok 4)
                      (py "/in/d/entry.json") (py "/out")
                      (Some (sink cb_quiet)) (fresh_world blocked_fs))
               = Raise FileExistsError) by (vm_compute; reflexivity).
  assert (Em : fst (Mp4.process_body_on terminal (machine encoder_ok 4)
                      (py "/in/d/entry.json") (py "/out")
                      (Some (sink cb_quiet)) (fresh_world blocked_fs))
               = Raise FileExistsError) by (vm_compute; reflexivity).
  split; [exact Eb|]. split; [exact (Hb _ Eb)|].
  split; [exact Em|]. exact (Hm _ Em).
Defined.

(** C2 as stated fails: a callback that raises makes [process_single_file]
    raise, because the handler of the unit calls the callback again. *)
Lemma unit_exception_escapes :
  fst (Bili.process_single_file (machine encoder_ok 4) (py "/in/d/entry.json")
         (py "/out") (Some (sink cb_raising)) (fresh_world sample_fs))
  = Raise (OtherError 1) /\
  fst (Mp4.process_single_file (machine encoder_ok 4) (py "/in/clip.mp4")
         (py "/out") (Some (sink cb_raising)) (fresh_world sample_fs))
  = Raise (OtherError 1).
Proof. split; vm_compute; reflexivity. Qed.

(** A console whose encoding has no accented letter: the path of the unit
    cannot be printed, neither inside the [try] block nor by the handler, and
    [process_single_file] raises without having called the callback. *)
Lemma unprintable_path_escapes :
  (let run :=
     Mp4.process_single_file_on ascii_console (machine encoder_ok 4)
       accent_video (py "/out") (Some (sink cb_quiet)) (fresh_world accent_fs) in
   fst run = Raise ValueError /\ w_cb (snd run) = [] /\ w_enc (snd run) = []) /\
  (let run :=
     Bili.process_single_file_on ascii_console (machine encoder_ok 4)
       accent_descriptor (py "/out") (Some (sink cb_quiet))
       (fresh_world accent_fs) in
   fst run = Raise ValueError /\ w_cb (snd run) = [] /\
   length (w_enc (snd run)) = 1).
Proof. repeat split; vm_compute; reflexivity. Qed.

(** *** The flag returned and the flags reported *)

Lemma reports_leaf (out : console) (f : callback) (flag : bool) (ev : event) :
  reports (print_on out ev ;; notify (Some (sink f)) flag ;; ret flag).
Proof.
  intros w. pose proof (@handler_run out (Some f) flag ev w) as E.
  cbn [option_map] in E. rewrite E. clear E.
  destruct (out (w_log w) ev).
  - exists []. now rewrite app_nil_r.
  - destruct (f (w_cb w) (Some flag)).
    + exists [Some flag]. reflexivity.
    + exists []. split; [reflexivity | reflexivity].
Qed.

Lemma reports_notify (f : callback) (flag : bool) :
  reports (notify (Some (sink f)) flag ;; ret flag).
Proof.
  intros w. unfold bind, notify, sink, ret.
  destruct (f (w_cb w) (Some flag)).
  - exists [Some flag]. reflexivity.
  - exists []. split; reflexivity.
Qed.

Lemma reports_bind {A : Type} (c : M A) (k : A -> M bool) :
  preserves same_obs c -> (forall a, reports (k a)) -> reports (bind c k).
Proof.
  intros Hc Hk w. unfold bind. specialize (Hc w).
  destruct (c w) as [[a|e] w1]; simpl in Hc; destruct Hc as (Hc & _).
  - specialize (Hk a w1). rewrite Hc in Hk. exact Hk.
  - exists []. now rewrite app_nil_r.
Qed.

Lemma reports_if (b : bool) (c1 c2 : M bool) :
  reports c1 -> reports c2 -> reports (if b then c1 else c2).
Proof. destruct b; auto. Qed.

(** A handler of the scripts: after whatever the block has reported, it
    reports [False] and returns [False]. *)
Lemma reports_try_except (out : console) (f : callback) (c : M bool)
    (ev : exn -> event) :
  reports c ->
  reports (try_except c
             (fun e => print_on out (ev e) ;; notify (Some (sink f)) false ;;
                       ret false)).
Proof.
  intros Hc w. unfold try_except. specialize (Hc w).
  destruct (c w) as [[b|e] w1]; [exact Hc|].
  destruct Hc as (evs & Hc).
  pose proof (@handler_run out (Some f) false (ev e) w1) as E.
  cbn [option_map] in E. rewrite E. clear E.
  destruct (out (w_log w1) (ev e)).
  - exists evs. exact Hc.
  - destruct (f (w_cb w1) (Some false)); cbn [w_cb add_cb add_log]; rewrite Hc.
    + exists (evs ++ [Some false]). now rewrite app_assoc.
    + exists evs. split; [now rewrite app_assoc | discriminate].
Qed.

Lemma reports_try_finally (c : M bool) (f : M unit) :
  reports c -> preserves same_obs f -> reports (try_finally c f).
Proof.
  intros Hc Hf w. unfold try_finally. specialize (Hc w).
  destruct (c w) as [rc w1]. specialize (Hf w1).
  destruct (f w1) as [[u|e] w2]; simpl in Hf; destruct Hf as (Hf & _);
    rewrite Hf.
  - exact Hc.
  - destruct rc as [b|e1].
    + destruct Hc as (earlier & Hc & _). exists (earlier ++ [Some b]).
      exact Hc.
    + exact Hc.
Qed.

Lemma bili_reports (out : console) (f : callback) (h : host)
    (json_path output_dir : pystr) :
  reports (Bili.process_single_file_on out h json_path output_dir
             (Some (sink f))).
Proof.
  unfold Bili.process_single_file_on.
  apply reports_try_except with (ev := LogError json_path).
  unfold Bili.process_body_on.
  apply reports_bind; [obs_frame|].
  intros [[|c s]|]; try apply reports_notify.
  apply reports_bind; [obs_frame|].
  intros [[|a p]|]; try apply reports_leaf.
  apply reports_bind; [obs_frame|]. intros _.
  apply reports_bind; [obs_frame|].
  intros [|]; [apply reports_leaf|].
  apply reports_bind; [obs_frame|]. intros res.
  apply reports_if; apply reports_leaf.
Qed.

Lemma mp4_reports (out : console) (f : callback) (h : host)
    (video_path output_dir : pystr) :
  reports (Mp4.process_single_file_on out h video_path output_dir
             (Some (sink f))).
Proof.
  unfold Mp4.process_single_file_on.
  apply reports_try_except with (ev := LogUnexpected video_path).
  unfold Mp4.process_body_on.
  apply reports_bind; [obs_frame|]. intros _.
  apply reports_if; [apply reports_leaf|].
  apply reports_bind; [obs_frame|]. intros _.
  apply reports_bind; [obs_frame|].
  intros [|]; [apply reports_leaf|].
  unfold Mp4.convert_via_temp_on.
  apply reports_try_finally; [|obs_frame].
  unfold Mp4.demux_failed_on.
  apply reports_try_except with (ev := LogError video_path).
  unfold Mp4.demux_transcode_on.
  apply reports_bind; [obs_frame|]. intros _.
  apply reports_bind; [obs_frame|]. intros r1.
  apply reports_bind; [obs_frame|]. intros _.
  apply reports_bind; [obs_frame|]. intros _.
  apply reports_bind; [obs_frame|]. intros r2.
  apply reports_bind; [obs_frame|]. intros _.
  apply reports_leaf.
Qed.

(** C10, as the code has it. Whatever the console and the callback do, a call
    of [process_single_file] that returns has passed the callback the flag
    it returns, as the last flag of the call; and a call that returns [True]
    has passed it that one flag only. On a console that takes every line and
    with a callback that returns, the call returns and the callback has
    received exactly one flag. *)
Theorem returned_flag_is_reported_flag :
  forall (out : console) (h : host) (path output_dir : pystr) (f : callback)
         (w : world),
    let bili :=
      Bili.process_single_file_on out h path output_dir (Some (sink f)) w in
    let mp4 :=
      Mp4.process_single_file_on out h path output_dir (Some (sink f)) w in
    (forall b w',
        bili = (Ok b, w') ->
        exists earlier,
          w_cb w' = w_cb w ++ earlier ++ [Some b] /\
          (b = true -> earlier = [])) /\
    (forall b w',
        mp4 = (Ok b, w') ->
        exists earlier,
          w_cb w' = w_cb w ++ earlier ++ [Some b] /\
          (b = true -> earlier = [])) /\
    (accepting out -> quiet f ->
     (exists b w', bili = (Ok b, w') /\ w_cb w' = w_cb w ++ [Some b]) /\
     (exists b w', mp4 = (Ok b, w') /\ w_cb w' = w_cb w ++ [Some b])).
Proof.
  intros out h path output_dir f w bili mp4. split; [|split].
  - intros b w' E. pose proof (@bili_reports out f h path output_dir w) as H.
    fold bili in H. rewrite E in H. exact H.
  - intros b w' E. pose proof (@mp4_reports out f h path output_dir w) as H.
    fold mp4 in H. rewrite E in H. exact H.
  - intros Ho Hq.
    assert (Hc : calm_opt true (Some (sink f))) by (apply sink_calm, Hq).
    split.
    + destruct (@bili_unit_total out Ho _ _ Hc h path output_dir w)
        as (b & w' & E & He & _).
      eauto.
    + destruct (@mp4_unit_total out Ho _ _ Hc h path output_dir w)
        as (b & w' & E & He & _).
      eauto.
Qed.

Lemma returned_flag_is_reported_flag_witness :
  (exists b w',
      Bili.process_single_file_on terminal (machine encoder_ok 4)
        (py "/in/d/entry.json") (py "/out") (Some (sink cb_quiet))
        (fresh_world sample_fs)
      = (Ok b, w') /\ w_cb w' = [] ++ [Some b]) /\
  (exists b w',
      Mp4.process_single_file_on terminal (machine encoder_ok 4)
        (py "/in/d/entry.json") (py "/out") (Some (sink cb_quiet))
        (fresh_world sample_fs)
      = (Ok b, w') /\ w_cb w' = [] ++ [Some b]).
Proof.
  exact (proj2 (proj2 (@returned_flag_is_reported_flag terminal
                         (machine encoder_ok 4) (py "/in/d/entry.json")
                         (py "/out") cb_quiet (fresh_world sample_fs)))
           terminal_accepting cb_quiet_quiet).
Defined.

(** C10 as stated fails: the destination is there, the callback is called
    with [True] and raises, the handler calls it with [False] and the call
    returns [False]. *)
Lemma returned_flag_differs :
  let run :=
    Bili.process_single_file (machine encoder_ok 4) (py "/in/d/entry.json")
      (py "/out") (Some (sink cb_raising_on_true)) (fresh_world converted_fs) in
  fst run = Ok false /\ w_cb (snd run) = [Some true; Some false].
Proof. split; vm_compute; reflexivity. Qed.

(** ** The default pool size (C7) and the audio lookup (C5) *)

(** C7. On a machine with one processor the default pool size of
    [biliAudioToMp3_.py] is 0, which the pool refuses: the batch raises
    [ValueError] before any unit is run. [mp4Tomp3.py] takes the maximum with
    1, so its default is at least 1 on every machine. *)
Theorem single_core_default_pool :
  forall (enc : list (list pystr) -> list pystr -> node
                -> node * result (Z * pystr))
         (pk : nat -> nat) (w : world),
    let h := {| ffmpeg := enc; cpu_count := Some 1%Z; pick := pk |} in
    Bili.default_workers h None w = (Ok 0%Z, w) /\
    (forall task units, thread_pool h 0 task units w = (Raise ValueError, w)) /\
    (let run :=
       Bili.process_folders_parallel (machine encoder_ok 1) [py "/in"]
         (py "/out") (Some (sink cb_quiet)) None (fresh_world sample_fs) in
     fst run = Raise ValueError /\ w_enc (snd run) = [] /\ w_cb (snd run) = []) /\
    (forall cores,
        exists n,
          Mp4.default_workers
            {| ffmpeg := enc; cpu_count := Some cores; pick := pk |} None w
          = (Ok n, w) /\ (1 <= n)%Z).
Proof.
  intros enc pk w h. split; [reflexivity|]. split; [reflexivity|]. split.
  - repeat split; vm_compute; reflexivity.
  - intros cores. exists (Z.max 1 (cores - 1)). split; [reflexivity | lia].
Qed.

(** C5. [/in/d] holds [song.mp4] and, one level down, [sub/audio.m4a]; none
    of the well-known names is in [/in/d] itself. The walk returns
    [song.mp4], the first file with a known extension, although [audio.m4a]
    lies in the part of the tree that is searched. *)
Theorem first_audio_file_wins :
  Bili.first_return
    (fun ext =>
       let audio_path := path_join (py "/in/d") (py "audio" ++ ext) in
       if path_exists sample_fs audio_path then Some audio_path else None)
    Bili.audio_extensions = None /\
  Bili.find_audio_file sample_fs (py "/in/d") = Some (py "/in/d/song.mp4") /\
  path_exists sample_fs (py "/in/d/sub/audio.m4a") = true /\
  Bili.too_deep (py "/in/d") (py "/in/d/sub") = false.
Proof. repeat split; vm_compute; reflexivity. Qed.

(** ** Descriptors that cannot be read (C6) *)

Lemma extract_title_name_run (json_path : pystr) (w : world) :
  Bili.extract_title_name_on terminal json_path w
  = match title_load (w_fs w) json_path with
    | Ok part_name => (Ok (Some part_name), w)
    | Raise e => (Ok None, add_log (LogReadError json_path e) w)
    end.
Proof.
  unfold Bili.extract_title_name, Bili.extract_title_name_on, title_load, try_except, bind, lift, ret, print, print_on, terminal.
  destruct (fs_load_json (w_fs w) json_path) as [data|e]; [|reflexivity].
  destruct (Bili.title_of data); reflexivity.
Qed.

Lemma extract_title_name_cached_miss (json_path : pystr) (w : world) :
  assoc json_path (w_titles w) = None ->
  Bili.extract_title_name_cached_on terminal json_path w
  = match title_load (w_fs w) json_path with
    | Ok part_name =>
        (Ok (Some part_name),
         set_titles (w_titles w ++ [(json_path, Some part_name)]) w)
    | Raise e =>
        (Ok None,
         set_titles (w_titles w ++ [(json_path, None)])
           (add_log (LogReadError json_path e) w))
    end.
Proof.
  intros H. unfold Bili.extract_title_name_cached, Bili.extract_title_name_cached_on.
  rewrite H, extract_title_name_run.
  destruct (title_load (w_fs w) json_path); reflexivity.
Qed.




(** ** The temporary file of the direct conversion (C8) *)

Lemma assoc_del_assoc {A : Type} (k : pystr) (l : list (pystr * A)) :
  assoc k (del_assoc k l) = None.
Proof.
  induction l as [|[k' v] l IH]; simpl; [reflexivity|].
  destruct (str_eqb k k') eqn:E; [exact IH|].
  simpl. now rewrite E.
Qed.

Lemma assoc_set_assoc {A : Type} (k : pystr) (v : A) (l : list (pystr * A)) :
  assoc k (set_assoc k v l) = Some v.
Proof.
  induction l as [|[k' v'] l IH]; simpl.
  - now rewrite str_eqb_refl.
  - destruct (str_eqb k k') eqn:E; simpl.
    + now rewrite str_eqb_refl.
    + now rewrite E.
Qed.

Lemma unlink_gone (cs : list pystr) :
  forall n n', unlink cs n = Ok n' -> fs_lookup cs n' = None.
Proof.
  induction cs as [|c cs IH]; intros n n' H; simpl in H; [discriminate|].
  destruct n as [d|es]; [discriminate|].
  destruct (assoc c es) as [ch|] eqn:Ec; [|discriminate].
  destruct cs as [|c2 cs].
  - destruct ch as [d|es2]; [|discriminate].
    destruct (f_locked d); [discriminate|].
    injection H as <-. simpl. now rewrite assoc_del_assoc.
  - destruct (unlink (c2 :: cs) ch) as [ch'|e] eqn:Eu; [|discriminate].
    injection H as <-.
    change (fs_lookup (c :: c2 :: cs) (Dir (set_assoc c ch' es)))
      with (match assoc c (set_assoc c ch' es) with
            | Some ch0 => fs_lookup (c2 :: cs) ch0
            | None => None
            end).
    rewrite assoc_set_assoc. eapply IH. exact Eu.
Qed.

(** After [os.remove(p)] has returned, nothing is at [p]. *)
Lemma fs_remove_gone (fs fs' : node) (p : pystr) :
  fs_remove fs p = Ok fs' -> path_exists fs' p = false.
Proof.
  unfold fs_remove, path_exists, fs_stat.
  destruct (is_empty p); [discriminate|].
  intros H. now rewrite (unlink_gone _ _ H).
Qed.

Lemma report_sink_run (cb : option callback) (flag : bool) (ev : event)
    (w : world) :
  (print_on terminal ev ;; notify (option_map sink cb) flag ;; ret flag) w
  = (match cb with
     | Some f =>
         match f (w_cb w) (Some flag) with
         | None => Ok flag
         | Some e => Raise e
         end
     | None => Ok flag
     end,
     match cb with
     | Some _ => add_cb (Some flag) (add_log ev w)
     | None => add_log ev w
     end).
Proof.
  unfold bind, print, print_on, terminal, ret. cbv beta iota.
  destruct cb as [f|]; simpl; [|reflexivity].
  unfold sink. simpl. destruct (f (w_cb w) (Some flag)); reflexivity.
Qed.

(** What the [finally] clause does to a world. *)
Lemma remove_temp_run (temp : pystr) (w : world) :
  exists w',
    Mp4.remove_temp_on terminal temp w = (Ok tt, w') /\
    w_cb w' = w_cb w /\ w_enc w' = w_enc w /\
    (path_exists (w_fs w') temp = false /\ w_log w' = w_log w \/
     exists e, fs_remove (w_fs w) temp = Raise e /\
               w_fs w' = w_fs w /\
               w_log w' = w_log w ++ [LogRemoveFailed temp e]).
Proof.
  unfold Mp4.remove_temp, Mp4.remove_temp_on, bind, exists_, try_except, remove, print, print_on, terminal, ret.
  destruct (path_exists (w_fs w) temp) eqn:Ex.
  - destruct (fs_remove (w_fs w) temp) as [fs'|e] eqn:Er.
    + eexists. split; [reflexivity|]. repeat split. left.
      split; [|reflexivity]. simpl. eapply fs_remove_gone. exact Er.
    + eexists. split; [reflexivity|]. repeat split. right.
      exists e. repeat split.
  - eexists. split; [reflexivity|]. repeat split. left. now split.
Qed.



(** ** The pool *)

Lemma nth_split_at {A : Type} (i : nat) (l : list A) (d : A) :
  i < length l -> l = firstn i l ++ nth i l d :: skipn (S i) l.
Proof.
  revert i; induction l as [|x l IH]; intros i H; simpl in H; [lia|].
  destruct i as [|i]; [reflexivity|].
  cbn [firstn nth skipn app]. f_equal. apply IH. lia.
Qed.

Lemma set_nth_split {A : Type} (i : nat) (y : A) (l : list A) :
  i < length l -> set_nth i y l = firstn i l ++ y :: skipn (S i) l.
Proof.
  revert i; induction l as [|x l IH]; intros i H; simpl in H; [lia|].
  destruct i as [|i]; [reflexivity|].
  cbn [set_nth firstn skipn app]. f_equal. apply IH. lia.
Qed.

Lemma remove_nth_split {A : Type} (i : nat) (l : list A) :
  i < length l -> remove_nth i l = firstn i l ++ skipn (S i) l.
Proof.
  revert i; induction l as [|x l IH]; intros i H; simpl in H; [lia|].
  destruct i as [|i]; [reflexivity|].
  cbn [remove_nth firstn skipn app]. f_equal. apply IH. lia.
Qed.

Lemma pick_in_range (p workers n : nat) :
  1 <= workers -> 1 <= n ->
  Nat.modulo p (Nat.min workers n) < workers /\
  Nat.modulo p (Nat.min workers n) < n.
Proof.
  intros Hw Hn.
  assert (Nat.modulo p (Nat.min workers n) < Nat.min workers n)
    by (apply Nat.mod_upper_bound; lia).
  lia.
Qed.

Lemma steps_left_app (a b : list slot) :
  steps_left (a ++ b) = steps_left a + steps_left b.
Proof. unfold steps_left. now rewrite map_app, list_sum_app. Qed.

Lemma steps_left_queued (units : list pystr) :
  steps_left (map Queued units) = 2 * length units.
Proof.
  unfold steps_left. induction units as [|u units IH]; [reflexivity|].
  simpl map. simpl list_sum. rewrite IH. simpl length. lia.
Qed.

(** Whatever the host picks, the pool makes one of the runs of [executes],
    and has the fuel to make it to the end. *)
Lemma run_pool_executes (h : host) (workers : nat) (task : pystr -> M (M bool)) :
  1 <= workers ->
  forall fuel k slots w,
    steps_left slots <= fuel ->
    executes workers task slots w
      (fst (run_pool h workers task k fuel slots w))
      (snd (run_pool h workers task k fuel slots w)).
Proof.
  intros Hw. induction fuel as [|fuel IH]; intros k slots w Hf.
  - destruct slots as [|[u|u rest] slots]; cbn in Hf; try lia. constructor.
  - destruct slots as [|s0 slots]; [constructor|].
    cbn [run_pool].
    set (l := s0 :: slots) in *.
    set (i := Nat.modulo (pick h k) (Nat.min workers (length l))).
    destruct (@pick_in_range (pick h k) workers (length l) Hw)
      as [Hiw Hil]; [simpl; lia|].
    fold i in Hiw, Hil.
    assert (Hlen : length (firstn i l) < workers)
      by (rewrite length_firstn; lia).
    pose proof (@nth_split_at _ i l s0 Hil) as Hsplit.
    assert (Hsteps : steps_left l
                     = steps_left (firstn i l)
                       + (steps_left [nth i l s0] + steps_left (skipn (S i) l))).
    { rewrite Hsplit at 1. rewrite steps_left_app.
      change (nth i l s0 :: skipn (S i) l)
        with ([nth i l s0] ++ skipn (S i) l).
      now rewrite steps_left_app. }
    clearbody i.
    destruct (nth i l s0) as [u|u rest] eqn:En; cbn [step_slot].
    + destruct (task u w) as [[rest|e] w1] eqn:Et.
      * rewrite (@set_nth_split _ i (Held u rest) l Hil).
        revert Hsplit Hsteps Hlen.
        generalize (firstn i l) (skipn (S i) l). intros before after E Hs Hl.
        clearbody l. subst l.
        eapply ex_start; [exact Hl | exact Et |].
        apply IH. rewrite steps_left_app.
        change (Held u rest :: after) with ([Held u rest] ++ after).
        rewrite steps_left_app. cbn in Hs |- *. lia.
      * rewrite (@remove_nth_split _ i l Hil).
        revert Hsplit Hsteps Hlen.
        generalize (firstn i l) (skipn (S i) l). intros before after E Hs Hl.
        clearbody l. subst l.
        specialize (IH (S k) (before ++ after) w1).
        destruct (run_pool h workers task (S k) fuel (before ++ after) w1)
          as [rs w2].
        cbn [fst snd] in *.
        eapply ex_refused; [exact Hl | exact Et |].
        apply IH. rewrite steps_left_app. cbn in Hs. lia.
    + destruct (rest w) as [r w1] eqn:Er.
      rewrite (@remove_nth_split _ i l Hil).
      revert Hsplit Hsteps Hlen.
      generalize (firstn i l) (skipn (S i) l). intros before after E Hs Hl.
      clearbody l. subst l.
      specialize (IH (S k) (before ++ after) w1).
      destruct (run_pool h workers task (S k) fuel (before ++ after) w1)
        as [rs w2].
      cbn [fst snd] in *.
      eapply ex_finish; [exact Hl | exact Er |].
      apply IH. rewrite steps_left_app. cbn in Hs. lia.
Qed.

Lemma thread_pool_runs (h : host) (n : Z) (task : pystr -> M (M bool))
    (units : list pystr) (w : world) :
  (1 <= n)%Z ->
  exists rs w',
    thread_pool h n task units w = (Ok rs, w') /\
    executes (Z.to_nat n) task (map Queued units) w rs w'.
Proof.
  intros Hn. unfold thread_pool.
  replace (n <=? 0)%Z with false by (symmetry; apply Z.leb_gt; lia).
  pose proof (@run_pool_executes h (Z.to_nat n) task ltac:(lia)
                (2 * length units) 0 (map Queued units) w) as H.
  destruct (run_pool h (Z.to_nat n) task 0 (2 * length units)
              (map Queued units) w) as [rs w'].
  exists rs, w'. split; [reflexivity|]. apply H.
  rewrite steps_left_queued. lia.
Qed.

Lemma units_queued (units : list pystr) :
  map unit_of (map Queued units) = units.
Proof. rewrite map_map. apply map_id. Qed.

(** Every task is over exactly once. *)
Lemma executes_units (workers : nat) (task : pystr -> M (M bool))
    (slots : list slot) (w w' : world) (rs : list (pystr * result bool)) :
  executes workers task slots w rs w' ->
  Permutation (map fst rs) (map unit_of slots).
Proof.
  induction 1 as [w|before u after w rest w1 rs w' _ _ _ IH
                 |before u after w e w1 rs w' _ _ _ IH
                 |before u rest after w r w1 rs w' _ _ _ IH].
  - constructor.
  - rewrite map_app in *. exact IH.
  - rewrite map_app in *. cbn [map fst unit_of].
    now apply Permutation_cons_app.
  - rewrite map_app in *. cbn [map fst unit_of].
    now apply Permutation_cons_app.
Qed.

Lemma map_eq_middle {A B : Type} (f : A -> B) (before : list B) (x : B)
    (after : list B) :
  forall l,
    map f l = before ++ x :: after ->
    exists l1 a l2,
      l = l1 ++ a :: l2 /\ map f l1 = before /\ f a = x /\ map f l2 = after.
Proof.
  induction before as [|b before IH]; intros [|a l] H; try discriminate.
  - injection H as H1 H2. exists [], a, l. auto.
  - injection H as H1 H2. destruct (IH l H2) as (l1 & a' & l2 & -> & E1 & E2 & E3).
    exists (a :: l1), a', l2. cbn [map]. rewrite H1, E1. auto.
Qed.

Lemma count_true_app (a b : list bool) :
  count_true (a ++ b) = (count_true a + count_true b)%Z.
Proof. induction a as [|x a IH]; cbn [app count_true]; [reflexivity | lia]. Qed.

Lemma count_true_perm (a b : list bool) :
  Permutation a b -> count_true a = count_true b.
Proof. induction 1; cbn [count_true]; lia. Qed.

Lemma flags_of_app (a b : list (option bool)) :
  flags_of (a ++ b) = flags_of a ++ flags_of b.
Proof. unfold flags_of. apply flat_map_app. Qed.

Lemma Forall_skipn_next {A : Type} (P : A -> Prop) (m : nat) :
  forall l, Forall P (skipn m l) -> Forall P (skipn (S m) l).
Proof.
  induction m as [|m IH]; intros [|x l] H; cbn [skipn] in *;
    try constructor.
  - now inversion H.
  - destruct l; [constructor|]. apply (IH (a :: l)). exact H.
Qed.

(** Tasks under an invariant [I] of the world whose first step returns and
    leaves one of the blocks [K b], and whose blocks return. *)
Section Returning.

Variable workers : nat.
Variable task : pystr -> M (M bool).
Variable K : bool -> M bool.
Variable I : world -> Prop.
Variable P : pystr -> Prop.
Variable Q : bool -> Prop.
Variable ev1 : bool -> list (option bool).
Variable ev2 : list (option bool).

Hypothesis call_spec :
  forall u w, P u -> I w ->
    exists b w1,
      task u w = (Ok (K b), w1) /\ I w1 /\ Q b /\
      w_cb w1 = w_cb w ++ ev1 b /\ same_counters w w1.

Hypothesis block_spec :
  forall b w, I w ->
    exists w1,
      K b w = (Ok b, w1) /\ I w1 /\
      w_cb w1 = w_cb w ++ ev2 /\
      w_success w1 = (w_success w + (if b then 1 else 0))%Z /\
      w_processed w1 = (w_processed w + 1)%Z.

Let to_slot (p : pystr * option bool) : slot :=
  match snd p with
  | None => Queued (fst p)
  | Some b => Held (fst p) (K b)
  end.

Let held (sl : list (pystr * option bool)) : list bool :=
  flat_map (fun p => match snd p with Some b => [b] | None => [] end) sl.

Let shown_by (cs : list (option bool)) : list (option bool) :=
  flat_map (fun c => match c with Some b => ev1 b | None => ev2 end) cs.

Lemma held_app (a b : list (pystr * option bool)) :
  held (a ++ b) = held a ++ held b.
Proof. unfold held. apply flat_map_app. Qed.

Lemma held_length (sl : list (pystr * option bool)) :
  length (held sl) <= length sl.
Proof.
  unfold held. induction sl as [|[u [b|]] sl IH]; simpl in *; lia.
Qed.

Lemma held_none (sl : list (pystr * option bool)) :
  Forall (fun p => snd p = None) sl -> held sl = [].
Proof.
  induction 1 as [|[u o] sl Hp _ IH]; [reflexivity|].
  simpl in Hp. subst o. exact IH.
Qed.

(** The tasks held sit among the first [workers] slots: one of these that is
    not started leaves room for its flag. *)
Lemma held_room (sl1 sl2 : list (pystr * option bool)) (u : pystr) :
  length sl1 < workers ->
  Forall (fun p => snd p = None) (skipn workers (sl1 ++ (u, None) :: sl2)) ->
  length (held (sl1 ++ (u, None) :: sl2)) < workers.
Proof.
  intros Hl Hw.
  rewrite <- (firstn_skipn workers (sl1 ++ (u, None) :: sl2)), held_app.
  rewrite (held_none Hw), app_nil_r.
  rewrite firstn_app.
  replace (workers - length sl1) with (S (workers - length sl1 - 1)) by lia.
  cbn [firstn]. rewrite !held_app. cbn [held flat_map snd app].
  fold (held (firstn (workers - length sl1 - 1) sl2)).
  rewrite !length_app.
  pose proof (held_length (firstn workers sl1)).
  pose proof (held_length (firstn (workers - length sl1 - 1) sl2)).
  rewrite length_firstn in *. lia.
Qed.

Lemma window_started (sl1 sl2 : list (pystr * option bool))
    (x y : pystr * option bool) :
  length sl1 < workers ->
  skipn workers (sl1 ++ x :: sl2) = skipn workers (sl1 ++ y :: sl2).
Proof.
  intros Hl. rewrite !skipn_app.
  replace (skipn workers sl1) with (@nil (pystr * option bool))
    by (symmetry; apply skipn_all2; lia).
  replace (workers - length sl1) with (S (workers - length sl1 - 1)) by lia.
  reflexivity.
Qed.

Lemma window_over (sl1 sl2 : list (pystr * option bool))
    (x : pystr * option bool) :
  length sl1 < workers ->
  Forall (fun p => snd p = None) (skipn workers (sl1 ++ x :: sl2)) ->
  Forall (fun p => snd p = None) (skipn workers (sl1 ++ sl2)).
Proof.
  intros Hl. rewrite !skipn_app.
  replace (skipn workers sl1) with (@nil (pystr * option bool))
    by (symmetry; apply skipn_all2; lia).
  replace (workers - length sl1) with (S (workers - length sl1 - 1)) by lia.
  cbn [app skipn]. apply Forall_skipn_next.
Qed.

Lemma to_slot_queued (p : pystr * option bool) (u : pystr) :
  to_slot p = Queued u -> p = (u, None).
Proof. destruct p as [v [b|]]; unfold to_slot; simpl; congruence. Qed.

Lemma to_slot_held (p : pystr * option bool) (u : pystr) (rest : M bool) :
  to_slot p = Held u rest -> exists b, p = (u, Some b) /\ rest = K b.
Proof.
  destruct p as [v [b|]]; unfold to_slot; simpl; [|discriminate].
  intros H. injection H as <- <-. eauto.
Qed.

Lemma executes_returning (slots : list slot) (w w' : world)
    (rs : list (pystr * result bool)) :
  executes workers task slots w rs w' ->
  forall sl,
    slots = map to_slot sl ->
    (forall u, In (u, None) sl -> P u) ->
    (forall u b, In (u, Some b) sl -> Q b) ->
    Forall (fun p => snd p = None) (skipn workers sl) ->
    I w ->
    exists bs cs,
      map snd rs = map Ok bs /\ I w' /\ Forall Q bs /\
      w_cb w' = w_cb w ++ shown_by cs /\
      paired workers (length (held sl)) cs = true /\
      Permutation (flags_of cs ++ held sl) bs /\
      w_success w' = (w_success w + count_true bs)%Z /\
      w_processed w' = (w_processed w + Z.of_nat (length bs))%Z.
Proof.
  induction 1 as [w|before u after w rest w1 rs w' Hlen Hstep _ IH
                 |before u after w e w1 rs w' Hlen Hstep _ IH
                 |before u rest after w r w1 rs w' Hlen Hstep _ IH];
    intros sl Hsl HP HQ Hwin HI.
  - symmetry in Hsl. apply map_eq_nil in Hsl. subst sl.
    exists [], []. cbn. rewrite app_nil_r, !Z.add_0_r.
    repeat split; auto.
  - symmetry in Hsl.
    apply map_eq_middle in Hsl as (sl1 & p & sl2 & -> & E1 & Ep & E2).
    apply to_slot_queued in Ep. subst p before after.
    rewrite length_map in Hlen.
    destruct (@call_spec u w) as (b & w2 & Et & HI1 & HQb & Hcb & Hs & Hp);
      [apply HP, in_elt | exact HI |].
    rewrite Et in Hstep. injection Hstep as <- <-.
    destruct (IH (sl1 ++ (u, Some b) :: sl2))
      as (bs & cs & Ers & HI' & HQs & Hcb' & Hpair & Hperm & Hs' & Hp').
    + rewrite !map_app. reflexivity.
    + intros v Hv. apply HP. apply in_app_or in Hv as [Hv|[Hv|Hv]];
        [apply in_or_app; now left | discriminate
        | apply in_or_app; right; now right].
    + intros v c Hv. apply in_app_or in Hv as [Hv|[Hv|Hv]].
      * eapply HQ. apply in_or_app. left. exact Hv.
      * injection Hv as _ <-. exact HQb.
      * eapply HQ. apply in_or_app. right. right. exact Hv.
    + rewrite (@window_started sl1 sl2 (u, Some b) (u, None) Hlen).
      exact Hwin.
    + exact HI1.
    + exists bs, (Some b :: cs).
      split; [exact Ers|]. split; [exact HI'|]. split; [exact HQs|].
      split.
      { rewrite Hcb', Hcb. cbn [shown_by flat_map]. fold (shown_by cs).
        now rewrite app_assoc. }
      split.
      { cbn [paired]. apply andb_true_iff. split.
        - apply Nat.ltb_lt. now apply held_room.
        - rewrite held_app in Hpair |- *.
          cbn [held flat_map snd app] in Hpair |- *.
          fold (held sl2) in Hpair |- *.
          rewrite length_app in Hpair |- *. cbn [length] in Hpair.
          replace (S (length (held sl1) + length (held sl2)))
            with (length (held sl1) + S (length (held sl2))) by lia.
          exact Hpair. }
      split.
      { rewrite held_app in Hperm |- *.
        cbn [held flat_map snd app] in Hperm |- *.
        fold (held sl2) in Hperm |- *.
        cbn [flags_of flat_map app]. fold (flags_of cs).
        eapply Permutation_trans; [|exact Hperm].
        rewrite !app_assoc. apply Permutation_middle. }
      split; congruence.
  - symmetry in Hsl.
    apply map_eq_middle in Hsl as (sl1 & p & sl2 & -> & E1 & Ep & E2).
    apply to_slot_queued in Ep. subst p.
    destruct (@call_spec u w) as (b & w2 & Et & _);
      [apply HP, in_elt | exact HI |].
    rewrite Et in Hstep. discriminate.
  - symmetry in Hsl.
    apply map_eq_middle in Hsl as (sl1 & p & sl2 & -> & E1 & Ep & E2).
    apply to_slot_held in Ep as (b & -> & ->). subst before after.
    rewrite length_map in Hlen.
    destruct (@block_spec b w HI) as (w2 & Ek & HI1 & Hcb & Hs & Hp).
    rewrite Ek in Hstep. injection Hstep as <- <-.
    destruct (IH (sl1 ++ sl2))
      as (bs & cs & Ers & HI' & HQs & Hcb' & Hpair & Hperm & Hs' & Hp').
    + rewrite !map_app. reflexivity.
    + intros v Hv. apply HP. apply in_app_or in Hv as [Hv|Hv];
        [apply in_or_app; now left | apply in_or_app; right; now right].
    + intros v c Hv. eapply HQ. apply in_app_or in Hv as [Hv|Hv];
        [apply in_or_app; left; exact Hv
        | apply in_or_app; right; right; exact Hv].
    + eapply window_over; eassumption.
    + exact HI1.
    + exists (b :: bs), (None :: cs).
      split; [cbn [map snd]; now rewrite Ers|]. split; [exact HI'|].
      split; [constructor; [eapply HQ, in_elt | exact HQs]|].
      split.
      { rewrite Hcb', Hcb. cbn [shown_by flat_map]. fold (shown_by cs).
        now rewrite app_assoc. }
      split.
      { rewrite held_app in Hpair |- *.
        cbn [held flat_map snd app]. fold (held sl2).
        rewrite length_app in Hpair |- *. cbn [length].
        replace (length (held sl1) + S (length (held sl2)))
          with (S (length (held sl1) + length (held sl2))) by lia.
        exact Hpair. }
      split.
      { rewrite held_app in Hperm |- *.
        cbn [held flat_map snd app]. fold (held sl2).
        cbn [flags_of flat_map app]. fold (flags_of cs).
        rewrite app_assoc. apply Permutation_sym, Permutation_cons_app.
        rewrite <- app_assoc. now apply Permutation_sym. }
      cbn [count_true length]. split; [rewrite Hs', Hs; lia|].
      rewrite Hp', Hp. lia.
Qed.

(** The same for a batch: every task was submitted and none is started. *)
Lemma pool_returning (units : list pystr) (w w' : world)
    (rs : list (pystr * result bool)) :
  executes workers task (map Queued units) w rs w' ->
  (forall u, In u units -> P u) -> I w ->
  exists bs cs,
    map snd rs = map Ok bs /\ I w' /\ Forall Q bs /\
    length bs = length units /\
    w_cb w' = w_cb w ++ shown_by cs /\
    paired workers 0 cs = true /\
    Permutation (flags_of cs) bs /\
    w_success w' = (w_success w + count_true bs)%Z /\
    w_processed w' = (w_processed w + Z.of_nat (length bs))%Z.
Proof.
  intros Hex HP HI.
  assert (Hnone : forall n,
             Forall (fun p : pystr * option bool => snd p = None)
               (skipn n (map (fun u => (u, @None bool)) units))).
  { intros n. apply Forall_forall. intros p Hp.
    assert (Hin : In p (map (fun u => (u, @None bool)) units)).
    { rewrite <- (firstn_skipn n). apply in_or_app. now right. }
    apply in_map_iff in Hin as (u & <- & _). reflexivity. }
  destruct (@executes_returning _ _ _ _ Hex
              (map (fun u => (u, None)) units))
    as (bs & cs & Ers & HI' & HQs & Hcb & Hpair & Hperm & Hs & Hp).
  - rewrite map_map. reflexivity.
  - intros u Hu. apply in_map_iff in Hu as (v & Hv & Hin).
    injection Hv as <-. now apply HP.
  - intros u b Hu. apply in_map_iff in Hu as (v & Hv & _). discriminate.
  - apply Hnone.
  - exact HI.
  - assert (Hh : held (map (fun u => (u, None)) units) = []).
    { apply held_none. apply (Hnone 0). }
    rewrite Hh in Hpair, Hperm. rewrite app_nil_r in Hperm.
    exists bs, cs. repeat split; try assumption.
    apply executes_units in Hex.
    apply Permutation_length in Hex.
    rewrite !length_map in Hex.
    rewrite <- Hex, <- (length_map snd rs), Ers, length_map. reflexivity.
Qed.

End Returning.

(** Tasks that count themselves once at most, whatever else they do. *)
Section Counting.

Variable workers : nat.
Variable task : pystr -> M (M bool).
Variable K : bool -> M bool.

Hypothesis call_counts :
  forall u w,
    same_counters w (snd (task u w)) /\
    (forall rest, fst (task u w) = Ok rest -> exists b, rest = K b).

Hypothesis block_counts :
  forall b w,
    w_success (snd (K b w)) = (w_success w + (if b then 1 else 0))%Z /\
    w_processed (snd (K b w)) = (w_processed w + 1)%Z.

Lemma executes_counts (slots : list slot) (w w' : world)
    (rs : list (pystr * result bool)) :
  executes workers task slots w rs w' ->
  (forall u rest, In (Held u rest) slots -> exists b, rest = K b) ->
  (w_success w <= w_success w'
   <= w_success w + (w_processed w' - w_processed w))%Z /\
  (w_processed w' <= w_processed w + Z.of_nat (length rs))%Z.
Proof.
  induction 1 as [w|before u after w rest w1 rs w' Hlen Hstep _ IH
                 |before u after w e w1 rs w' Hlen Hstep _ IH
                 |before u rest after w r w1 rs w' Hlen Hstep _ IH];
    intros Hheld.
  - cbn [length]. lia.
  - destruct (call_counts u w) as [[Hs Hp] Hrest].
    rewrite Hstep in Hs, Hp, Hrest. cbn [fst snd] in *.
    destruct IH as [IH1 IH2].
    + intros v c Hv. apply in_app_or in Hv as [Hv|[Hv|Hv]].
      * eapply Hheld. apply in_or_app. left. exact Hv.
      * injection Hv as _ <-. now apply Hrest.
      * eapply Hheld. apply in_or_app. right. right. exact Hv.
    + lia.
  - destruct (call_counts u w) as [[Hs Hp] _].
    rewrite Hstep in Hs, Hp. cbn [fst snd] in *.
    destruct IH as [IH1 IH2].
    + intros v c Hv. eapply Hheld. apply in_app_or in Hv as [Hv|Hv];
        [apply in_or_app; left; exact Hv
        | apply in_or_app; right; right; exact Hv].
    + cbn [length]. lia.
  - destruct (Hheld u rest (in_elt _ _ _)) as (b & ->).
    destruct (block_counts b w) as [Hs Hp].
    rewrite Hstep in Hs, Hp. cbn [fst snd] in *.
    destruct IH as [IH1 IH2].
    + intros v c Hv. eapply Hheld. apply in_app_or in Hv as [Hv|Hv];
        [apply in_or_app; left; exact Hv
        | apply in_or_app; right; right; exact Hv].
    + cbn [length]. destruct b; lia.
Qed.

Lemma pool_counts (units : list pystr) (w w' : world)
    (rs : list (pystr * result bool)) :
  executes workers task (map Queued units) w rs w' ->
  (w_success w <= w_success w'
   <= w_success w + (w_processed w' - w_processed w))%Z /\
  (w_processed w' <= w_processed w + Z.of_nat (length units))%Z.
Proof.
  intros Hex.
  replace (length units) with (length rs).
  - apply (executes_counts Hex).
    intros u rest Hin. apply in_map_iff in Hin as (v & Hv & _). discriminate.
  - apply executes_units, Permutation_length in Hex.
    now rewrite units_queued, length_map in Hex.
Qed.

End Counting.

(** Tasks whose first step always raises [e0]. *)
Lemma pool_all_raise (workers : nat) (task : pystr -> M (M bool)) (e0 : exn) :
  (forall u w, fst (task u w) = Raise e0) ->
  forall slots w rs w',
    executes workers task slots w rs w' ->
    forall units,
      slots = map Queued units ->
      map snd rs = map (fun _ => Raise e0) units.
Proof.
  intros Ht.
  induction 1 as [w|before u after w rest w1 rs w' Hlen Hstep _ IH
                 |before u after w e w1 rs w' Hlen Hstep _ IH
                 |before u rest after w r w1 rs w' Hlen Hstep _ IH];
    intros units Hu.
  - symmetry in Hu. apply map_eq_nil in Hu. now subst units.
  - specialize (Ht u w). rewrite Hstep in Ht. discriminate.
  - symmetry in Hu.
    apply map_eq_middle in Hu as (l1 & v & l2 & -> & E1 & Ev & E2).
    subst before after.
    specialize (Ht u w). rewrite Hstep in Ht. cbn [fst] in Ht.
    injection Ht as ->.
    rewrite <- map_app in IH. specialize (IH (l1 ++ l2) eq_refl).
    cbn [map snd]. rewrite IH, !map_app. cbn [map].
    clear. induction l1 as [|x l1 IHl]; cbn [map app];
      [reflexivity | now f_equal].
  - symmetry in Hu.
    apply map_eq_middle in Hu as (l1 & v & l2 & _ & _ & Ev & _).
    discriminate.
Qed.

(** ** Tasks *)

Lemma same_counters_refl (w : world) : same_counters w w.
Proof. split; reflexivity. Qed.

Lemma same_counters_trans (a b c : world) :
  same_counters a b -> same_counters b c -> same_counters a c.
Proof. unfold same_counters. intuition congruence. Qed.

Lemma sink_counters (f : callback) (arg : option bool) :
  preserves same_counters (sink f arg).
Proof.
  intros w. unfold sink. destruct (f (w_cb w) arg); split; reflexivity.
Qed.

Lemma relay_counters (cb : option callback) (arg : option bool) :
  preserves same_counters (Mp4.relay (option_map sink cb) arg).
Proof.
  destruct cb as [f|]; simpl.
  - apply sink_counters.
  - intros w. apply same_counters_refl.
Qed.

(** A unit leaves the counters of the batch alone, whatever the console and
    the callback do. *)
Lemma bili_unit_counters (out : console) (h : host)
    (json_path output_dir : pystr) (cb : option callback) :
  preserves same_counters
    (Bili.process_single_file_on out h json_path output_dir
       (option_map sink cb)).
Proof.
  apply preserves_bili_process_single_file;
    try (intros; split; reflexivity).
  - exact same_counters_trans.
  - intros g arg Hg. destruct cb as [f|]; [|discriminate].
    injection Hg as <-. apply sink_counters.
Qed.

Lemma mp4_unit_counters (out : console) (h : host)
    (video_path output_dir : pystr) (cb : option callback) :
  preserves same_counters
    (Mp4.process_single_file_on out h video_path output_dir
       (Some (Mp4.relay (option_map sink cb)))).
Proof.
  apply preserves_mp4_process_single_file;
    try (intros; split; reflexivity).
  - exact same_counters_trans.
  - intros g arg Hg. injection Hg as <-. apply relay_counters.
Qed.

(** The two steps of a task and the counters, whatever the console and the
    callback do. *)
Lemma bili_call_counts (out : console) (h : host) (output_dir : pystr)
    (cb : option callback) (u : pystr) (w : world) :
  same_counters w
    (snd (Bili.task_wrapper_on out h output_dir (option_map sink cb) u w)) /\
  (forall rest,
      fst (Bili.task_wrapper_on out h output_dir (option_map sink cb) u w)
      = Ok rest ->
      exists b, rest = Bili.counted b).
Proof.
  unfold Bili.task_wrapper_on, bind, ret.
  pose proof (bili_unit_counters out h u output_dir cb w) as H.
  destruct (Bili.process_single_file_on out h u output_dir
              (option_map sink cb) w) as [[b|e] w1]; cbn [fst snd] in *.
  - split; [exact H|]. intros rest E. injection E as <-. eauto.
  - split; [exact H|]. discriminate.
Qed.

Lemma bili_block_counts (b : bool) (w : world) :
  w_success (snd (Bili.counted b w)) = (w_success w + (if b then 1 else 0))%Z /\
  w_processed (snd (Bili.counted b w)) = (w_processed w + 1)%Z.
Proof. unfold Bili.counted, bind, ret. destruct b; simpl; split; lia. Qed.

Lemma mp4_call_counts (out : console) (h : host) (output_dir : pystr)
    (cb : option callback) (u : pystr) (w : world) :
  same_counters w
    (snd (Mp4.task_wrapper_on out h output_dir (option_map sink cb) u w)) /\
  (forall rest,
      fst (Mp4.task_wrapper_on out h output_dir (option_map sink cb) u w)
      = Ok rest ->
      exists b, rest = Mp4.counted (option_map sink cb) b).
Proof.
  unfold Mp4.task_wrapper_on, bind, ret.
  pose proof (mp4_unit_counters out h u output_dir cb w) as H.
  destruct (Mp4.process_single_file_on out h u output_dir
              (Some (Mp4.relay (option_map sink cb))) w) as [[b|e] w1];
    cbn [fst snd] in *.
  - split; [exact H|]. intros rest E. injection E as <-. eauto.
  - split; [exact H|]. discriminate.
Qed.

Lemma mp4_block_counts (cb : option callback) (b : bool) (w : world) :
  w_success (snd (Mp4.counted (option_map sink cb) b w))
  = (w_success w + (if b then 1 else 0))%Z /\
  w_processed (snd (Mp4.counted (option_map sink cb) b w))
  = (w_processed w + 1)%Z.
Proof.
  unfold Mp4.counted, bind, ret. destruct cb as [f|]; simpl.
  - unfold sink. simpl. destruct (f _ None); destruct b; simpl; split; lia.
  - destruct b; simpl; split; lia.
Qed.

(** The two steps of a task on a console that takes every line, with a
    callback that returns. *)
Lemma bili_call_returns (out : console) (h : host) (output_dir : pystr)
    (cb : option callback) (u : pystr) (w : world) :
  accepting out ->
  (forall f, cb = Some f -> quiet f) ->
  exists b w1,
    Bili.task_wrapper_on out h output_dir (option_map sink cb) u w
    = (Ok (Bili.counted b), w1) /\
    True /\ True /\
    w_cb w1 = w_cb w ++ bili_events (supplied cb) b /\
    same_counters w w1.
Proof.
  intros Ho Hq. pose proof (calm_opt_sink Hq) as Hc.
  destruct (@bili_unit_total out Ho _ _ Hc h u output_dir w)
    as (b & w1 & E & Hcb & Hs).
  unfold Bili.task_wrapper_on, bind, ret. rewrite E.
  exists b, w1. split; [reflexivity|]. split; [exact I|]. split; [exact I|].
  split; [|exact Hs].
  rewrite Hcb. unfold bili_events.
  destruct (supplied cb); now rewrite ?app_nil_r.
Qed.

Lemma bili_block_returns (b : bool) (w : world) :
  exists w1,
    Bili.counted b w = (Ok b, w1) /\
    w_fs w1 = w_fs w /\ w_enc w1 = w_enc w /\
    w_titles w1 = w_titles w /\ w_audios w1 = w_audios w /\
    w_cb w1 = w_cb w ++ [] /\
    w_success w1 = (w_success w + (if b then 1 else 0))%Z /\
    w_processed w1 = (w_processed w + 1)%Z.
Proof.
  unfold Bili.counted, bind, ret. eexists. split; [reflexivity|].
  simpl. rewrite app_nil_r. destruct b; repeat split; lia.
Qed.

Lemma relay_calm (cb : option callback) :
  (forall f, cb = Some f -> quiet f) ->
  calm (supplied cb) (Mp4.relay (option_map sink cb)).
Proof.
  intros Hq arg w. destruct cb as [f|]; simpl; [|reflexivity].
  apply sink_calm, Hq. reflexivity.
Qed.

Lemma mp4_call_returns (out : console) (h : host) (output_dir : pystr)
    (cb : option callback) (u : pystr) (w : world) :
  accepting out ->
  (forall f, cb = Some f -> quiet f) ->
  exists b w1,
    Mp4.task_wrapper_on out h output_dir (option_map sink cb) u w
    = (Ok (Mp4.counted (option_map sink cb) b), w1) /\
    True /\ True /\
    w_cb w1 = w_cb w ++ bili_events (supplied cb) b /\
    same_counters w w1.
Proof.
  intros Ho Hq.
  assert (Hc : calm_opt (supplied cb) (Some (Mp4.relay (option_map sink cb))))
    by (apply relay_calm, Hq).
  destruct (@mp4_unit_total out Ho _ _ Hc h u output_dir w)
    as (b & w1 & E & Hcb & Hs).
  unfold Mp4.task_wrapper_on, bind, ret. rewrite E.
  exists b, w1. split; [reflexivity|]. split; [exact I|]. split; [exact I|].
  split; [|exact Hs].
  rewrite Hcb. unfold bili_events.
  destruct (supplied cb); now rewrite ?app_nil_r.
Qed.

Lemma mp4_block_returns (cb : option callback) (b : bool) (w : world) :
  (forall f, cb = Some f -> quiet f) ->
  exists w1,
    Mp4.counted (option_map sink cb) b w = (Ok b, w1) /\
    w_fs w1 = w_fs w /\ w_enc w1 = w_enc w /\
    w_cb w1 = w_cb w ++ (if supplied cb then [None] else []) /\
    w_success w1 = (w_success w + (if b then 1 else 0))%Z /\
    w_processed w1 = (w_processed w + 1)%Z.
Proof.
  intros Hq. unfold Mp4.counted, bind, ret. destruct cb as [f|]; simpl.
  - unfold sink. simpl. rewrite (Hq f eq_refl).
    eexists. split; [reflexivity|]. simpl. destruct b; repeat split; lia.
  - eexists. split; [reflexivity|]. simpl. rewrite app_nil_r.
    destruct b; repeat split; lia.
Qed.

(** ** Batches *)

Lemma set_fs_same (w : world) : set_fs (w_fs w) w = w.
Proof. destruct w; reflexivity. Qed.

Lemma set_fs_eq (fs : node) (w : world) : fs = w_fs w -> set_fs fs w = w.
Proof. intros ->. apply set_fs_same. Qed.

Lemma ensure_dir_bind {A : Type} (output_dir : pystr) (k : M A) (w : world) :
  (ex <- exists_ output_dir ;;
   (if ex then ret tt else makedirs output_dir false) ;; k) w
  = match ensure_dir (w_fs w) output_dir with
    | Ok fs1 => k (set_fs fs1 w)
    | Raise e => (Raise e, w)
    end.
Proof.
  unfold bind, exists_, ensure_dir.
  destruct (path_exists (w_fs w) output_dir).
  - unfold ret. now rewrite set_fs_same.
  - unfold makedirs. destruct (fs_makedirs (w_fs w) output_dir false); reflexivity.
Qed.

Lemma bili_default_workers_pure (h : host) (mw : option Z) (w w0 : world) :
  Bili.default_workers h mw w = (fst (Bili.default_workers h mw w0), w).
Proof.
  unfold Bili.default_workers. destruct mw; [reflexivity|].
  destruct (cpu_count h); reflexivity.
Qed.

Lemma mp4_default_workers_pure (h : host) (mw : option Z) (w w0 : world) :
  Mp4.default_workers h mw w = (fst (Mp4.default_workers h mw w0), w).
Proof.
  unfold Mp4.default_workers. destruct mw; [reflexivity|].
  destruct (cpu_count h); reflexivity.
Qed.

Lemma reraise_first_ok (bs : list bool) (w : world) :
  Bili.reraise_first (map Ok bs) w = (Ok tt, w).
Proof. induction bs; simpl; [reflexivity | exact IHbs]. Qed.

Lemma reraise_first_world (rs : list (result bool)) (w : world) :
  snd (Bili.reraise_first rs w) = w.
Proof.
  induction rs as [|[b|e] rs IH]; simpl; auto.
Qed.

Lemma report_failures_ok (out : console) (bs : list bool) (w : world) :
  Mp4.report_failures_on out (map Ok bs) w = (Ok tt, w).
Proof. induction bs; simpl; [reflexivity | exact IHbs]. Qed.

(** Reading the futures of [mp4Tomp3.py] changes the console only. *)
Lemma report_failures_frame (out : console) (rs : list (result bool))
    (w : world) :
  let w' := snd (Mp4.report_failures_on out rs w) in
  same_obs w w' /\ w_fs w' = w_fs w /\ w_enc w' = w_enc w.
Proof.
  revert w; induction rs as [|[b|e] rs IH]; intros w; simpl.
  - repeat split.
  - apply IH.
  - unfold bind, print_on. destruct (out (w_log w) (LogTaskException e)).
    + repeat split.
    + specialize (IH (add_log (LogTaskException e) w)).
      destruct (Mp4.report_failures_on out rs
                  (add_log (LogTaskException e) w)) as [[u|e'] w'];
        exact IH.
Qed.

Lemma report_failures_run (rs : list (result bool)) (w : world) :
  exists w', Mp4.report_failures_on terminal rs w = (Ok tt, w') /\ same_obs w w' /\
             w_fs w' = w_fs w /\ w_enc w' = w_enc w.
Proof.
  revert w; induction rs as [|[b|e] rs IH]; intros w; simpl.
  - exists w. repeat split.
  - apply IH.
  - unfold bind. rewrite (print_accepted _ _ terminal_accepting).
    destruct (IH (add_log (LogTaskException e) w)) as (w' & E & Ho & Hf & He).
    rewrite E. exists w'. repeat split; try apply Ho; assumption.
Qed.

(** The futures that returned, with their units. *)
Lemma results_ok (rs : list (pystr * result bool)) :
  forall bs,
    map snd rs = map Ok bs ->
    exists outcomes : list (pystr * bool),
      rs = map (fun o => (fst o, Ok (snd o))) outcomes /\
      map snd outcomes = bs /\ map fst outcomes = map fst rs.
Proof.
  induction rs as [|[u r] rs IH]; intros [|b bs] H; try discriminate.
  - exists []. auto.
  - cbn [map snd] in H. injection H as -> H.
    destruct (IH bs H) as (outcomes & -> & E1 & E2).
    exists ((u, b) :: outcomes). cbn [map fst snd].
    rewrite E1, E2. auto.
Qed.

Section BiliBatch.

Variable out : console.
Variable h : host.
Variable input_dirs : list pystr.
Variable output_dir : pystr.
Variable max_workers : option Z.
Variable w : world.
Variable fs1 : node.
Hypothesis dir_ok : ensure_dir (w_fs w) output_dir = Ok fs1.

Let units := flat_map (Bili.find_entry_json_files fs1) input_dirs.
Let total := Z.of_nat (length units).
Let start := set_counters 0 0 (set_fs fs1 w).

(** No unit: nothing happens but the message. *)
Lemma bili_batch_empty (cb : option pyfun) :
  units = [] ->
  Bili.process_folders_parallel_on out h input_dirs output_dir cb max_workers w
  = match out (w_log w) LogNothingFound with
    | None => (Ok (0, 0)%Z, add_log LogNothingFound (set_fs fs1 w))
    | Some e => (Raise e, set_fs fs1 w)
    end.
Proof.
  intros Hu. unfold Bili.process_folders_parallel_on.
  rewrite ensure_dir_bind, dir_ok. unfold bind at 1, get_fs.
  change (w_fs (set_fs fs1 w)) with fs1. fold units. rewrite Hu.
  cbn [length Z.of_nat Z.eqb]. unfold bind, print_on, ret.
  change (w_log (set_fs fs1 w)) with (w_log w).
  destruct (out (w_log w) LogNothingFound); reflexivity.
Qed.

(** Some units and a pool of positive size: the pool makes one of its runs,
    and the futures are read. *)
Lemma bili_batch_pool (cb : option pyfun) (n : Z) :
  units <> [] ->
  fst (Bili.default_workers h max_workers w) = Ok n -> (1 <= n)%Z ->
  exists rs w2,
    executes (Z.to_nat n) (Bili.task_wrapper_on out h output_dir cb)
      (map Queued units) start rs w2 /\
    Bili.process_folders_parallel_on out h input_dirs output_dir cb
      max_workers w
    = (Bili.reraise_first (map snd rs) ;;
       success <- (fun w0 => (Ok (w_success w0), w0)) ;;
       ret (total, success)) w2.
Proof.
  intros Hne Hn Hpos.
  destruct (@thread_pool_runs h n (Bili.task_wrapper_on out h output_dir cb)
              units start Hpos) as (rs & w2 & Et & Hex).
  exists rs, w2. split; [exact Hex|].
  unfold Bili.process_folders_parallel_on.
  rewrite ensure_dir_bind, dir_ok. unfold bind at 1, get_fs.
  change (w_fs (set_fs fs1 w)) with fs1. fold units. fold total.
  replace (total =? 0)%Z with false
    by (symmetry; apply Z.eqb_neq; unfold total; destruct units;
        [congruence | simpl; lia]).
  unfold bind at 1.
  rewrite (bili_default_workers_pure h max_workers (set_fs fs1 w) w), Hn.
  cbv beta iota. unfold bind at 1. cbv beta iota.
  unfold bind at 1. fold start. rewrite Et. reflexivity.
Qed.

(** With a console that takes every line, a callback that returns and a pool
    of positive size, the batch returns the number of units and the number
    of [True] among their outcomes, each unit having reported once. *)
Lemma bili_batch_returns (cb : option callback) (n : Z) :
  accepting out ->
  (forall f, cb = Some f -> quiet f) ->
  units <> [] ->
  fst (Bili.default_workers h max_workers w) = Ok n -> (1 <= n)%Z ->
  exists rs bs cs w',
    Bili.process_folders_parallel_on out h input_dirs output_dir
      (option_map sink cb) max_workers w
    = (Ok (total, count_true bs), w') /\
    executes (Z.to_nat n)
      (Bili.task_wrapper_on out h output_dir (option_map sink cb))
      (map Queued units) start rs w' /\
    map snd rs = map Ok bs /\
    length bs = length units /\
    w_cb w' = w_cb w ++ (if supplied cb then map Some (flags_of cs) else []) /\
    Permutation (flags_of cs) bs /\
    w_success w' = count_true bs /\
    w_processed w' = total.
Proof.
  intros Ho Hq Hne Hn Hpos.
  destruct (@bili_batch_pool (option_map sink cb) n Hne Hn Hpos)
    as (rs & w2 & Hex & E).
  destruct (@pool_returning (Z.to_nat n)
              (Bili.task_wrapper_on out h output_dir (option_map sink cb))
              Bili.counted (fun _ => True) (fun _ => True) (fun _ => True)
              (bili_events (supplied cb)) [])
    with (units := units) (w := start) (w' := w2) (rs := rs)
    as (bs & cs & Ers & _ & _ & Hl & Hcb & _ & Hperm & Hs & Hp).
  - intros u w0 _ _. apply bili_call_returns; assumption.
  - intros b w0 _.
    destruct (bili_block_returns b w0) as (w1 & Ek & _ & _ & _ & _ & H).
    exists w1. split; [exact Ek|]. split; [exact I | exact H].
  - exact Hex.
  - intros; exact I.
  - exact I.
  - exists rs, bs, cs, w2. rewrite E, Ers.
    unfold bind at 1. rewrite reraise_first_ok. unfold bind, ret.
    rewrite Hs. cbn [start w_success set_counters].
    split; [reflexivity|]. split; [exact Hex|]. split; [reflexivity|].
    split; [exact Hl|]. split.
    + rewrite Hcb. cbn [start w_cb set_counters set_fs]. f_equal.
      unfold bili_events, flags_of. clear.
      induction cs as [|[b|] cs IH]; cbn [flat_map app map];
        destruct (supplied cb); cbn [app map] in *;
        rewrite ?IH; reflexivity.
    + split; [exact Hperm|]. split; [reflexivity|].
      rewrite Hp, Hl. cbn [start w_processed set_counters]. unfold total. lia.
Qed.

(** Whatever the console and the callback do, a batch that returns has
    counted the units found and no more successes than units. *)
Lemma bili_batch_bounds (cb : option callback) (t s : Z) (w' : world) :
  Bili.process_folders_parallel_on out h input_dirs output_dir
    (option_map sink cb) max_workers w = (Ok (t, s), w') ->
  t = total /\ (0 <= s <= t)%Z.
Proof.
  unfold Bili.process_folders_parallel_on.
  rewrite ensure_dir_bind, dir_ok. unfold bind at 1, get_fs.
  change (w_fs (set_fs fs1 w)) with fs1. fold units. fold total.
  destruct (total =? 0)%Z eqn:Ez.
  - unfold bind, print_on, ret.
    destruct (out _ LogNothingFound); [discriminate|].
    intros H. injection H as <- <- _. apply Z.eqb_eq in Ez. lia.
  - unfold bind at 1.
    rewrite (bili_default_workers_pure h max_workers (set_fs fs1 w) w).
    destruct (fst (Bili.default_workers h max_workers w)) as [n|e];
      [|discriminate].
    cbv beta iota. unfold bind at 1. cbv beta iota. unfold bind at 1.
    fold start.
    destruct (n <=? 0)%Z eqn:En;
      [unfold thread_pool; rewrite En; discriminate|].
    apply Z.leb_gt in En.
    destruct (@thread_pool_runs h n
                (Bili.task_wrapper_on out h output_dir (option_map sink cb))
                units start ltac:(lia)) as (rs & w2 & Et & Hex).
    rewrite Et.
    pose proof (@pool_counts (Z.to_nat n) _ Bili.counted
                  (bili_call_counts out h output_dir cb) bili_block_counts
                  units start w2 rs Hex) as Hc.
    cbn [start w_success w_processed set_counters] in Hc.
    unfold bind at 1.
    pose proof (reraise_first_world (map snd rs) w2) as Hw.
    destruct (Bili.reraise_first (map snd rs) w2) as [[u|e] w3];
      [|discriminate].
    simpl in Hw. subst w3. unfold bind, ret.
    intros H. injection H as <- <- _. unfold total. lia.
Qed.

End BiliBatch.

Section Mp4Batch.

Variable out : console.
Variable h : host.
Variable input_dirs : list pystr.
Variable output_dir : pystr.
Variable max_workers : option Z.
Variable w : world.
Variable fs1 : node.
Hypothesis dir_ok : ensure_dir (w_fs w) output_dir = Ok fs1.

Let units := flat_map (Mp4.find_video_files fs1) input_dirs.
Let total := Z.of_nat (length units).
Let start := set_counters 0 0 (set_fs fs1 w).

(** No unit: nothing happens but the message. *)
Lemma mp4_batch_empty (cb : option pyfun) :
  units = [] ->
  Mp4.process_folders_parallel_on out h input_dirs output_dir cb max_workers w
  = match out (w_log w) LogNothingFound with
    | None => (Ok (0, 0)%Z, add_log LogNothingFound (set_fs fs1 w))
    | Some e => (Raise e, set_fs fs1 w)
    end.
Proof.
  intros Hu. unfold Mp4.process_folders_parallel_on.
  rewrite ensure_dir_bind, dir_ok. unfold bind at 1, get_fs.
  change (w_fs (set_fs fs1 w)) with fs1. fold units. rewrite Hu.
  cbn [length Z.of_nat Z.eqb]. unfold bind, print_on, ret.
  change (w_log (set_fs fs1 w)) with (w_log w).
  destruct (out (w_log w) LogNothingFound); reflexivity.
Qed.

(** Some units and a pool of positive size: the pool makes one of its runs,
    and the futures are read. *)
Lemma mp4_batch_pool (cb : option pyfun) (n : Z) :
  units <> [] ->
  fst (Mp4.default_workers h max_workers w) = Ok n -> (1 <= n)%Z ->
  exists rs w2,
    executes (Z.to_nat n) (Mp4.task_wrapper_on out h output_dir cb)
      (map Queued units) start rs w2 /\
    Mp4.process_folders_parallel_on out h input_dirs output_dir cb
      max_workers w
    = (Mp4.report_failures_on out (map snd rs) ;;
       success <- (fun w0 => (Ok (w_success w0), w0)) ;;
       ret (total, success)) w2.
Proof.
  intros Hne Hn Hpos.
  destruct (@thread_pool_runs h n (Mp4.task_wrapper_on out h output_dir cb)
              units start Hpos) as (rs & w2 & Et & Hex).
  exists rs, w2. split; [exact Hex|].
  unfold Mp4.process_folders_parallel_on.
  rewrite ensure_dir_bind, dir_ok. unfold bind at 1, get_fs.
  change (w_fs (set_fs fs1 w)) with fs1. fold units. fold total.
  replace (total =? 0)%Z with false
    by (symmetry; apply Z.eqb_neq; unfold total; destruct units;
        [congruence | simpl; lia]).
  unfold bind at 1.
  rewrite (mp4_default_workers_pure h max_workers (set_fs fs1 w) w), Hn.
  cbv beta iota. unfold bind at 1. cbv beta iota.
  unfold bind at 1. fold start. rewrite Et. reflexivity.
Qed.

(** With a console that takes every line, a callback that returns and a pool
    of positive size, the batch returns the number of units and the number
    of [True] among their outcomes; the callback has received the flag of
    every unit and, after it, a [None]. *)
Lemma mp4_batch_returns (cb : option callback) (n : Z) :
  accepting out ->
  (forall f, cb = Some f -> quiet f) ->
  units <> [] ->
  fst (Mp4.default_workers h max_workers w) = Ok n -> (1 <= n)%Z ->
  exists rs bs cs w',
    Mp4.process_folders_parallel_on out h input_dirs output_dir
      (option_map sink cb) max_workers w
    = (Ok (total, count_true bs), w') /\
    executes (Z.to_nat n)
      (Mp4.task_wrapper_on out h output_dir (option_map sink cb))
      (map Queued units) start rs w' /\
    map snd rs = map Ok bs /\
    length bs = length units /\
    w_cb w' = w_cb w ++ (if supplied cb then cs else []) /\
    paired (Z.to_nat n) 0 cs = true /\
    Permutation (flags_of cs) bs /\
    w_success w' = count_true bs /\
    w_processed w' = total.
Proof.
  intros Ho Hq Hne Hn Hpos.
  destruct (@mp4_batch_pool (option_map sink cb) n Hne Hn Hpos)
    as (rs & w2 & Hex & E).
  destruct (@pool_returning (Z.to_nat n)
              (Mp4.task_wrapper_on out h output_dir (option_map sink cb))
              (Mp4.counted (option_map sink cb))
              (fun _ => True) (fun _ => True) (fun _ => True)
              (bili_events (supplied cb))
              (if supplied cb then [None] else []))
    with (units := units) (w := start) (w' := w2) (rs := rs)
    as (bs & cs & Ers & _ & _ & Hl & Hcb & Hpair & Hperm & Hs & Hp).
  - intros u w0 _ _. apply mp4_call_returns; assumption.
  - intros b w0 _.
    destruct (@mp4_block_returns cb b w0 Hq) as (w1 & Ek & _ & _ & H).
    exists w1. split; [exact Ek|]. split; [exact I | exact H].
  - exact Hex.
  - intros; exact I.
  - exact I.
  - exists rs, bs, cs, w2. rewrite E, Ers.
    unfold bind at 1. rewrite report_failures_ok. unfold bind, ret.
    rewrite Hs. cbn [start w_success set_counters].
    split; [reflexivity|]. split; [exact Hex|]. split; [reflexivity|].
    split; [exact Hl|]. split.
    + rewrite Hcb. cbn [start w_cb set_counters set_fs]. f_equal.
      unfold bili_events. clear.
      induction cs as [|[b|] cs IH]; cbn [flat_map app];
        destruct (supplied cb); cbn [app] in *;
        rewrite ?IH; reflexivity.
    + split; [exact Hpair|]. split; [exact Hperm|]. split; [reflexivity|].
      rewrite Hp, Hl. cbn [start w_processed set_counters]. unfold total. lia.
Qed.

(** Whatever the console and the callback do, a batch that returns has
    counted the units found and no more successes than units. *)
Lemma mp4_batch_bounds (cb : option callback) (t s : Z) (w' : world) :
  Mp4.process_folders_parallel_on out h input_dirs output_dir
    (option_map sink cb) max_workers w = (Ok (t, s), w') ->
  t = total /\ (0 <= s <= t)%Z.
Proof.
  unfold Mp4.process_folders_parallel_on.
  rewrite ensure_dir_bind, dir_ok. unfold bind at 1, get_fs.
  change (w_fs (set_fs fs1 w)) with fs1. fold units. fold total.
  destruct (total =? 0)%Z eqn:Ez.
  - unfold bind, print_on, ret.
    destruct (out _ LogNothingFound); [discriminate|].
    intros H. injection H as <- <- _. apply Z.eqb_eq in Ez. lia.
  - unfold bind at 1.
    rewrite (mp4_default_workers_pure h max_workers (set_fs fs1 w) w).
    destruct (fst (Mp4.default_workers h max_workers w)) as [n|e];
      [|discriminate].
    cbv beta iota. unfold bind at 1. cbv beta iota. unfold bind at 1.
    fold start.
    destruct (n <=? 0)%Z eqn:En;
      [unfold thread_pool; rewrite En; discriminate|].
    apply Z.leb_gt in En.
    destruct (@thread_pool_runs h n
                (Mp4.task_wrapper_on out h output_dir (option_map sink cb))
                units start ltac:(lia)) as (rs & w2 & Et & Hex).
    rewrite Et.
    pose proof (@pool_counts (Z.to_nat n) _ (Mp4.counted (option_map sink cb))
                  (mp4_call_counts out h output_dir cb) (mp4_block_counts cb)
                  units start w2 rs Hex) as Hc.
    cbn [start w_success w_processed set_counters] in Hc.
    unfold bind at 1.
    pose proof (report_failures_frame out (map snd rs) w2)
      as ((_ & Hs3 & Hp3) & _).
    destruct (Mp4.report_failures_on out (map snd rs) w2) as [[u|e] w3];
      [|discriminate].
    cbn [snd] in Hs3, Hp3. unfold bind, ret.
    intros H. injection H as <- <- _. unfold total. rewrite Hs3. lia.
Qed.

End Mp4Batch.

(** ** The tally of a batch (C3) and the events it emits (C9) *)

Lemma assoc_app_new {A : Type} (k : pystr) (v : A) (l : list (pystr * A)) :
  assoc k l = None -> assoc k (l ++ [(k, v)]) = Some v.
Proof.
  induction l as [|[k' v'] l IH]; simpl; intros H.
  - now rewrite str_eqb_refl.
  - destruct (str_eqb k k'); [discriminate | auto].
Qed.

Lemma mkdirs_made (cs : list pystr) :
  forall n n', mkdirs cs n = Ok n' -> exists es, fs_lookup cs n' = Some (Dir es).
Proof.
  induction cs as [|c cs IH]; intros n n' H; simpl in H.
  - destruct n as [d|es]; [discriminate|]. injection H as <-. now exists es.
  - destruct n as [d|es]; [discriminate|].
    destruct (assoc c es) as [ch|] eqn:Ec.
    + destruct (mkdirs cs ch) as [ch'|e] eqn:Em; [|discriminate].
      injection H as <-. simpl. rewrite assoc_set_assoc. eapply IH, Em.
    + destruct (mkdirs cs (Dir [])) as [ch'|e] eqn:Em; [|discriminate].
      injection H as <-. simpl. rewrite (assoc_app_new _ ch' _ Ec). eapply IH, Em.
Qed.

(** After the first lines of a batch the output directory is there. *)
Lemma ensure_dir_exists (fs fs1 : node) (output_dir : pystr) :
  ensure_dir fs output_dir = Ok fs1 -> path_exists fs1 output_dir = true.
Proof.
  unfold ensure_dir. destruct (path_exists fs output_dir) eqn:Ex.
  - intros H. injection H as <-. exact Ex.
  - unfold fs_makedirs. rewrite Ex.
    destruct (is_empty output_dir) eqn:Ei; [discriminate|]. simpl.
    intros H. apply mkdirs_made in H as [es H].
    unfold path_exists, fs_stat. now rewrite Ei, H.
Qed.

(** With one worker the events come in pairs. *)
Lemma paired_one (events : list (option bool)) :
  paired 1 0 events = true ->
  events = flat_map (fun b => [Some b; None]) (flags_of events).
Proof.
  assert (H : forall n evs,
             length evs <= n -> paired 1 0 evs = true ->
             evs = flat_map (fun b => [Some b; None]) (flags_of evs)).
  { induction n as [|n IH]; intros [|[b|] [|[c|] evs]] Hl Hp;
      cbn [paired length] in *; try discriminate; try reflexivity; try lia.
    cbn [flags_of flat_map app]. fold (flags_of evs).
    f_equal. f_equal. apply IH; [lia | exact Hp]. }
  intros Hp. eapply H; [reflexivity | exact Hp].
Qed.

(** C3, as the code has it, for an output directory and input roots given as
    absolute paths in normal form. A batch whose output directory cannot be
    made raises. Otherwise, with [units] the files found under the input
    roots:
    a batch that returns [(total, success)] has [total = len(units)] and
    [0 <= success <= total], whatever the console, the encoder and the
    callback do; when no unit is found the batch prints its message and
    returns [(0, 0)], or raises what [print] raises, and nothing else has
    happened but that the output directory is there. On a console that takes
    every line, with a callback that returns and a pool of positive size, a
    batch with units returns after one of the runs of its pool in which the
    task of every unit returned: every unit has exactly one outcome, the
    value its call of [process_single_file] returned, [success] is the
    number of [True] among the outcomes and the counter of processed units
    ends at [total]. *)
Theorem batch_tally :
  forall (out : console) (h : host) (input_dirs : list pystr)
         (output_dir : pystr) (cb : option callback) (max_workers : option Z)
         (w : world),
    Forall (fun p => normal_path p = true) (output_dir :: input_dirs) ->
    let bili := Bili.process_folders_parallel_on out h input_dirs output_dir
                  (option_map sink cb) max_workers w in
    let mp4 := Mp4.process_folders_parallel_on out h input_dirs output_dir
                 (option_map sink cb) max_workers w in
    match ensure_dir (w_fs w) output_dir with
    | Raise e => bili = (Raise e, w) /\ mp4 = (Raise e, w)
    | Ok fs1 =>
        let descriptors :=
          flat_map (Bili.find_entry_json_files fs1) input_dirs in
        let videos := flat_map (Mp4.find_video_files fs1) input_dirs in
        let start := set_counters 0 0 (set_fs fs1 w) in
        let nothing_found :=
          match out (w_log w) LogNothingFound with
          | None => (Ok (0, 0)%Z, add_log LogNothingFound (set_fs fs1 w))
          | Some e => (Raise e, set_fs fs1 w)
          end in
        path_exists fs1 output_dir = true /\
        (forall t s w',
            bili = (Ok (t, s), w') ->
            t = Z.of_nat (length descriptors) /\ (0 <= s <= t)%Z) /\
        (forall t s w',
            mp4 = (Ok (t, s), w') ->
            t = Z.of_nat (length videos) /\ (0 <= s <= t)%Z) /\
        (descriptors = [] -> bili = nothing_found) /\
        (videos = [] -> mp4 = nothing_found) /\
        (accepting out ->
         (forall f, cb = Some f -> quiet f) ->
         forall n,
           descriptors <> [] ->
           fst (Bili.default_workers h max_workers w) = Ok n -> (1 <= n)%Z ->
           exists (outcomes : list (pystr * bool)) w',
             bili = (Ok (Z.of_nat (length descriptors),
                         count_true (map snd outcomes)), w') /\
             Permutation (map fst outcomes) descriptors /\
             executes (Z.to_nat n)
               (Bili.task_wrapper_on out h output_dir (option_map sink cb))
               (map Queued descriptors) start
               (map (fun o => (fst o, Ok (snd o))) outcomes) w' /\
             w_success w' = count_true (map snd outcomes) /\
             w_processed w' = Z.of_nat (length descriptors)) /\
        (accepting out ->
         (forall f, cb = Some f -> quiet f) ->
         forall n,
           videos <> [] ->
           fst (Mp4.default_workers h max_workers w) = Ok n -> (1 <= n)%Z ->
           exists (outcomes : list (pystr * bool)) w',
             mp4 = (Ok (Z.of_nat (length videos),
                        count_true (map snd outcomes)), w') /\
             Permutation (map fst outcomes) videos /\
             executes (Z.to_nat n)
               (Mp4.task_wrapper_on out h output_dir (option_map sink cb))
               (map Queued videos) start
               (map (fun o => (fst o, Ok (snd o))) outcomes) w' /\
             w_success w' = count_true (map snd outcomes) /\
             w_processed w' = Z.of_nat (length videos))
    end.
Proof.
  intros out h input_dirs output_dir cb max_workers w _ bili mp4.
  destruct (ensure_dir (w_fs w) output_dir) as [fs1|e] eqn:Ed.
  - intros descriptors videos start nothing_found.
    split; [eapply ensure_dir_exists; exact Ed|].
    split; [intros t s w' H; eapply bili_batch_bounds; eassumption|].
    split; [intros t s w' H; eapply mp4_batch_bounds; eassumption|].
    split; [intros H; apply bili_batch_empty; assumption|].
    split; [intros H; apply mp4_batch_empty; assumption|].
    split.
    + intros Ho Hq n Hne Hn Hp.
      destruct (@bili_batch_returns out h input_dirs output_dir max_workers w
                  fs1 Ed cb n Ho Hq Hne Hn Hp)
        as (rs & bs & cs & w' & E & Hex & Ers & Hl & _ & _ & Hs & Hproc).
      destruct (@results_ok rs bs Ers) as (outcomes & -> & <- & Hu).
      exists outcomes, w'.
      split; [exact E|]. split.
      { rewrite Hu. apply executes_units in Hex.
        now rewrite units_queued in Hex. }
      split; [exact Hex|]. split; assumption.
    + intros Ho Hq n Hne Hn Hp.
      destruct (@mp4_batch_returns out h input_dirs output_dir max_workers w
                  fs1 Ed cb n Ho Hq Hne Hn Hp)
        as (rs & bs & cs & w' & E & Hex & Ers & Hl & _ & _ & _ & Hs & Hproc).
      destruct (@results_ok rs bs Ers) as (outcomes & -> & <- & Hu).
      exists outcomes, w'.
      split; [exact E|]. split.
      { rewrite Hu. apply executes_units in Hex.
        now rewrite units_queued in Hex. }
      split; [exact Hex|]. split; assumption.
  - unfold bili, mp4, Bili.process_folders_parallel_on,
      Mp4.process_folders_parallel_on.
    rewrite !ensure_dir_bind, Ed. split; reflexivity.
Qed.

(** Two videos, an empty output directory, four processors: the batch
    returns [(2, 2)]; no descriptor under [/out]: [(0, 0)]. *)
Lemma batch_tally_witness :
  (exists (outcomes : list (pystr * bool)) w',
      Mp4.process_folders_parallel_on terminal (machine encoder_ok 4)
        [py "/in"] (py "/out") (Some (sink cb_quiet)) None
        (fresh_world sample_fs)
      = (Ok (2, count_true (map snd outcomes))%Z, w') /\
      Permutation (map fst outcomes) [py "/in/clip.mp4"; py "/in/d/song.mp4"] /\
      w_processed w' = 2%Z) /\
  Bili.process_folders_parallel_on terminal (machine encoder_ok 4) [py "/out"]
    (py "/out") (Some (sink cb_quiet)) None (fresh_world sample_fs)
  = (Ok (0, 0)%Z, add_log LogNothingFound (fresh_world sample_fs)).
Proof.
  assert (Hq : forall f, Some cb_quiet = Some f -> quiet f)
    by (intros f Hf; injection Hf as <-; exact cb_quiet_quiet).
  split.
  - pose proof (@batch_tally terminal (machine encoder_ok 4) [py "/in"]
                  (py "/out") (Some cb_quiet) None (fresh_world sample_fs)
                  ltac:(repeat constructor))
      as H.
    cbv zeta in H.
    change (ensure_dir (w_fs (fresh_world sample_fs)) (py "/out"))
      with (Ok sample_fs) in H.
    destruct H as (_ & _ & _ & _ & _ & _ & H).
    assert (Ev : flat_map (Mp4.find_video_files sample_fs) [py "/in"]
                 = [py "/in/clip.mp4"; py "/in/d/song.mp4"])
      by (vm_compute; reflexivity).
    rewrite Ev in H.
    destruct (H terminal_accepting Hq 3%Z
                ltac:(discriminate) eq_refl ltac:(lia))
      as (outcomes & w' & E & Hu & _ & _ & Hp).
    exists outcomes, w'. split; [exact E|]. split; [exact Hu | exact Hp].
  - pose proof (@batch_tally terminal (machine encoder_ok 4) [py "/out"]
                  (py "/out") (Some cb_quiet) None (fresh_world sample_fs)
                  ltac:(repeat constructor))
      as H.
    cbv zeta in H.
    change (ensure_dir (w_fs (fresh_world sample_fs)) (py "/out"))
      with (Ok sample_fs) in H.
    destruct H as (_ & _ & _ & H & _).
    exact (H eq_refl).
Defined.

(** C3 as stated fails. With a callback that raises, both videos are
    converted, their tasks raise before they reach the lock, and the batch
    of [mp4Tomp3.py] returns [(2, 0)] with no unit counted as processed: no
    outcome has come into the tally. With a console that cannot print the
    message, a batch that finds nothing raises instead of returning
    [(0, 0)]. *)
Lemma units_left_out_of_the_tally :
  (let run :=
     Mp4.process_folders_parallel (machine encoder_ok 4) [py "/in"] (py "/out")
       (Some (sink cb_raising)) None (fresh_world sample_fs) in
   fst run = Ok (2, 0)%Z /\ w_processed (snd run) = 0%Z /\
   length (w_enc (snd run)) = 4) /\
  fst (Bili.process_folders_parallel_on ascii_console (machine encoder_ok 4)
         [py "/out"] (py "/out") None None (fresh_world sample_fs))
  = Raise ValueError.
Proof. repeat split; vm_compute; reflexivity. Qed.

(** C9, as the code has it. On a console that takes every line, with a
    callback that returns and a pool of positive size: the scheduler of
    [biliAudioToMp3_.py] passes the callback one event per unit, the unit's
    flag; the scheduler of [mp4Tomp3.py] passes it two events per unit, the
    unit's flag and, later, [None]. The [None] of a unit comes after its
    flag, but flags of other units may come in between: with [n] workers up
    to [n] flags wait for their [None]; with one worker the two events of a
    unit follow each other. *)
Theorem events_per_unit :
  forall (out : console) (h : host) (input_dirs : list pystr)
         (output_dir : pystr) (f : callback) (max_workers : option Z)
         (w : world) (fs1 : node),
    accepting out ->
    quiet f ->
    ensure_dir (w_fs w) output_dir = Ok fs1 ->
    (forall n,
        fst (Bili.default_workers h max_workers w) = Ok n -> (1 <= n)%Z ->
        exists flags w',
          Bili.process_folders_parallel_on out h input_dirs output_dir
            (Some (sink f)) max_workers w
          = (Ok (Z.of_nat (length flags), count_true flags), w') /\
          length flags
          = length (flat_map (Bili.find_entry_json_files fs1) input_dirs) /\
          w_cb w' = w_cb w ++ map Some flags) /\
    (forall n,
        fst (Mp4.default_workers h max_workers w) = Ok n -> (1 <= n)%Z ->
        exists events w',
          Mp4.process_folders_parallel_on out h input_dirs output_dir
            (Some (sink f)) max_workers w
          = (Ok (Z.of_nat (length (flags_of events)),
                 count_true (flags_of events)), w') /\
          length (flags_of events)
          = length (flat_map (Mp4.find_video_files fs1) input_dirs) /\
          w_cb w' = w_cb w ++ events /\
          paired (Z.to_nat n) 0 events = true /\
          (n = 1%Z ->
           events = flat_map (fun b => [Some b; None]) (flags_of events))).
Proof.
  intros out h input_dirs output_dir f max_workers w fs1 Ho Hq Hd.
  assert (Hq' : forall g, Some f = Some g -> quiet g)
    by (intros g Hg; injection Hg as <-; exact Hq).
  split.
  - intros n Hn Hpos.
    destruct (flat_map (Bili.find_entry_json_files fs1) input_dirs)
      as [|u0 us] eqn:Hu.
    + exists [], (add_log LogNothingFound (set_fs fs1 w)).
      change (Some (sink f)) with (option_map sink (Some f)).
      rewrite (@bili_batch_empty out h input_dirs output_dir max_workers w
                 fs1 Hd _ Hu), Ho.
      cbn. rewrite app_nil_r. auto.
    + destruct (@bili_batch_returns out h input_dirs output_dir max_workers w
                  fs1 Hd (Some f) n Ho Hq' ltac:(rewrite Hu; discriminate)
                  Hn Hpos)
        as (rs & bs & cs & w' & E & _ & _ & Hl & Hcb & Hperm & _).
      exists (flags_of cs), w'.
      rewrite (Permutation_length Hperm), (count_true_perm Hperm), Hl, <- Hu.
      split; [exact E|]. split; [reflexivity | exact Hcb].
  - intros n Hn Hpos.
    destruct (flat_map (Mp4.find_video_files fs1) input_dirs)
      as [|u0 us] eqn:Hu.
    + exists [], (add_log LogNothingFound (set_fs fs1 w)).
      change (Some (sink f)) with (option_map sink (Some f)).
      rewrite (@mp4_batch_empty out h input_dirs output_dir max_workers w
                 fs1 Hd _ Hu), Ho.
      cbn. rewrite app_nil_r.
      repeat split; destruct (Z.to_nat n); reflexivity.
    + destruct (@mp4_batch_returns out h input_dirs output_dir max_workers w
                  fs1 Hd (Some f) n Ho Hq' ltac:(rewrite Hu; discriminate)
                  Hn Hpos)
        as (rs & bs & cs & w' & E & _ & _ & Hl & Hcb & Hpair & Hperm & _).
      exists cs, w'.
      rewrite (Permutation_length Hperm), (count_true_perm Hperm), Hl, <- Hu.
      split; [exact E|]. split; [reflexivity|]. split; [exact Hcb|].
      split; [exact Hpair|].
      intros ->. apply paired_one. exact Hpair.
Qed.

Lemma events_per_unit_witness :
  (exists flags w',
      Bili.process_folders_parallel_on terminal (machine encoder_ok 4)
        [py "/in"] (py "/out") (Some (sink cb_quiet)) None
        (fresh_world sample_fs)
      = (Ok (Z.of_nat (length flags), count_true flags), w') /\
      length flags = 1 /\
      w_cb w' = [] ++ map Some flags) /\
  (exists events w',
      Mp4.process_folders_parallel_on terminal (machine encoder_ok 4)
        [py "/in"] (py "/out") (Some (sink cb_quiet)) None
        (fresh_world sample_fs)
      = (Ok (Z.of_nat (length (flags_of events)),
             count_true (flags_of events)), w') /\
      length (flags_of events) = 2 /\
      w_cb w' = [] ++ events /\
      paired 3 0 events = true).
Proof.
  destruct (@events_per_unit terminal (machine encoder_ok 4) [py "/in"]
              (py "/out") cb_quiet None (fresh_world sample_fs) sample_fs
              terminal_accepting cb_quiet_quiet eq_refl) as [Hb Hm].
  split.
  - exact (Hb 3%Z eq_refl ltac:(lia)).
  - destruct (Hm 3%Z eq_refl ltac:(lia)) as (events & w' & E & Hl & Hcb & Hp & _).
    exists events, w'. auto.
Defined.

(** C9 as stated fails: for two videos the callback of [mp4Tomp3.py]
    receives four events, two of them [None]. *)
Lemma none_event_after_each_unit :
  let run :=
    Mp4.process_folders_parallel (machine encoder_ok 4) [py "/in"] (py "/out")
      (Some (sink cb_quiet)) None (fresh_world sample_fs) in
  fst run = Ok (2, 2)%Z /\
  w_cb (snd run) = [Some true; None; Some true; None].
Proof. split; vm_compute; reflexivity. Qed.

(** When the second task is started before the first has taken the lock,
    both flags come before both [None]. *)
Lemma flags_before_refreshes :
  let run :=
    Mp4.process_folders_parallel (eager_machine encoder_ok 4) [py "/in"]
      (py "/out") (Some (sink cb_quiet)) None (fresh_world sample_fs) in
  fst run = Ok (2, 2)%Z /\
  w_cb (snd run) = [Some true; Some true; None; None].
Proof. split; vm_compute; reflexivity. Qed.

(** ** Destinations already written (C1) *)

Lemma set_assoc_same {A : Type} (k : pystr) (v : A) (l : list (pystr * A)) :
  assoc k l = Some v -> set_assoc k v l = l.
Proof.
  induction l as [|[k' v'] l IH]; simpl; [discriminate|].
  destruct (str_eqb k k') eqn:E.
  - intros H. injection H as ->. apply str_eqb_eq in E. now subst.
  - intros H. now rewrite IH.
Qed.

Lemma mkdirs_existing (cs : list pystr) :
  forall n es, fs_lookup cs n = Some (Dir es) -> mkdirs cs n = Ok n.
Proof.
  induction cs as [|c cs IH]; intros n es H; simpl in *.
  - injection H as ->. reflexivity.
  - destruct n as [d|es0]; [discriminate|].
    destruct (assoc c es0) as [ch|] eqn:Ec; [|discriminate].
    rewrite (IH _ _ H). now rewrite set_assoc_same.
Qed.

Lemma fs_lookup_app (a b : list pystr) :
  forall n,
    fs_lookup (a ++ b) n
    = match fs_lookup a n with
      | Some m => fs_lookup b m
      | None => None
      end.
Proof.
  induction a as [|c a IH]; intros n; simpl; [reflexivity|].
  destruct n as [d|es]; [reflexivity|].
  destruct (assoc c es); [apply IH | reflexivity].
Qed.

(** If something is at [output_dir/name], making [output_dir] changes
    nothing. *)
Lemma makedirs_of_parent (fs : node) (output_dir name : pystr) :
  is_empty output_dir = false ->
  is_empty name = false -> plain_name name = true ->
  path_exists fs (path_join output_dir name) = true ->
  fs_makedirs fs output_dir true = Ok fs.
Proof.
  intros Ho Hn Hp Hex. unfold fs_makedirs. rewrite Ho. simpl.
  unfold path_exists, fs_stat in Hex.
  destruct (is_empty (path_join output_dir name)); [discriminate|].
  rewrite components_join in Hex;
    [| destruct name; [discriminate | congruence] | exact Hp].
  rewrite fs_lookup_app in Hex.
  destruct (fs_lookup (components output_dir) fs) as [m|] eqn:El;
    [|discriminate].
  destruct m as [d|es]; [simpl in Hex; discriminate|].
  eapply mkdirs_existing. exact El.
Qed.

Lemma plain_name_app (a b : pystr) :
  plain_name (a ++ b) = plain_name a && plain_name b.
Proof. unfold plain_name. apply forallb_app. Qed.

Lemma sanitize_plain (name : pystr) : plain_name (sanitize name) = true.
Proof.
  unfold plain_name. apply forallb_forall. intros c Hc.
  apply sanitize_valid in Hc. apply negb_true_iff.
  destruct (N.eqb c sep) eqn:E; [|reflexivity].
  apply N.eqb_eq in E. subst c. discriminate.
Qed.

Lemma is_empty_app_mp3 (name : pystr) : is_empty (name ++ py ".mp3") = false.
Proof. destruct name; reflexivity. Qed.

Lemma exists_nonempty_present (p : pystr) (w : world) :
  present_nonempty (w_fs w) p -> Mp4.exists_nonempty p w = (Ok true, w).
Proof.
  intros (Hex & size & Hs & Hpos).
  unfold Mp4.exists_nonempty, bind, exists_, getsize_, ret.
  rewrite Hex, Hs. apply N.ltb_lt in Hpos. now rewrite Hpos.
Qed.

Lemma path_exists_nonempty (fs : node) (p : pystr) :
  path_exists fs p = true -> is_empty p = false.
Proof.
  unfold path_exists, fs_stat. destruct (is_empty p); [discriminate | auto].
Qed.

Lemma mp4_unit_skips (r : bool) (cb : option pyfun) (h : host)
    (video_path output_dir : pystr) (w : world) :
  calm_opt r cb ->
  is_empty output_dir = false ->
  mp4_done (w_fs w) output_dir video_path ->
  Mp4.process_single_file_on terminal h video_path output_dir cb w
  = (Ok true,
     skipped r (path_join output_dir
                  (Mp4.get_video_name video_path ++ py ".mp3"))
       (add_log (LogProcessing video_path) w)).
Proof.
  intros Hc Ho (Hname & Hpres).
  unfold Mp4.process_single_file, Mp4.process_single_file_on, try_except, Mp4.process_body, Mp4.process_body_on.
  unfold bind at 1. unfold print_on at 1. unfold terminal at 1. cbv beta iota. rewrite Hname.
  unfold bind at 1. unfold makedirs at 1.
  change (w_fs (add_log (LogProcessing video_path) w)) with (w_fs w).
  rewrite (@makedirs_of_parent (w_fs w) output_dir
             (Mp4.get_video_name video_path ++ py ".mp3"));
    [| exact Ho | apply is_empty_app_mp3
     | rewrite plain_name_app; unfold Mp4.get_video_name;
       rewrite sanitize_plain; reflexivity
     | apply Hpres].
  cbv beta iota.
  rewrite (@set_fs_eq (w_fs w) (add_log (LogProcessing video_path) w) eq_refl).
  unfold bind at 1. rewrite exists_nonempty_present by exact Hpres.
  cbv beta iota. rewrite (@report_run r cb _ _ _ Hc). reflexivity.
Qed.

Lemma assoc_app {A : Type} (k : pystr) (l l' : list (pystr * A)) :
  assoc k (l ++ l')
  = match assoc k l with
    | Some v => Some v
    | None => assoc k l'
    end.
Proof.
  induction l as [|[k' v'] l IH]; simpl; [reflexivity|].
  destruct (str_eqb k k'); [reflexivity | exact IH].
Qed.

Lemma assoc_one {A : Type} (k k' : pystr) (v v' : A) :
  assoc k [(k', v')] = Some v -> k = k' /\ v = v'.
Proof.
  simpl. destruct (str_eqb k k') eqn:E; [|discriminate].
  intros H. injection H as ->. apply str_eqb_eq in E. now split.
Qed.

(** The cached lookups return what the functions compute, and keep the
    tables in agreement with the file system. *)
Lemma title_cached_agree (json_path : pystr) (w : world) :
  caches_agree w ->
  exists w1,
    Bili.extract_title_name_cached_on terminal json_path w
    = (Ok (title_read (w_fs w) json_path), w1) /\
    w_fs w1 = w_fs w /\ w_enc w1 = w_enc w /\ same_obs w w1 /\
    caches_agree w1.
Proof.
  intros [Ht Ha].
  destruct (assoc json_path (w_titles w)) as [v|] eqn:E.
  - exists w. unfold Bili.extract_title_name_cached, Bili.extract_title_name_cached_on. rewrite E.
    rewrite (Ht _ _ E). repeat split; assumption.
  - rewrite (extract_title_name_cached_miss _ _ E). unfold title_read.
    destruct (title_load (w_fs w) json_path) as [s|e] eqn:El;
      (eexists; split; [reflexivity|]; repeat split; simpl; try assumption;
       intros p v; rewrite assoc_app;
       destruct (assoc p (w_titles w)) eqn:Ep;
       [ intros H; injection H as <-; now apply Ht
       | intros H; apply assoc_one in H as [-> ->];
         unfold title_read; now rewrite El ]).
Qed.

Lemma audio_cached_agree (json_dir : pystr) (w : world) :
  caches_agree w ->
  exists w1,
    Bili.find_audio_file_cached json_dir w
    = (Ok (Bili.find_audio_file (w_fs w) json_dir), w1) /\
    w_fs w1 = w_fs w /\ w_enc w1 = w_enc w /\ same_obs w w1 /\
    caches_agree w1.
Proof.
  intros [Ht Ha]. unfold Bili.find_audio_file_cached.
  destruct (assoc json_dir (w_audios w)) as [v|] eqn:E.
  - exists w. rewrite (Ha _ _ E). repeat split; assumption.
  - eexists. split; [reflexivity|]. repeat split; simpl; try assumption.
    intros d v. rewrite assoc_app.
    destruct (assoc d (w_audios w)) eqn:Ed.
    + intros H. injection H as <-. now apply Ha.
    + intros H. apply assoc_one in H as [-> ->]. reflexivity.
Qed.

Lemma caches_agree_skipped (r : bool) (final_mp3 : pystr) (w : world) :
  caches_agree w -> caches_agree (skipped r final_mp3 w).
Proof. unfold skipped. destruct r; intros H; exact H. Qed.

Lemma bili_unit_skips (r : bool) (cb : option pyfun) (h : host)
    (json_path output_dir : pystr) (w : world) :
  calm_opt r cb ->
  is_empty output_dir = false ->
  caches_agree w ->
  bili_done (w_fs w) output_dir json_path ->
  exists w',
    Bili.process_single_file_on terminal h json_path output_dir cb w = (Ok true, w') /\
    w_fs w' = w_fs w /\ w_enc w' = w_enc w /\ caches_agree w' /\
    emits r w w' true.
Proof.
  intros Hc Ho Hagree (name & audio & Ht & Hne & Hplain & Ha & Hae & Hpres).
  destruct (title_cached_agree json_path Hagree)
    as (w1 & E1 & Hfs1 & Henc1 & Hobs1 & Hagree1).
  destruct (audio_cached_agree (dirname json_path) Hagree1)
    as (w2 & E2 & Hfs2 & Henc2 & Hobs2 & Hagree2).
  unfold Bili.process_single_file, Bili.process_single_file_on, try_except, Bili.process_body, Bili.process_body_on.
  unfold bind at 1. rewrite E1, Ht.
  destruct name as [|c s]; [discriminate|].
  unfold bind at 1. rewrite E2, Hfs1, Ha.
  destruct audio as [|a p]; [discriminate|].
  unfold bind at 1. unfold makedirs at 1.
  rewrite Hfs2, Hfs1.
  rewrite (@makedirs_of_parent (w_fs w) output_dir ((c :: s) ++ py ".mp3"));
    [| exact Ho | reflexivity
     | rewrite plain_name_app, Hplain; reflexivity
     | apply Hpres].
  cbv beta iota.
  rewrite (@set_fs_eq (w_fs w) w2) by congruence.
  unfold bind at 1.
  change (Bili.exists_nonempty) with (Mp4.exists_nonempty).
  rewrite exists_nonempty_present by (rewrite Hfs2, Hfs1; exact Hpres).
  cbv beta iota. rewrite (@report_run r cb _ _ _ Hc).
  eexists. split; [reflexivity|].
  assert (Hobs : same_obs w w2) by (eapply same_obs_trans; eassumption).
  destruct Hobs as (Hcb & Hs & Hp).
  destruct r; repeat split; try apply Hagree2;
    unfold add_cb, add_log;
    cbn [w_fs w_enc w_cb w_success w_processed]; congruence.
Qed.

Lemma count_true_all (bs : list bool) :
  Forall (fun b => b = true) bs -> count_true bs = Z.of_nat (length bs).
Proof.
  induction 1 as [|b bs Hb _ IH]; [reflexivity|].
  subst b. cbn [count_true length]. rewrite IH. lia.
Qed.

(** The first step of the task of a unit that is skipped. *)
Lemma mp4_task_skips (h : host) (output_dir : pystr) (cb : option callback)
    (u : pystr) (w : world) :
  (forall f, cb = Some f -> quiet f) ->
  is_empty output_dir = false ->
  mp4_done (w_fs w) output_dir u ->
  exists w',
    Mp4.task_wrapper_on terminal h output_dir (option_map sink cb) u w
    = (Ok (Mp4.counted (option_map sink cb) true), w') /\
    w_fs w' = w_fs w /\ w_enc w' = w_enc w /\
    w_cb w' = w_cb w ++ bili_events (supplied cb) true /\
    same_counters w w'.
Proof.
  intros Hq Ho Hdone.
  assert (Hc : calm_opt (supplied cb) (Some (Mp4.relay (option_map sink cb))))
    by (apply relay_calm, Hq).
  unfold Mp4.task_wrapper_on, bind.
  rewrite (@mp4_unit_skips _ _ h u output_dir w Hc Ho Hdone).
  unfold ret. eexists. split; [reflexivity|].
  unfold skipped, bili_events. destruct (supplied cb); simpl;
    rewrite ?app_nil_r; repeat split.
Qed.

Lemma bili_task_skips (h : host) (output_dir : pystr) (cb : option callback)
    (u : pystr) (w : world) :
  (forall f, cb = Some f -> quiet f) ->
  is_empty output_dir = false ->
  caches_agree w ->
  bili_done (w_fs w) output_dir u ->
  exists w',
    Bili.task_wrapper_on terminal h output_dir (option_map sink cb) u w
    = (Ok (Bili.counted true), w') /\
    (w_fs w' = w_fs w /\ w_enc w' = w_enc w /\ caches_agree w') /\
    w_cb w' = w_cb w ++ bili_events (supplied cb) true /\
    same_counters w w'.
Proof.
  intros Hq Ho Hagree Hdone.
  destruct (@bili_unit_skips _ _ h u output_dir w (calm_opt_sink Hq) Ho
              Hagree Hdone)
    as (w1 & E & Hfs & Henc & Hag & Hcb & Hs).
  unfold Bili.task_wrapper_on, bind, ret. rewrite E.
  eexists. split; [reflexivity|].
  split; [repeat split; try assumption; apply Hag|].
  split; [|exact Hs].
  rewrite Hcb. unfold bili_events.
  destruct (supplied cb); now rewrite ?app_nil_r.
Qed.

Section Rerun.

Variable h : host.
Variable input_dirs : list pystr.
Variable output_dir : pystr.
Variable cb : option callback.
Variable max_workers : option Z.
Variable w : world.
Hypothesis cb_quiet_or_absent : forall f, cb = Some f -> quiet f.
Hypothesis dir_there : path_exists (w_fs w) output_dir = true.

Lemma dir_there_ensured : ensure_dir (w_fs w) output_dir = Ok (w_fs w).
Proof. unfold ensure_dir. now rewrite dir_there. Qed.

(** Every video already converted: the batch counts them all as
    successes, and the encoder is not run. *)
Lemma mp4_batch_skips (n : Z) :
  fst (Mp4.default_workers h max_workers w) = Ok n -> (1 <= n)%Z ->
  let videos := flat_map (Mp4.find_video_files (w_fs w)) input_dirs in
  (forall v, In v videos -> mp4_done (w_fs w) output_dir v) ->
  exists w',
    Mp4.process_folders_parallel_on terminal h input_dirs output_dir
      (option_map sink cb) max_workers w
    = (Ok (Z.of_nat (length videos), Z.of_nat (length videos)), w') /\
    w_enc w' = w_enc w /\ w_fs w' = w_fs w.
Proof.
  intros Hn Hpos videos Hdone.
  assert (Hcases : videos = [] \/ videos <> [])
    by (destruct videos; [now left | right; discriminate]).
  destruct Hcases as [Hu|Hne].
  - rewrite (@mp4_batch_empty terminal h input_dirs output_dir max_workers w
               (w_fs w) dir_there_ensured (option_map sink cb) Hu).
    fold videos. rewrite Hu. eexists. split; [reflexivity|].
    split; reflexivity.
  - destruct (@mp4_batch_pool terminal h input_dirs output_dir max_workers w
                (w_fs w) dir_there_ensured (option_map sink cb) n Hne Hn Hpos)
      as (rs & w2 & Hex & E).
    rewrite set_fs_same in Hex.
    destruct (@pool_returning (Z.to_nat n)
                (Mp4.task_wrapper_on terminal h output_dir (option_map sink cb))
                (Mp4.counted (option_map sink cb))
                (fun w0 => w_fs w0 = w_fs w /\ w_enc w0 = w_enc w)
                (fun v => mp4_done (w_fs w) output_dir v)
                (fun b => b = true)
                (bili_events (supplied cb))
                (if supplied cb then [None] else []))
      with (units := videos) (w := set_counters 0 0 w) (w' := w2) (rs := rs)
      as (bs & cs & Ers & (Hfs & Henc) & HQ & Hl & _ & _ & _ & Hs & _).
    + intros u w0 HP [Hf He].
      destruct (@mp4_task_skips h output_dir cb u w0 cb_quiet_or_absent)
        as (w1 & E1 & Hfs & Henc & Hcb & Hs).
      * eapply path_exists_nonempty, dir_there.
      * rewrite Hf. exact HP.
      * exists true, w1. split; [exact E1|].
        split; [split; congruence|]. repeat split; try assumption; apply Hs.
    + intros b w0 [Hf He].
      destruct (@mp4_block_returns cb b w0 cb_quiet_or_absent)
        as (w1 & Ek & Hfs & Henc & H).
      exists w1. split; [exact Ek|]. split; [split; congruence | exact H].
    + exact Hex.
    + exact Hdone.
    + split; reflexivity.
    + rewrite E, Ers. unfold bind at 1. rewrite report_failures_ok.
      unfold bind, ret. exists w2.
      rewrite Hs, (count_true_all HQ), Hl. simpl w_success.
      split; [reflexivity|]. split; assumption.
Qed.

(** Every descriptor already converted, the caches agreeing with the
    files: the same. *)
Lemma bili_batch_skips (n : Z) :
  fst (Bili.default_workers h max_workers w) = Ok n -> (1 <= n)%Z ->
  caches_agree w ->
  let descriptors :=
    flat_map (Bili.find_entry_json_files (w_fs w)) input_dirs in
  (forall u, In u descriptors -> bili_done (w_fs w) output_dir u) ->
  exists w',
    Bili.process_folders_parallel_on terminal h input_dirs output_dir
      (option_map sink cb) max_workers w
    = (Ok (Z.of_nat (length descriptors), Z.of_nat (length descriptors)), w') /\
    w_enc w' = w_enc w /\ w_fs w' = w_fs w.
Proof.
  intros Hn Hpos Hagree descriptors Hdone.
  assert (Hcases : descriptors = [] \/ descriptors <> [])
    by (destruct descriptors; [now left | right; discriminate]).
  destruct Hcases as [Hu|Hne].
  - rewrite (@bili_batch_empty terminal h input_dirs output_dir max_workers w
               (w_fs w) dir_there_ensured (option_map sink cb) Hu).
    fold descriptors. rewrite Hu. eexists. split; [reflexivity|].
    split; reflexivity.
  - destruct (@bili_batch_pool terminal h input_dirs output_dir max_workers w
                (w_fs w) dir_there_ensured (option_map sink cb) n Hne Hn Hpos)
      as (rs & w2 & Hex & E).
    rewrite set_fs_same in Hex.
    destruct (@pool_returning (Z.to_nat n)
                (Bili.task_wrapper_on terminal h output_dir
                   (option_map sink cb))
                Bili.counted
                (fun w0 => w_fs w0 = w_fs w /\ w_enc w0 = w_enc w /\
                           caches_agree w0)
                (fun u => bili_done (w_fs w) output_dir u)
                (fun b => b = true)
                (bili_events (supplied cb)) [])
      with (units := descriptors) (w := set_counters 0 0 w) (w' := w2)
           (rs := rs)
      as (bs & cs & Ers & (Hfs & Henc & _) & HQ & Hl & _ & _ & _ & Hs & _).
    + intros u w0 HP (Hf & He & Hag).
      destruct (@bili_task_skips h output_dir cb u w0 cb_quiet_or_absent)
        as (w1 & E1 & (Hfs & Henc & Hag1) & Hcb & Hs).
      * eapply path_exists_nonempty, dir_there.
      * exact Hag.
      * rewrite Hf. exact HP.
      * exists true, w1. split; [exact E1|].
        split; [repeat split; try congruence; apply Hag1|].
        repeat split; try assumption; apply Hs.
    + intros b w0 (Hf & He & Hag).
      destruct (bili_block_returns b w0)
        as (w1 & Ek & Hfs & Henc & Ht & Ha & H).
      exists w1. split; [exact Ek|]. split; [|exact H].
      split; [congruence|]. split; [congruence|].
      destruct Hag as [Hag1 Hag2]. split.
      * intros p v. rewrite Ht, Hfs. apply Hag1.
      * intros d v. rewrite Ha, Hfs. apply Hag2.
    + exact Hex.
    + exact Hdone.
    + repeat split; apply Hagree.
    + rewrite E, Ers. unfold bind at 1. rewrite reraise_first_ok.
      unfold bind, ret. exists w2.
      rewrite Hs, (count_true_all HQ), Hl. simpl w_success.
      split; [reflexivity|]. split; assumption.
Qed.

End Rerun.


Lemma caches_agree_fresh (fs : node) : caches_agree (fresh_world fs).
Proof. split; intros p v H; discriminate. Qed.

Lemma present_nonempty_100 (fs : node) (p : pystr) :
  path_exists fs p = true -> getsize fs p = Ok 100%N -> present_nonempty fs p.
Proof. intros H1 H2. split; [exact H1|]. exists 100%N. split; [exact H2 | lia]. Qed.



(** * Further properties of the two scripts *)

(** ** The caches *)


(** ** Titles that are no strings *)

Lemma str_in_singletons_length (s : pystr) (l : list N) :
  str_in s (map (fun x => [x]) l) = true -> length s = 1.
Proof.
  unfold str_in. rewrite existsb_exists. intros (x & Hx & E).
  apply in_map_iff in Hx as (c & <- & _).
  apply str_eqb_eq in E. now subst.
Qed.

Lemma join_valid_long_items (items : list pystr) :
  (forall s, In s items -> length s <> 1) ->
  Bili.join_valid (map JStr items) = Ok (concat items).
Proof.
  induction items as [|s items IH]; intros H; [reflexivity|].
  cbn [map Bili.join_valid]. rewrite IH by (intros t Ht; apply H; now right).
  destruct (str_in s (map (fun x => [x]) invalid_chars)) eqn:E; [|reflexivity].
  apply str_in_singletons_length in E. exfalso. apply (H s); [now left | exact E].
Qed.



(** ** Names that are empty *)



(** ** The runs of the encoder *)

Lemma mp4_unit_at_demux (h : host) (video_path output_dir : pystr)
    (cb : option pyfun) (w : world) (fs' : node) :
  let final_mp3 :=
    path_join output_dir (Mp4.get_video_name video_path ++ py ".mp3") in
  let start := set_fs fs' (add_log (LogProcessing video_path) w) in
  is_empty (Mp4.get_video_name video_path) = false ->
  fs_makedirs (w_fs w) output_dir true = Ok fs' ->
  fst (Mp4.exists_nonempty final_mp3 start) = Ok false ->
  Mp4.process_single_file_on terminal h video_path output_dir cb w
  = try_except
      (Mp4.convert_via_temp_on terminal h video_path final_mp3 (Mp4.temp_of final_mp3) cb)
      (fun e => print (LogUnexpected video_path e) ;;
                notify cb false ;; ret false) start.
Proof.
  intros final_mp3 start Hname Hmk Hskip.
  assert (Hskip' : Mp4.exists_nonempty final_mp3 start = (Ok false, start)).
  { revert Hskip. unfold Mp4.exists_nonempty, bind, exists_, getsize_, ret.
    destruct (path_exists (w_fs start) final_mp3); [|reflexivity].
    destruct (getsize (w_fs start) final_mp3); simpl; congruence. }
  unfold Mp4.process_single_file, Mp4.process_single_file_on, try_except, Mp4.process_body, Mp4.process_body_on.
  unfold bind at 1. unfold print_on at 1. unfold terminal at 1. cbv beta iota.
  rewrite Hname. unfold bind at 1. unfold makedirs at 1.
  change (w_fs (add_log (LogProcessing video_path) w)) with (w_fs w).
  rewrite Hmk. cbv beta iota.
  unfold bind at 1. fold final_mp3. fold start. rewrite Hskip'.
  reflexivity.
Qed.

Ltac finish_cleanup ER :=
  match type of ER with
  | context [Mp4.remove_temp_on terminal ?t ?w0] =>
      let w2 := fresh "w2" in
      let E := fresh "E" in
      let Hcb := fresh "Hcb" in
      let Henc := fresh "Henc" in
      destruct (remove_temp_run t w0) as (w2 & E & Hcb & Henc & _);
      rewrite E in ER; unfold try_except in ER; cbv beta iota in ER;
      rewrite ER; cbn [fst snd]; rewrite Henc
  end.



Lemma exists_nonempty_written (p : pystr) (w : world) :
  Bili.exists_nonempty p w = (Ok (written (w_fs w) p), w).
Proof.
  unfold Bili.exists_nonempty, written, bind, exists_, getsize_, ret.
  unfold getsize, path_exists.
  destruct (fs_stat (w_fs w) p) as [[d|es]|] eqn:E; cbv beta iota;
    rewrite ?E; reflexivity.
Qed.



(** ** Exceptions of the tasks of a batch *)

Lemma never_returns_bind {A B : Type} (c : M A) (k : A -> M B) :
  (forall a, never_returns (k a)) -> never_returns (bind c k).
Proof.
  intros Hk w b. unfold bind. destruct (c w) as [[a|e] w1].
  - apply Hk.
  - discriminate.
Qed.

Lemma never_returns_if {A : Type} (b : bool) (c1 c2 : M A) :
  never_returns c1 -> never_returns c2 -> never_returns (if b then c1 else c2).
Proof. destruct b; auto. Qed.

Section Raising.

Variable e0 : exn.
Variable f : callback.
Hypothesis f_raises : always_raises e0 f.

Lemma report_raises (flag : bool) (ev : event) (w : world) :
  fst ((print_on terminal ev ;; notify (Some (sink f)) flag ;; ret flag) w) = Raise e0.
Proof.
  change (Some (sink f)) with (option_map sink (Some f)).
  rewrite report_sink_run. simpl. now rewrite f_raises.
Qed.

Lemma report_never_returns (flag : bool) (ev : event) :
  never_returns (print_on terminal ev ;; notify (Some (sink f)) flag ;; ret flag).
Proof. intros w a. rewrite report_raises. discriminate. Qed.

Lemma notify_never_returns (flag : bool) :
  never_returns (notify (Some (sink f)) flag ;; ret flag).
Proof.
  intros w a. unfold bind, notify, sink. rewrite f_raises. discriminate.
Qed.

Lemma bili_body_never_returns (h : host) (json_path output_dir : pystr) :
  never_returns (Bili.process_body_on terminal h json_path output_dir (Some (sink f))).
Proof.
  unfold Bili.process_body, Bili.process_body_on.
  apply never_returns_bind. intros [[|c s]|]; try apply notify_never_returns.
  apply never_returns_bind. intros [[|a p]|]; try apply report_never_returns.
  apply never_returns_bind. intros _.
  apply never_returns_bind. intros [|]; [apply report_never_returns|].
  apply never_returns_bind. intros r.
  apply never_returns_if; apply report_never_returns.
Qed.

(** With a callback that always raises, a unit of [biliAudioToMp3_.py]
    raises the callback's exception. *)
Lemma bili_unit_raises (h : host) (json_path output_dir : pystr) (w : world) :
  fst (Bili.process_single_file_on terminal h json_path output_dir (Some (sink f)) w)
  = Raise e0.
Proof.
  unfold Bili.process_single_file, Bili.process_single_file_on, try_except.
  pose proof (@bili_body_never_returns h json_path output_dir w) as H.
  destruct (Bili.process_body_on terminal h json_path output_dir (Some (sink f)) w)
    as [[b|e] w1].
  - exfalso. apply (H b). reflexivity.
  - apply report_raises.
Qed.

Lemma bili_task_raises (h : host) (output_dir u : pystr) (w : world) :
  fst (Bili.task_wrapper_on terminal h output_dir (Some (sink f)) u w) = Raise e0.
Proof.
  unfold Bili.task_wrapper_on, bind.
  pose proof (bili_unit_raises h u output_dir w) as H.
  destruct (Bili.process_single_file_on terminal h u output_dir (Some (sink f)) w)
    as [[b|e] w1]; simpl in H; [discriminate|].
  injection H as ->. reflexivity.
Qed.

End Raising.


Lemma cb_raising_always : always_raises (OtherError 1) cb_raising.
Proof. intros history arg. reflexivity. Qed.


(** ** The pool size [main] asks for *)

Lemma mp4_refused_pool (h : host) (input_dirs : list pystr)
    (output_dir : pystr) (cb : option pyfun) (w : world) (fs1 : node) (n : Z) :
  (n <= 0)%Z ->
  ensure_dir (w_fs w) output_dir = Ok fs1 ->
  flat_map (Mp4.find_video_files fs1) input_dirs <> [] ->
  Mp4.process_folders_parallel_on terminal h input_dirs output_dir cb (Some n) w
  = (Raise ValueError, set_counters 0 0 (set_fs fs1 w)).
Proof.
  intros Hn Hd Hne. unfold Mp4.process_folders_parallel, Mp4.process_folders_parallel_on.
  rewrite ensure_dir_bind, Hd. unfold bind at 1, get_fs.
  change (w_fs (set_fs fs1 w)) with fs1.
  destruct (flat_map (Mp4.find_video_files fs1) input_dirs)
    as [|u0 us]; [congruence|].
  replace (Z.of_nat (length (u0 :: us)) =? 0)%Z with false
    by (symmetry; apply Z.eqb_neq; simpl; lia).
  unfold bind, Mp4.default_workers, ret, thread_pool.
  replace (n <=? 0)%Z with true by (symmetry; apply Z.leb_le; lia).
  reflexivity.
Qed.

(** X7. On Windows [main] of [biliAudioToMp3_.py] asks for between 1 and 8
    workers, whatever [os.cpu_count()] says. [main] of [mp4Tomp3.py] asks for
    the processor count minus one: on a machine with one processor that is
    0, the maximum with 1 in [process_folders_parallel] is not applied to an
    explicit size, and a batch with at least one video raises [ValueError]
    before any unit is run. *)
Theorem pool_size_asked_by_main :
  forall (h : host) (os_cpu_count : option Z) (input_dirs : list pystr)
         (output_dir : pystr) (cb : option pyfun) (w : world) (fs1 : node),
    (forall c, os_cpu_count = Some c -> (0 <= c)%Z) ->
    cpu_count h = Some 1%Z ->
    ensure_dir (w_fs w) output_dir = Ok fs1 ->
    flat_map (Mp4.find_video_files fs1) input_dirs <> [] ->
    (exists n, Bili.main_max_workers true os_cpu_count = Some n /\
               (1 <= n <= 8)%Z) /\
    Mp4.main_max_workers true h = Ok (Some 0%Z) /\
    Mp4.process_folders_parallel h input_dirs output_dir cb (Some 0%Z) w
    = (Raise ValueError, set_counters 0 0 (set_fs fs1 w)).
Proof.
  intros h os_cpu_count input_dirs output_dir cb w fs1 Hc Hone Hd Hne.
  split; [|split].
  - unfold Bili.main_max_workers. eexists. split; [reflexivity|].
    destruct os_cpu_count as [c|]; [|lia].
    specialize (Hc c eq_refl).
    destruct (c =? 0)%Z eqn:E; [lia|]. apply Z.eqb_neq in E. lia.
  - unfold Mp4.main_max_workers. now rewrite Hone.
  - apply mp4_refused_pool; [lia | exact Hd | exact Hne].
Qed.

Lemma pool_size_asked_by_main_witness :
  (exists n, Bili.main_max_workers true (Some 16%Z) = Some n /\ (1 <= n <= 8)%Z) /\
  Mp4.main_max_workers true (machine encoder_ok 1) = Ok (Some 0%Z) /\
  Mp4.process_folders_parallel (machine encoder_ok 1) [py "/in"] (py "/out")
    (Some (sink cb_quiet)) (Some 0%Z) (fresh_world sample_fs)
  = (Raise ValueError, set_counters 0 0 (set_fs sample_fs (fresh_world sample_fs))).
Proof.
  refine (@pool_size_asked_by_main (machine encoder_ok 1) (Some 16%Z)
            [py "/in"] (py "/out") (Some (sink cb_quiet))
            (fresh_world sample_fs) sample_fs _ eq_refl eq_refl _).
  - intros c Hc. injection Hc as <-. lia.
  - vm_compute. discriminate.
Defined.

(** ** The progress window *)

Lemma bili_window_stopped (events : list (option bool))
    (win : Bili.ProgressWindow) :
  Bili.running win = false -> Bili.window_after events win = win.
Proof.
  intros H. unfold Bili.window_after.
  induction events as [|e events IH]; [reflexivity|].
  simpl. unfold Bili.update at 2. rewrite H. simpl. exact IH.
Qed.

Lemma bili_window_run (events : list (option bool)) :
  forall (t c s : Z),
    (0 <= c < t)%Z ->
    Bili.window_after events
      {| Bili.total := t; Bili.completed := c; Bili.success := s;
         Bili.running := true |}
    = {| Bili.total := t;
         Bili.completed := Z.min t (c + Z.of_nat (length events));
         Bili.success := s + count_flags (Z.to_nat (t - c)) events;
         Bili.running := (c + Z.of_nat (length events) <? t)%Z |}.
Proof.
  induction events as [|e events IH]; intros t c s Hc.
  - simpl. unfold Bili.window_after. simpl.
    replace (Z.min t (c + 0)) with c by lia.
    replace (c + 0 <? t)%Z with true by (symmetry; apply Z.ltb_lt; lia).
    replace (count_flags (Z.to_nat (t - c)) []) with 0%Z
      by (destruct (Z.to_nat (t - c)); reflexivity).
    now rewrite Z.add_0_r.
  - unfold Bili.window_after. cbn [fold_left].
    unfold Bili.update at 2. cbn [Bili.running Bili.total Bili.completed
                                  Bili.success negb].
    replace (t =? 0)%Z with false by (symmetry; apply Z.eqb_neq; lia).
    cbn [fst].
    assert (Hn : Z.to_nat (t - c) = S (Z.to_nat (t - (c + 1)))) by lia.
    destruct (t <=? c + 1)%Z eqn:El.
    + apply Z.leb_le in El.
      fold (Bili.window_after events
              {| Bili.total := t; Bili.completed := c + 1;
                 Bili.success := match e with
                                 | Some true => s + 1
                                 | _ => s
                                 end;
                 Bili.running := false |}).
      rewrite bili_window_stopped by reflexivity.
      rewrite Hn. replace (Z.to_nat (t - (c + 1))) with O by lia.
      cbn [length]. f_equal; try lia.
      * destruct e as [[|]|]; cbn [count_flags];
          destruct events; simpl; lia.
      * symmetry. apply Z.ltb_ge. lia.
    + apply Z.leb_gt in El.
      fold (Bili.window_after events
              {| Bili.total := t; Bili.completed := c + 1;
                 Bili.success := match e with
                                 | Some true => s + 1
                                 | _ => s
                                 end;
                 Bili.running := true |}).
      rewrite IH by lia. rewrite Hn. cbn [length].
      f_equal; try lia.
      * destruct e as [[|]|]; cbn [count_flags]; lia.
      * f_equal. lia.
Qed.

Lemma bili_window_facts :
  forall (t : Z) (events : list (option bool)) (e : option bool),
    (1 <= t)%Z ->
    let win := Bili.window_after events (Bili.new_window t) in
    Bili.total win = t /\
    Bili.completed win = Z.min t (Z.of_nat (length events)) /\
    Bili.success win = count_flags (Z.to_nat t) events /\
    Bili.running win = (Z.of_nat (length events) <? t)%Z /\
    (0 <= Bili.success win <= Bili.completed win)%Z /\
    snd (Bili.update win e) = false.
Proof.
  intros t events e Ht win. unfold win, Bili.new_window.
  rewrite bili_window_run by lia. cbn [Bili.total Bili.completed Bili.success
                                       Bili.running].
  rewrite Z.sub_0_r, !Z.add_0_l.
  assert (Hb : forall n evs,
             (0 <= count_flags n evs
              <= Z.min (Z.of_nat n) (Z.of_nat (length evs)))%Z).
  { induction n as [|n IHn]; intros [|[[|]|] evs]; cbn [count_flags length];
      try lia; specialize (IHn evs); lia. }
  specialize (Hb (Z.to_nat t) events).
  repeat split; try lia.
  unfold Bili.update. cbn [Bili.running Bili.total].
  destruct (negb _); [reflexivity|].
  replace (t =? 0)%Z with false by (symmetry; apply Z.eqb_neq; lia).
  reflexivity.
Qed.

(** X8. The window of [biliAudioToMp3_.py], made for [t >= 1] tasks, after any
    events: it has counted the first [t] events, the [True] among them as
    successes, and has stopped once [t] events were in; no call of [update]
    has divided by zero. *)
Theorem bili_window_counts :
  forall (t : Z) (events : list (option bool)) (e : option bool),
    (1 <= t)%Z ->
    let win := Bili.window_after events (Bili.new_window t) in
    Bili.total win = t /\
    Bili.completed win = Z.min t (Z.of_nat (length events)) /\
    Bili.success win = count_flags (Z.to_nat t) events /\
    Bili.running win = (Z.of_nat (length events) <? t)%Z /\
    (0 <= Bili.success win <= Bili.completed win)%Z /\
    snd (Bili.update win e) = false.
Proof. exact bili_window_facts. Qed.

Lemma bili_window_counts_witness :
  let win :=
    Bili.window_after [Some true; Some false; Some true; Some true]
      (Bili.new_window 3) in
  Bili.total win = 3%Z /\
  Bili.completed win = Z.min 3 (Z.of_nat 4) /\
  Bili.success win = count_flags (Z.to_nat 3) [Some true; Some false; Some true; Some true] /\
  Bili.running win = (Z.of_nat 4 <? 3)%Z /\
  (0 <= Bili.success win <= Bili.completed win)%Z /\
  snd (Bili.update win None) = false.
Proof.
  exact (@bili_window_counts 3 [Some true; Some false; Some true; Some true]
           None ltac:(lia)).
Defined.

Lemma count_flags_all (flags : list bool) :
  count_flags (length flags) (map Some flags) = count_true flags.
Proof.
  induction flags as [|[|] flags IH]; cbn [length map count_flags count_true];
    rewrite ?IH; reflexivity.
Qed.

Lemma bili_window_callback_quiet (t : Z) :
  (1 <= t)%Z -> quiet (bili_window_callback t).
Proof.
  intros Ht history arg. unfold bili_window_callback.
  destruct (@bili_window_facts t history arg Ht) as (_ & _ & _ & _ & _ & H).
  now rewrite H.
Qed.

(** X9. [main] of [biliAudioToMp3_.py] passes [progress_window.update] to the
    batch; [update] changes the counters of the window without a lock, so
    its calls must not overlap: the pool has one worker. Then, on a console
    that takes every line and with at least one descriptor, the batch
    returns [(total, success)] and leaves the window, made for [total]
    tasks, with [total] completed, [success] successes, and stopped. *)
Theorem bili_window_shows_the_tally :
  forall (out : console) (h : host) (input_dirs : list pystr)
         (output_dir : pystr) (max_workers : option Z) (w : world)
         (fs1 : node),
    let t :=
      Z.of_nat (length (flat_map (Bili.find_entry_json_files fs1) input_dirs)) in
    accepting out ->
    w_cb w = [] ->
    ensure_dir (w_fs w) output_dir = Ok fs1 ->
    fst (Bili.default_workers h max_workers w) = Ok 1%Z ->
    (1 <= t)%Z ->
    exists s w',
      Bili.process_folders_parallel_on out h input_dirs output_dir
        (Some (sink (bili_window_callback t))) max_workers w
      = (Ok (t, s), w') /\
      Bili.window_after (w_cb w') (Bili.new_window t)
      = {| Bili.total := t; Bili.completed := t; Bili.success := s;
           Bili.running := false |}.
Proof.
  intros out h input_dirs output_dir max_workers w fs1 t Ho Hcb Hd Hn Ht.
  assert (Hq : forall g, Some (bili_window_callback t) = Some g -> quiet g)
    by (intros g Hg; injection Hg as <-; now apply bili_window_callback_quiet).
  assert (Hne : flat_map (Bili.find_entry_json_files fs1) input_dirs <> []).
  { intros E. unfold t in Ht. rewrite E in Ht. simpl in Ht. lia. }
  destruct (@bili_batch_returns out h input_dirs output_dir max_workers w fs1
              Hd (Some (bili_window_callback t)) 1%Z Ho Hq Hne Hn
              ltac:(lia))
    as (rs & bs & cs & w' & E & _ & _ & Hl & Hev & Hperm & _).
  exists (count_true bs), w'. split; [exact E|].
  rewrite Hev, Hcb. cbn [app supplied].
  unfold Bili.new_window. rewrite bili_window_run by lia.
  rewrite length_map, (Permutation_length Hperm), Hl. fold t.
  rewrite Z.sub_0_r, !Z.add_0_l.
  replace (Z.to_nat t) with (length (flags_of cs))
    by (unfold t; rewrite (Permutation_length Hperm), Hl; lia).
  rewrite count_flags_all, (count_true_perm Hperm).
  f_equal; [lia|]. apply Z.ltb_ge. lia.
Qed.

Lemma bili_window_shows_the_tally_witness :
  exists s w',
    Bili.process_folders_parallel_on terminal (machine encoder_ok 2)
      [py "/in"] (py "/out") (Some (sink (bili_window_callback 1))) None
      (fresh_world sample_fs)
    = (Ok (1%Z, s), w') /\
    Bili.window_after (w_cb w') (Bili.new_window 1)
    = {| Bili.total := 1; Bili.completed := 1; Bili.success := s;
         Bili.running := false |}.
Proof.
  exact (@bili_window_shows_the_tally terminal (machine encoder_ok 2)
           [py "/in"] (py "/out") None (fresh_world sample_fs) sample_fs
           terminal_accepting eq_refl eq_refl eq_refl
           ltac:(vm_compute; discriminate)).
Defined.

Lemma mp4_update_none_new (t : Z) :
  (1 <= t)%Z ->
  Mp4.update (Mp4.new_window t) None = (Mp4.new_window t, false).
Proof.
  intros Ht. unfold Mp4.update, Mp4.new_window.
  cbn [Mp4.running Mp4.total Mp4.completed Mp4.success negb].
  replace (t =? 0)%Z with false by (symmetry; apply Z.eqb_neq; lia).
  replace (t <=? 0)%Z with false by (symmetry; apply Z.leb_gt; lia).
  reflexivity.
Qed.

Lemma mp4_window_refresh (t : Z) (events : list (option bool)) :
  (1 <= t)%Z ->
  Mp4.window_after_main events (Mp4.new_window t) = Mp4.new_window t.
Proof.
  intros Ht. unfold Mp4.window_after_main.
  induction events as [|e events IH]; [reflexivity|].
  cbn [fold_left]. rewrite mp4_update_none_new by exact Ht. exact IH.
Qed.

Lemma mp4_window_callback_quiet (t : Z) :
  (1 <= t)%Z -> quiet (mp4_window_callback t).
Proof.
  intros Ht history arg. unfold mp4_window_callback.
  rewrite mp4_window_refresh by exact Ht.
  now rewrite mp4_update_none_new.
Qed.

(** [update(None)] counts nothing: only the flags among the events move the
    window, in whatever order the events come. *)
Lemma mp4_window_run (events : list (option bool)) :
  forall (t c s : Z),
    (0 <= c)%Z -> (c + Z.of_nat (length (flags_of events)) <= t)%Z ->
    (1 <= t)%Z ->
    Mp4.window_after events
      {| Mp4.total := t; Mp4.completed := c; Mp4.success := s;
         Mp4.running := (c <? t)%Z |}
    = {| Mp4.total := t;
         Mp4.completed := c + Z.of_nat (length (flags_of events));
         Mp4.success := s + count_true (flags_of events);
         Mp4.running := (c + Z.of_nat (length (flags_of events)) <? t)%Z |}.
Proof.
  induction events as [|e events IH]; intros t c s Hc Hl Ht.
  - unfold Mp4.window_after. simpl. now rewrite !Z.add_0_r.
  - unfold Mp4.window_after. cbn [fold_left].
    fold (Mp4.window_after events).
    destruct e as [b|].
    + cbn [flags_of flat_map app length count_true] in Hl |- *.
      fold (flags_of events) in Hl |- *.
      assert (Hlt : (c <? t)%Z = true) by (apply Z.ltb_lt; lia).
      rewrite Hlt. unfold Mp4.update.
      cbn [Mp4.running Mp4.total Mp4.completed Mp4.success negb].
      replace (t =? 0)%Z with false by (symmetry; apply Z.eqb_neq; lia).
      cbn [fst].
      replace (if (t <=? c + 1)%Z then false else true)
        with (c + 1 <? t)%Z
        by (destruct (t <=? c + 1)%Z eqn:El;
            [apply Z.leb_le in El; apply Z.ltb_ge; lia
            | apply Z.leb_gt in El; apply Z.ltb_lt; lia]).
      rewrite IH by lia.
      f_equal; try lia.
      * destruct b; lia.
      * f_equal. lia.
    + cbn [flags_of flat_map app] in Hl |- *. fold (flags_of events) in Hl |- *.
      assert (Hnone :
        fst (Mp4.update
               {| Mp4.total := t; Mp4.completed := c; Mp4.success := s;
                  Mp4.running := (c <? t)%Z |} None)
        = {| Mp4.total := t; Mp4.completed := c; Mp4.success := s;
             Mp4.running := (c <? t)%Z |}).
      { unfold Mp4.update.
        cbn [Mp4.running Mp4.total Mp4.completed Mp4.success].
        destruct (c <? t)%Z eqn:El; cbn [negb fst]; [|reflexivity].
        replace (t =? 0)%Z with false by (symmetry; apply Z.eqb_neq; lia).
        apply Z.ltb_lt in El.
        replace (t <=? c)%Z with false by (symmetry; apply Z.leb_gt; lia).
        reflexivity. }
      rewrite Hnone. apply IH; assumption.
Qed.



(** ** The walks of the discovery *)

Lemma node_induction (P : node -> Prop) :
  (forall d, P (File d)) ->
  (forall es, (forall k ch, In (k, ch) es -> P ch) -> P (Dir es)) ->
  forall n, P n.
Proof.
  intros HF HD. fix IH 1. intros [d|es].
  - apply HF.
  - apply HD. induction es as [|[k0 ch0] r IHr]; intros k ch H.
    + destruct H.
    + destruct H as [E|H].
      * injection E as _ <-. apply IH.
      * eapply IHr. exact H.
Qed.

Lemma walk_dir (keep : pystr -> pystr -> bool) (top : pystr)
    (es : list (pystr * node)) :
  walk keep top (Dir es)
  = (top, dir_names es, file_names es)
    :: flat_map
         (fun kv =>
            if is_dir (snd kv) && keep top (fst kv)
            then walk keep (path_join top (fst kv)) (snd kv) else [])
         es.
Proof.
  cbn [walk]. f_equal.
  induction es as [|[k ch] r IH]; [reflexivity|].
  cbn [flat_map fst snd]. now rewrite IH.
Qed.

(** Every directory a walk visits is reached from the top through entries,
    directories, whose names the filter has kept. *)
Lemma walk_visits (keep : pystr -> pystr -> bool) :
  forall n top root dirs files,
    In (root, dirs, files) (walk keep top n) ->
    exists ks es,
      leads n ks (Dir es) /\ descends keep top ks /\
      root = fold_left path_join ks top /\
      dirs = dir_names es /\ files = file_names es.
Proof.
  induction n as [d|es IH] using node_induction; intros top root dirs files H.
  - destruct H.
  - rewrite walk_dir in H. destruct H as [E|H].
    + injection E as <- <- <-. exists [], es. cbn [leads descends fold_left].
      repeat split.
    + apply in_flat_map in H as ([k ch] & Hin & Hstep). cbn [fst snd] in Hstep.
      destruct (is_dir ch && keep top k) eqn:Ek; [|destruct Hstep].
      apply andb_true_iff in Ek as [Hd Ek].
      destruct (IH k ch Hin _ _ _ _ Hstep)
        as (ks & es' & Hl & Hks & Hroot & Hdirs & Hfiles).
      exists (k :: ks), es'. cbn [leads descends fold_left].
      split; [exists es, ch; repeat split; assumption|].
      repeat split; assumption.
Qed.

(** And every such directory is visited. *)
Lemma walk_reaches (keep : pystr -> pystr -> bool) :
  forall ks n top es,
    leads n ks (Dir es) -> descends keep top ks ->
    In (fold_left path_join ks top, dir_names es, file_names es)
       (walk keep top n).
Proof.
  induction ks as [|k ks IH]; intros n top es Hl Hd.
  - cbn [leads] in Hl. subst n. rewrite walk_dir. now left.
  - destruct Hl as (es0 & ch & -> & Hin & Hdir & Hl). destruct Hd as [Hk Hd].
    rewrite walk_dir. right. apply in_flat_map.
    exists (k, ch). split; [exact Hin|]. cbn [fst snd].
    rewrite Hdir, Hk. cbn [andb fold_left]. now apply IH.
Qed.

Lemma descends_kept (keep : pystr -> pystr -> bool) (P : pystr -> Prop) :
  (forall top k, keep top k = true -> P k) ->
  forall ks top, descends keep top ks -> Forall P ks.
Proof.
  intros HP. induction ks as [|k ks IH]; intros top H; [constructor|].
  destruct H as [Hk H]. constructor; [eapply HP; exact Hk | eapply IH; exact H].
Qed.

Lemma descends_not_hidden (top : pystr) (ks : list pystr) :
  descends (fun _ d => negb (startswith d (py "."))) top ks <->
  Forall (fun k => startswith k (py ".") = false) ks.
Proof.
  revert top; induction ks as [|k ks IH]; intros top; cbn [descends].
  - split; constructor.
  - split.
    + intros [Hk H]. constructor; [now apply negb_true_iff in Hk | now apply (IH (path_join top k))].
    + intros H. inversion H as [|? ? Hk H']; subst. split.
      * now apply negb_true_iff.
      * now apply IH.
Qed.

Lemma str_in_In (x : pystr) (l : list pystr) : str_in x l = true <-> In x l.
Proof.
  unfold str_in. rewrite existsb_exists. split.
  - intros (y & Hy & E). apply str_eqb_eq in E. now subst.
  - intros H. exists x. split; [exact H | apply str_eqb_refl].
Qed.

(** ** Where the audio file comes from *)

Lemma first_return_some {A B : Type} (body : A -> option B) (l : list A) (b : B) :
  Bili.first_return body l = Some b -> exists x, In x l /\ body x = Some b.
Proof.
  induction l as [|x l IH]; simpl; [discriminate|].
  destruct (body x) as [b'|] eqn:E.
  - intros H. injection H as <-. exists x. split; [now left | exact E].
  - intros H. destruct (IH H) as (y & Hy & Ey). exists y. split; [now right | exact Ey].
Qed.

Lemma first_return_none {A B : Type} (body : A -> option B) (l : list A) :
  Bili.first_return body l = None -> forall x, In x l -> body x = None.
Proof.
  induction l as [|x l IH]; simpl; [intros _ y []|].
  destruct (body x) as [b'|] eqn:E; [discriminate|].
  intros H y [<-|Hy]; [exact E | now apply IH].
Qed.

(** The filter of the search keeps no hidden directory: a name that starts
    with a dot is none of the four common names, in whatever case. *)
Lemma audio_dirs_not_hidden (d : pystr) :
  str_in (lower d) Bili.common_audio_dirs || negb (startswith d (py ".")) = true ->
  startswith d (py ".") = false.
Proof.
  destruct d as [|c d]; [reflexivity|].
  change (py ".") with [46%N]. cbn [startswith].
  destruct (N.eqb_spec c 46) as [->|Hc]; [|reflexivity].
  replace (startswith d []) with true by (destruct d; reflexivity).
  cbn [andb negb]. rewrite orb_false_r.
  change (lower (46%N :: d)) with (46%N :: lower d).
  intros H. exfalso. revert H. vm_compute. discriminate.
Qed.

Lemma count_cp_app (c : N) (a b : pystr) :
  count_cp c (a ++ b) = (count_cp c a + count_cp c b)%Z.
Proof. unfold count_cp. rewrite filter_app, length_app. lia. Qed.

Lemma count_cp_plain (k : pystr) : plain_name k = true -> count_cp sep k = 0%Z.
Proof.
  unfold plain_name, count_cp. induction k as [|c k IH]; [reflexivity|].
  cbn [forallb filter]. intros H. apply andb_true_iff in H as [Hc Hk].
  rewrite N.eqb_sym. apply negb_true_iff in Hc. rewrite Hc. now apply IH.
Qed.

Lemma endswith_entry (a k : pystr) :
  entry_name k -> endswith (a ++ k) [sep] = false.
Proof.
  intros [Hne Hp]. destruct (exists_last (l := k)) as (k0 & c & ->).
  { intros ->. discriminate. }
  unfold endswith. rewrite app_assoc, rev_app_distr. cbn [rev app startswith].
  rewrite plain_name_app in Hp. apply andb_true_iff in Hp as [_ Hc].
  unfold plain_name in Hc. cbn [forallb] in Hc. rewrite andb_true_r in Hc.
  apply negb_true_iff in Hc. now rewrite Hc.
Qed.

(** Joining the name of an entry to a path adds one separator, or none when
    the path ends with one already. *)
Lemma path_join_entry (a k : pystr) :
  is_empty a = false -> entry_name k ->
  count_cp sep (path_join a k)
  = (count_cp sep a + if endswith a [sep] then 0 else 1)%Z /\
  endswith (path_join a k) [sep] = false /\
  is_empty (path_join a k) = false.
Proof.
  intros Ha Hk. pose proof Hk as [Hne Hp].
  unfold path_join.
  assert (Hs : startswith k [sep] = false).
  { destruct k as [|c k]; [discriminate|]. cbn [startswith].
    unfold plain_name in Hp. cbn [forallb] in Hp.
    apply andb_true_iff in Hp as [Hc _]. apply negb_true_iff in Hc.
    now rewrite Hc. }
  rewrite Hs, Ha. cbn [orb].
  destruct (endswith a [sep]).
  - rewrite count_cp_app, (@count_cp_plain k Hp).
    split; [lia|]. split; [now apply endswith_entry|].
    destruct a; [discriminate | reflexivity].
  - rewrite !count_cp_app, (@count_cp_plain k Hp).
    split; [reflexivity|]. split.
    + rewrite app_assoc. now apply endswith_entry.
    + destruct a; reflexivity.
Qed.

Lemma path_join_entries (ks : list pystr) :
  forall a,
    is_empty a = false -> Forall entry_name ks ->
    count_cp sep (fold_left path_join ks a)
    = (count_cp sep a + Z.of_nat (length ks)
       - if endswith a [sep] && negb (Nat.eqb (length ks) 0) then 1 else 0)%Z.
Proof.
  induction ks as [|k ks IH]; intros a Ha Hks.
  - cbn [fold_left length Nat.eqb negb]. rewrite andb_false_r. lia.
  - inversion Hks as [|? ? Hk Hks']; subst.
    destruct (@path_join_entry a k Ha Hk) as (Hc & He & Hn).
    cbn [fold_left]. rewrite (IH _ Hn Hks'), He, Hc.
    cbn [andb length Nat.eqb negb]. rewrite andb_true_r.
    destruct (endswith a [sep]); lia.
Qed.

(** The depth the guard [root.count(os.sep) - json_dir.count(os.sep) > 2]
    allows: two directories, three below a [json_dir] that ends with a
    separator. *)
Lemma too_deep_levels (json_dir : pystr) (ks : list pystr) :
  is_empty json_dir = false -> Forall entry_name ks ->
  Bili.too_deep json_dir (fold_left path_join ks json_dir)
  = Nat.ltb (if endswith json_dir [sep] then 3 else 2) (length ks).
Proof.
  intros Ha Hks. unfold Bili.too_deep. rewrite (@path_join_entries ks json_dir Ha Hks).
  destruct ks as [|k ks]; cbn [length Nat.eqb negb].
  - rewrite andb_false_r. destruct (endswith json_dir [sep]); cbn [Nat.ltb Nat.leb];
      apply Z.ltb_ge; lia.
  - rewrite andb_true_r.
    destruct (endswith json_dir [sep]);
      (destruct (Nat.ltb _ (S (length ks))) eqn:E;
       [apply Nat.ltb_lt in E; apply Z.ltb_lt; lia
       | apply Nat.ltb_ge in E; apply Z.ltb_ge; lia]).
Qed.

(** X11. What [find_audio_file] returns is either the first of the five
    well-known names that exists in the descriptor's directory, or, when none
    of them exists, a file of a directory reached from the descriptor's
    directory through directories that are not hidden; the name of that
    file, in lower case, ends with one of the five extensions. Entry names
    being non-empty and without separator, the file lies at most two
    directories down, three when [json_dir] ends with a separator (as the
    root [/] does, the directory of [/entry.json]). [json_dir] is an
    absolute path in normal form. *)
Theorem audio_file_found_where :
  forall (fs : node) (json_dir r : pystr),
    normal_path json_dir = true ->
    Bili.find_audio_file fs json_dir = Some r ->
    (exists ext,
        In ext Bili.audio_extensions /\
        r = path_join json_dir (py "audio" ++ ext) /\
        path_exists fs r = true) \/
    ((forall ext,
         In ext Bili.audio_extensions ->
         path_exists fs (path_join json_dir (py "audio" ++ ext)) = false) /\
     exists n ks es file,
       fs_stat fs json_dir = Some n /\
       leads n ks (Dir es) /\
       In file (file_names es) /\
       r = path_join (fold_left path_join ks json_dir) file /\
       existsb (endswith (lower file)) Bili.audio_extensions = true /\
       Forall (fun k => startswith k (py ".") = false) ks /\
       (Forall entry_name ks ->
        length ks <= (if endswith json_dir [sep] then 3 else 2))).
Proof.
  intros fs json_dir r _. unfold Bili.find_audio_file.
  match goal with
  | |- match ?scrut with _ => _ end = _ -> _ =>
      destruct scrut as [p|] eqn:Ea
  end.
  - intros H. injection H as <-. left.
    apply first_return_some in Ea as (ext & Hext & Hbody).
    cbv zeta in Hbody.
    destruct (path_exists fs (path_join json_dir (py "audio" ++ ext))) eqn:Ex;
      [|discriminate].
    injection Hbody as <-. exists ext. repeat split; assumption.
  - intros H. right. split.
    { intros ext Hext. pose proof (first_return_none _ _ Ea ext Hext) as Hb.
      cbv beta zeta in Hb.
      destruct (path_exists fs (path_join json_dir (py "audio" ++ ext)));
        [discriminate | reflexivity]. }
    apply first_return_some in H as ([[root dirs] files] & Hstep & Hbody).
    destruct (Bili.too_deep json_dir root) eqn:Ed; [discriminate|].
    apply first_return_some in Hbody as (file & Hfile & Hb).
    cbv zeta in Hb.
    destruct (existsb (endswith (lower file)) Bili.audio_extensions) eqn:Ee;
      [|discriminate].
    assert (Hr : r = path_join root file)
      by (destruct (startswith (lower file) (py "audio")); congruence).
    unfold os_walk in Hstep.
    destruct (fs_stat fs json_dir) as [n|] eqn:En; [|destruct Hstep].
    destruct (walk_visits _ _ _ _ _ _ Hstep)
      as (ks & es & Hl & Hks & Hroot & _ & Hfiles).
    exists n, ks, es, file. subst root files.
    repeat split; try assumption.
    + eapply descends_kept; [|exact Hks].
      intros top k Hk. apply andb_true_iff in Hk as [_ Hk].
      now apply audio_dirs_not_hidden.
    + intros Hnames.
      assert (Hj : is_empty json_dir = false).
      { unfold fs_stat in En. destruct (is_empty json_dir); [discriminate | reflexivity]. }
      rewrite (@too_deep_levels json_dir ks Hj Hnames) in Ed.
      now apply Nat.ltb_ge in Ed.
Qed.

Lemma audio_file_found_where_witness :
  (exists ext,
      In ext Bili.audio_extensions /\
      py "/a/b/c/x.m4a" = path_join (py "/") (py "audio" ++ ext) /\
      path_exists deep_fs (py "/a/b/c/x.m4a") = true) \/
  ((forall ext,
       In ext Bili.audio_extensions ->
       path_exists deep_fs (path_join (py "/") (py "audio" ++ ext)) = false) /\
   exists n ks es file,
     fs_stat deep_fs (py "/") = Some n /\
     leads n ks (Dir es) /\
     In file (file_names es) /\
     py "/a/b/c/x.m4a" = path_join (fold_left path_join ks (py "/")) file /\
     existsb (endswith (lower file)) Bili.audio_extensions = true /\
     Forall (fun k => startswith k (py ".") = false) ks /\
     (Forall entry_name ks ->
      length ks <= (if endswith (py "/") [sep] then 3 else 2))).
Proof.
  apply (@audio_file_found_where deep_fs (py "/") (py "/a/b/c/x.m4a"));
    vm_compute; reflexivity.
Defined.

(** The bound is reached: below the root [/] the search returns a file three
    directories down; below [/top] it finds nothing in the same tree, and
    the file two directories down. *)
Example audio_three_levels_below_root :
  Bili.find_audio_file deep_fs (py "/") = Some (py "/a/b/c/x.m4a") /\
  Bili.find_audio_file deeper_fs (py "/top") = None /\
  Bili.find_audio_file deeper_fs (py "/top/") = Some (py "/top/a/b/c/x.m4a") /\
  Bili.find_audio_file deeper_fs (py "/top/a") = Some (py "/top/a/b/c/x.m4a").
Proof. vm_compute. repeat split. Qed.

(** ** What the discovery returns *)

(** X12. For a root directory given as an absolute path in normal form, the
    discovery returns exactly the files of the directories reached from the
    root directory through directories whose names do not start with a
    dot: a descriptor is a file named [entry.json] of such a directory, a
    video a file of such a directory whose extension, in lower case, is one
    of the seven. Nothing in or below a hidden directory is returned, and
    nothing else is left out. *)
Theorem discovery_skips_hidden_directories :
  forall (fs : node) (root_dir r : pystr),
    normal_path root_dir = true ->
    (In r (Bili.find_entry_json_files fs root_dir) <->
     exists n ks es,
       fs_stat fs root_dir = Some n /\
       leads n ks (Dir es) /\
       Forall (fun k => startswith k (py ".") = false) ks /\
       In (py "entry.json") (file_names es) /\
       r = path_join (fold_left path_join ks root_dir) (py "entry.json")) /\
    (In r (Mp4.find_video_files fs root_dir) <->
     exists n ks es file,
       fs_stat fs root_dir = Some n /\
       leads n ks (Dir es) /\
       Forall (fun k => startswith k (py ".") = false) ks /\
       In file (file_names es) /\
       str_in (lower (snd (splitext file))) Mp4.VIDEO_EXTENSIONS = true /\
       r = path_join (fold_left path_join ks root_dir) file).
Proof.
  intros fs root_dir r _. split; split.
  - unfold Bili.find_entry_json_files, os_walk. intros H.
    apply in_flat_map in H as ([[root dirs] files] & Hstep & Hr).
    destruct (fs_stat fs root_dir) as [n|]; [|destruct Hstep].
    destruct (str_in (py "entry.json") files) eqn:Ef; [|destruct Hr].
    destruct Hr as [<-|[]].
    destruct (walk_visits _ _ _ _ _ _ Hstep)
      as (ks & es & Hl & Hks & -> & _ & ->).
    exists n, ks, es. repeat split; try assumption.
    + now apply (descends_not_hidden root_dir).
    + now apply str_in_In.
  - intros (n & ks & es & En & Hl & Hks & Hf & ->).
    unfold Bili.find_entry_json_files, os_walk. rewrite En.
    apply in_flat_map.
    exists (fold_left path_join ks root_dir, dir_names es, file_names es).
    split.
    + apply walk_reaches; [exact Hl | now apply descends_not_hidden].
    + apply str_in_In in Hf. rewrite Hf. now left.
  - unfold Mp4.find_video_files, os_walk. intros H.
    apply in_flat_map in H as ([[root dirs] files] & Hstep & Hr).
    destruct (fs_stat fs root_dir) as [n|]; [|destruct Hstep].
    apply in_flat_map in Hr as (file & Hfile & Hr). cbv zeta in Hr.
    destruct (str_in (lower (snd (splitext file))) Mp4.VIDEO_EXTENSIONS) eqn:Ee;
      [|destruct Hr].
    destruct Hr as [<-|[]].
    destruct (walk_visits _ _ _ _ _ _ Hstep)
      as (ks & es & Hl & Hks & -> & _ & ->).
    exists n, ks, es, file. repeat split; try assumption.
    now apply (descends_not_hidden root_dir).
  - intros (n & ks & es & file & En & Hl & Hks & Hf & He & ->).
    unfold Mp4.find_video_files, os_walk. rewrite En.
    apply in_flat_map.
    exists (fold_left path_join ks root_dir, dir_names es, file_names es).
    split.
    + apply walk_reaches; [exact Hl | now apply descends_not_hidden].
    + apply in_flat_map. exists file. split; [exact Hf|].
      cbv zeta. rewrite He. now left.
Qed.

(** The descriptor under [v.1] is found, and no chain of directories that
    are not hidden leads to the one under [.git]. *)
Lemma discovery_skips_hidden_directories_witness :
  In (py "/in/v.1/entry.json") (Bili.find_entry_json_files hidden_fs (py "/in")) /\
  ~ (exists n ks es,
        fs_stat hidden_fs (py "/in") = Some n /\
        leads n ks (Dir es) /\
        Forall (fun k => startswith k (py ".") = false) ks /\
        In (py "entry.json") (file_names es) /\
        py "/in/.git/entry.json"
        = path_join (fold_left path_join ks (py "/in")) (py "entry.json")).
Proof.
  split.
  - apply (proj1 (@discovery_skips_hidden_directories hidden_fs (py "/in")
                    (py "/in/v.1/entry.json") eq_refl)).
    eexists. exists [py "v.1"]. eexists.
    split; [vm_compute; reflexivity|].
    split.
    { cbn [leads]. eexists. eexists. split; [reflexivity|].
      split; [right; left; reflexivity|]. split; reflexivity. }
    split; [repeat constructor|].
    split; [left; reflexivity|].
    vm_compute. reflexivity.
  - intros H.
    apply (proj1 (@discovery_skips_hidden_directories hidden_fs (py "/in")
                    (py "/in/.git/entry.json") eq_refl)) in H.
    vm_compute in H. destruct H as [H|[]]. discriminate H.
Defined.

(** In [hidden_fs] the descriptor and the video under [.git] are left out;
    those under [v.1], whose name only contains a dot, are found. *)
Example hidden_directory_left_out :
  Bili.find_entry_json_files hidden_fs (py "/in") = [py "/in/v.1/entry.json"] /\
  Mp4.find_video_files hidden_fs (py "/in") = [py "/in/v.1/b.MP4"] /\
  Bili.find_entry_json_files hidden_fs (py "/in/.git")
  = [py "/in/.git/entry.json"].
Proof. vm_compute. repeat split. Qed.

(** ** Where the destination lies *)

Lemma destination_components (output_dir name : pystr) :
  components (path_join output_dir (sanitize name ++ py ".mp3"))
  = components output_dir ++ [sanitize name ++ py ".mp3"].
Proof.
  apply components_join.
  - destruct (sanitize name); discriminate.
  - fold (plain_name (sanitize name ++ py ".mp3")).
    rewrite plain_name_app, sanitize_plain. reflexivity.
Qed.



(** ** Descriptors without audio *)


